(** * An MP4 (ISO-BMFF) box reader and Annex-B extractor: model and properties

    Shallow embedding of the Go program: the flag-driven variant with
    [MovieBox], [HandlerBox] and [extractVideoChunks].  The repository holds
    an older variant of the same program as well, whose scanner is the same
    function; its track selection is embedded in [MainGo], its table
    decoders, [Parse], [Open] and [main] in [Older].

    Conventions of the embedding:
    - Go's [int64] and [uint32] values are [Z]; every [int64] addition or
      subtraction the program performs goes through [add64]/[sub64], which
      write the two's-complement wrap-around out.
    - A [[]byte] is a [slice]: [None] is the nil slice, [Some l] a non-nil
      slice of length (and capacity) [length l].
    - A run-time panic, and a loop that never ends, are outcomes of the
      result type; loops driven by input data take fuel, one unit per
      iteration.
    - Every call of [io.ReaderAt.ReadAt] is logged as a [read_event], so that
      "performs no read" is a statement about the log.
    - The operating system is a parameter: [Mp4Reader_Parse_os], [Open_os]
      and [main_written_os] take its answers to [os.Open] and [Stat];
      [Mp4Reader_Parse], [Open] and [main_written] are these functions on a
      regular file, which opens and whose [Stat] reports its length.
    - [fmt.Println] diagnostics are not modelled. *)

From Stdlib Require Import ZArith List String Lia Bool.
From Stdlib Require Import Strings.Byte.
Import ListNotations.
Open Scope Z_scope.

(** ** Machine integers *)

Definition wrap64 (z : Z) : Z := (z + 2 ^ 63) mod 2 ^ 64 - 2 ^ 63.
Definition add64 (a b : Z) : Z := wrap64 (a + b).
Definition sub64 (a b : Z) : Z := wrap64 (a - b).
Definition int64_range (z : Z) : Prop := - 2 ^ 63 <= z < 2 ^ 63.
Definition uint32_max : Z := 4294967295.

(** [BoxHeaderSize = int64(8)] *)
Definition BoxHeaderSize : Z := 8.

(** ** Outcomes, panics and the read log *)

Inductive panic_kind : Type :=
| SliceBoundsOutOfRange   (* s[lo:hi] with hi > cap(s) *)
| IndexOutOfRange         (* s[i] with i >= len(s) *)
| NilPointerDereference   (* field access through a nil pointer *)
| MakeLenOutOfRange.      (* make([]byte, n) with n < 0 or n > maxAlloc *)

Inductive outcome (A : Type) : Type :=
| Ok (a : A)
| Panic (k : panic_kind)
| Timeout.
Arguments Ok {A} a.
Arguments Panic {A} k.
Arguments Timeout {A}.

Record read_event : Type := ReadEv { ev_off : Z; ev_len : Z }.

Definition M (A : Type) : Type := (outcome A * list read_event)%type.

Definition ret {A} (a : A) : M A := (Ok a, []).
Definition panic {A} (k : panic_kind) : M A := (Panic k, []).
Definition timeout {A} : M A := (Timeout, []).

Definition bind {A B} (c : M A) (f : A -> M B) : M B :=
  match c with
  | (Ok a, t) => let (r, t') := f a in (r, t ++ t')
  | (Panic k, t) => (Panic k, t)
  | (Timeout, t) => (Timeout, t)
  end.

Notation "x <- c ;; k" := (bind c (fun x => k))
  (at level 61, c at next level, right associativity).
Notation "' p <- c ;; k" := (bind c (fun x => match x with p => k end))
  (at level 61, p pattern, c at next level, right associativity).

Definition result {A} (c : M A) : outcome A := fst c.
Definition reads {A} (c : M A) : list read_event := snd c.

(** ** Slices and [encoding/binary] *)

Definition slice : Type := option (list byte).

Definition slice_len (s : slice) : Z :=
  match s with None => 0 | Some l => Z.of_nat (List.length l) end.

(** [s[lo:hi]] for constant [0 <= lo <= hi]: panics when [hi > cap(s)]. *)
Definition sub_slice (s : slice) (lo hi : Z) : M (list byte) :=
  if hi <=? slice_len s then
    match s with
    | None => ret []
    | Some l => ret (firstn (Z.to_nat (hi - lo)) (skipn (Z.to_nat lo) l))
    end
  else panic SliceBoundsOutOfRange.

(** [s[lo:]]: panics when [lo > len(s)]. *)
Definition slice_from (s : slice) (lo : Z) : M (list byte) :=
  if lo <=? slice_len s then
    match s with
    | None => ret []
    | Some l => ret (skipn (Z.to_nat lo) l)
    end
  else panic SliceBoundsOutOfRange.

(** [s[i]] *)
Definition index (s : slice) (i : Z) : M byte :=
  match s with
  | None => panic IndexOutOfRange
  | Some l =>
      if i <? 0 then panic IndexOutOfRange
      else match nth_error l (Z.to_nat i) with
           | Some b => ret b
           | None => panic IndexOutOfRange
           end
  end.

Definition byte_val (b : byte) : Z := Z.of_N (Byte.to_N b).

(** [binary.BigEndian.Uint16]: reads [b[0]] and [b[1]] only. *)
Definition BigEndian_Uint16 (b : list byte) : M Z :=
  match b with
  | b0 :: b1 :: _ => ret (Z.lor (byte_val b1) (Z.shiftl (byte_val b0) 8))
  | _ => panic IndexOutOfRange
  end.

(** [binary.BigEndian.Uint32]: reads [b[0]] .. [b[3]]. *)
Definition BigEndian_Uint32 (b : list byte) : M Z :=
  match b with
  | b0 :: b1 :: b2 :: b3 :: _ =>
      ret (Z.lor (Z.lor (Z.lor (byte_val b3) (Z.shiftl (byte_val b2) 8))
                        (Z.shiftl (byte_val b1) 16))
                 (Z.shiftl (byte_val b0) 24))
  | _ => panic IndexOutOfRange
  end.

(** ** Fixed-point fields *)

(** [type Fixed16 uint16], documented as 8.8 fixed point. *)
Definition Fixed16 : Type := Z.
(** [type Fixed32 uint32], documented as 16.16 fixed point. *)
Definition Fixed32 : Type := Z.

Definition fixed16 (bytes : list byte) : M Fixed16 := BigEndian_Uint16 bytes.
Definition fixed32 (bytes : list byte) : M Fixed32 := BigEndian_Uint32 bytes.

(** [Fixed16.String]: prints [uint16(f) >> 8]. *)
Definition Fixed16_String_value (f : Fixed16) : Z := Z.shiftr f 8.

(** ** The box tree *)

Module Box.
(** The [Reader *Mp4Reader] field points at the one reader of the program;
    the functions below receive that reader as an argument instead. *)
Record t : Type := mk { Name : string; Size : Z; Start : Z }.
End Box.

Module FtypBox.
Record t : Type := mk {
  box : Box.t;
  MajorBrand : string;
  MinorVersion : Z;
  CompatibleBrands : list string }.
End FtypBox.

Module MovieHeaderBox.
Record t : Type := mk {
  box : Box.t;
  Version : byte;
  Flags : Z;
  CreationTime : Z;
  ModificationTime : Z;
  Timescale : Z;
  Duration : Z;
  Rate : Fixed32;
  Volume : Fixed16 }.
End MovieHeaderBox.

Module TrackHeaderBox.
Record t : Type := mk {
  box : Box.t;
  Version : byte;
  Flags : list byte;
  CreationTime : Z;
  ModificationTime : Z;
  TrackID : Z;
  Reserved : Z;
  Duration : Z;
  Layer : Z;
  AlternateGroup : Z;
  Volume : Fixed16;
  Width : Fixed16;
  Height : Fixed16 }.
End TrackHeaderBox.

Module MediaHeaderBox.
Record t : Type := mk {
  box : Box.t;
  Version : byte;
  Flags : list byte;
  CreationTime : Z;
  ModificationTime : Z;
  Timescale : Z;
  Duration : Z;
  PreDefined : Z }.
End MediaHeaderBox.

Module HandlerBox.
Record t : Type := mk {
  box : Box.t;
  Version : byte;
  Flags : list byte;
  PreDefined : Z;
  HandlerType : Z;
  TypeName : string }.
End HandlerBox.

(** [VideoMediaHeaderBox], [SoundMediaHeaderBox] and [HintMediaHeaderBox]
    have empty [parse] methods: only the header is kept. *)
Module SampleSizeBox.
Record t : Type := mk {
  box : Box.t;
  Version : byte;
  Flags : list byte;
  SampleSize : Z;
  SampleCount : Z }.
End SampleSizeBox.

Module SampleToChunkBox.
Record t : Type := mk {
  box : Box.t;
  Version : byte;
  Flags : list byte;
  EntryCount : Z }.
End SampleToChunkBox.

Module ChunkOffsetBox.
Record t : Type := mk {
  box : Box.t;
  Version : byte;
  Flags : list byte;
  EntryCount : Z }.
End ChunkOffsetBox.

Module SampleTableBox.
Record t : Type := mk {
  box : Box.t;
  Stsz : option SampleSizeBox.t;
  Stsc : option SampleToChunkBox.t;
  Stco : option ChunkOffsetBox.t }.
End SampleTableBox.

Module MediaInformationBox.
Record t : Type := mk {
  box : Box.t;
  Vmhd : option Box.t;
  Smhd : option Box.t;
  Hmhd : option Box.t;
  Stbl : option SampleTableBox.t }.
End MediaInformationBox.

Module MediaBox.
Record t : Type := mk {
  box : Box.t;
  Mdhd : option MediaHeaderBox.t;
  Hdlr : option HandlerBox.t;
  Minf : option MediaInformationBox.t }.
End MediaBox.

Module TrackBox.
Record t : Type := mk {
  box : Box.t;
  Tkhd : option TrackHeaderBox.t;
  Mdia : option MediaBox.t }.
End TrackBox.

Module MovieBox.
Record t : Type := mk {
  box : Box.t;
  Mvhd : option MovieHeaderBox.t;
  Trak : option TrackBox.t }.
End MovieBox.

Module MediaDataBox.
Record t : Type := mk { box : Box.t; Data : slice }.
End MediaDataBox.

Module Mp4Reader.
(** [Reader] is the [io.ReaderAt]: the bytes of the opened file, which do
    not change while the program runs. *)
Record t : Type := mk {
  Reader : list byte;
  Ftyp : option FtypBox.t;
  Moov : option MovieBox.t;
  Mdat : option MediaDataBox.t;
  Size : Z }.
End Mp4Reader.

(** ** Reading bytes *)

(** [ReadAt(buf, off)] of an [os.File], with [len(buf) = n]: an error for a
    negative offset or when fewer than [n] bytes follow [off]. *)
Definition ReadAt (file : list byte) (n off : Z) : option (list byte) :=
  if off <? 0 then None
  else
    let buf := firstn (Z.to_nat n) (skipn (Z.to_nat off) file) in
    if Z.of_nat (List.length buf) =? n then Some buf else None.

(** The largest length [make([]byte, n)] accepts: the allocation limit of
    the run-time on a 64-bit platform.  A longer slice, like one of negative
    length, panics before anything is read; an allocation below the limit
    is taken to succeed. *)
Definition maxAlloc : Z := 2 ^ 48.

(** [Mp4Reader.ReadBytesAt]: the named result [word] stays nil on error. *)
Definition Mp4Reader_ReadBytesAt (m : Mp4Reader.t) (n offset : Z) : M slice :=
  if (n <? 0) || (maxAlloc <? n) then panic MakeLenOutOfRange
  else (Ok (ReadAt (Mp4Reader.Reader m) n offset), [ReadEv offset n]).

(** [Mp4Reader.ReadBoxAt] *)
Definition Mp4Reader_ReadBoxAt (m : Mp4Reader.t) (offset : Z) : M (Z * string) :=
  buf <- Mp4Reader_ReadBytesAt m BoxHeaderSize offset ;;
  b03 <- sub_slice buf 0 4 ;;
  boxSize <- BigEndian_Uint32 b03 ;;
  b47 <- sub_slice buf 4 8 ;;
  ret (boxSize, string_of_list_byte b47).

(** The loop of [readBoxes]: [stop] is [start+n], [offset] and [l] are the
    loop variables. *)
Fixpoint readBoxes_loop (fuel : nat) (m : Mp4Reader.t) (stop offset : Z)
    (l : list Box.t) : M (list Box.t) :=
  if offset <? stop then
    match fuel with
    | O => timeout
    | S fuel' =>
        '(size, name) <- Mp4Reader_ReadBoxAt m offset ;;
        let b := Box.mk name size offset in
        readBoxes_loop fuel' m stop (add64 offset size) (l ++ [b])
    end
  else ret l.

Definition readBoxes (fuel : nat) (m : Mp4Reader.t) (start n : Z) : M (list Box.t) :=
  readBoxes_loop fuel m (add64 start n) start [].

(** [Box.ReadBoxData] *)
Definition Box_ReadBoxData (m : Mp4Reader.t) (b : Box.t) : M slice :=
  if Box.Size b <=? BoxHeaderSize then ret None
  else Mp4Reader_ReadBytesAt m (sub64 (Box.Size b) BoxHeaderSize)
                               (add64 (Box.Start b) BoxHeaderSize).

(** ** Decoders *)

(** [for _, box := range boxes { ... }], threading the struct being filled. *)
Fixpoint range_boxes {S : Type} (body : S -> Box.t -> M S)
    (boxes : list Box.t) (s : S) : M S :=
  match boxes with
  | [] => ret s
  | box :: rest => s' <- body s box ;; range_boxes body rest s'
  end.

(** [for i := 0; i < 3; i++ { b.Flags[i] = data[i+1] }] *)
Definition read_flags (data : slice) : M (list byte) :=
  f0 <- index data 1 ;;
  f1 <- index data 2 ;;
  f2 <- index data 3 ;;
  ret [f0; f1; f2].

(** [for i := uint32(1); i <= count; i++ { }]: the body is empty (its
    statements are commented out); the loop ends unless [count] is the
    largest [uint32], where [i <= count] never fails. *)
Definition count_loop (count : Z) : M unit :=
  if count =? uint32_max then timeout else ret tt.

(** [for i := 8; i < len(data); i += 4 { append(..., string(data[i:i+4])) }],
    on the bytes from index 8 on. *)
Fixpoint brands_loop (rest : list byte) (acc : list string) : M (list string) :=
  match rest with
  | [] => ret acc
  | b0 :: b1 :: b2 :: b3 :: rest' =>
      brands_loop rest' (acc ++ [string_of_list_byte [b0; b1; b2; b3]])
  | _ => panic SliceBoundsOutOfRange
  end.

Definition FtypBox_parse (m : Mp4Reader.t) (box : Box.t) : M FtypBox.t :=
  data <- Box_ReadBoxData m box ;;
  major <- sub_slice data 0 4 ;;
  b48 <- sub_slice data 4 8 ;;
  minor <- BigEndian_Uint32 b48 ;;
  brands <- (if 8 <? slice_len data
             then d8 <- slice_from data 8 ;; brands_loop d8 []
             else ret []) ;;
  ret (FtypBox.mk box (string_of_list_byte major) minor brands).

Definition MovieHeaderBox_parse (m : Mp4Reader.t) (box : Box.t) : M MovieHeaderBox.t :=
  data <- Box_ReadBoxData m box ;;
  version <- index data 0 ;;
  b <- sub_slice data 12 16 ;; timescale <- BigEndian_Uint32 b ;;
  b <- sub_slice data 16 20 ;; duration <- BigEndian_Uint32 b ;;
  b <- sub_slice data 20 24 ;; rate <- fixed32 b ;;
  b <- sub_slice data 24 26 ;; volume <- fixed16 b ;;
  ret (MovieHeaderBox.mk box version 0 0 0 timescale duration rate volume).

Definition TrackHeaderBox_parse (m : Mp4Reader.t) (box : Box.t) : M TrackHeaderBox.t :=
  data <- Box_ReadBoxData m box ;;
  version <- index data 0 ;;
  flags <- read_flags data ;;
  b <- sub_slice data 4 8 ;; creationTime <- BigEndian_Uint32 b ;;
  b <- sub_slice data 8 12 ;; modificationTime <- BigEndian_Uint32 b ;;
  b <- sub_slice data 12 16 ;; trackID <- BigEndian_Uint32 b ;;
  b <- sub_slice data 16 20 ;; reserved <- BigEndian_Uint32 b ;;
  b <- sub_slice data 20 24 ;; duration <- BigEndian_Uint32 b ;;
  b <- sub_slice data 32 34 ;; layer <- BigEndian_Uint16 b ;;
  b <- sub_slice data 34 36 ;; alternateGroup <- BigEndian_Uint16 b ;;
  b <- sub_slice data 36 38 ;; volume <- fixed16 b ;;
  b <- sub_slice data 76 80 ;; width <- fixed16 b ;;
  b <- sub_slice data 80 84 ;; height <- fixed16 b ;;
  ret (TrackHeaderBox.mk box version flags creationTime modificationTime
         trackID reserved duration layer alternateGroup volume width height).

Definition MediaHeaderBox_parse (m : Mp4Reader.t) (box : Box.t) : M MediaHeaderBox.t :=
  data <- Box_ReadBoxData m box ;;
  version <- index data 0 ;;
  flags <- read_flags data ;;
  b <- sub_slice data 4 8 ;; creationTime <- BigEndian_Uint32 b ;;
  b <- sub_slice data 8 12 ;; modificationTime <- BigEndian_Uint32 b ;;
  b <- sub_slice data 8 12 ;; timescale <- BigEndian_Uint32 b ;;
  b <- sub_slice data 12 16 ;; duration <- BigEndian_Uint32 b ;;
  b <- sub_slice data 19 21 ;; preDefined <- BigEndian_Uint16 b ;;
  ret (MediaHeaderBox.mk box version flags creationTime modificationTime
         timescale duration preDefined).

Definition HandlerBox_parse (m : Mp4Reader.t) (box : Box.t) : M HandlerBox.t :=
  data <- Box_ReadBoxData m box ;;
  version <- index data 0 ;;
  flags <- read_flags data ;;
  b <- sub_slice data 4 8 ;; preDefined <- BigEndian_Uint32 b ;;
  b <- sub_slice data 8 12 ;; handlerType <- BigEndian_Uint32 b ;;
  typeName <- sub_slice data 8 12 ;;
  ret (HandlerBox.mk box version flags preDefined handlerType
         (string_of_list_byte typeName)).

Definition SampleSizeBox_parse (m : Mp4Reader.t) (box : Box.t) : M SampleSizeBox.t :=
  data <- Box_ReadBoxData m box ;;
  version <- index data 0 ;;
  flags <- read_flags data ;;
  b <- sub_slice data 4 8 ;; sampleSize <- BigEndian_Uint32 b ;;
  b <- sub_slice data 8 12 ;; sampleCount <- BigEndian_Uint32 b ;;
  _ <- count_loop sampleCount ;;
  ret (SampleSizeBox.mk box version flags sampleSize sampleCount).

Definition SampleToChunkBox_parse (m : Mp4Reader.t) (box : Box.t) : M SampleToChunkBox.t :=
  data <- Box_ReadBoxData m box ;;
  version <- index data 0 ;;
  flags <- read_flags data ;;
  b <- sub_slice data 4 8 ;; entryCount <- BigEndian_Uint32 b ;;
  _ <- count_loop entryCount ;;
  ret (SampleToChunkBox.mk box version flags entryCount).

Definition ChunkOffsetBox_parse (m : Mp4Reader.t) (box : Box.t) : M ChunkOffsetBox.t :=
  data <- Box_ReadBoxData m box ;;
  version <- index data 0 ;;
  flags <- read_flags data ;;
  b <- sub_slice data 4 8 ;; entryCount <- BigEndian_Uint32 b ;;
  _ <- count_loop entryCount ;;
  ret (ChunkOffsetBox.mk box version flags entryCount).

Definition MediaDataBox_parse (m : Mp4Reader.t) (box : Box.t) : M MediaDataBox.t :=
  data <- Box_ReadBoxData m box ;;
  ret (MediaDataBox.mk box data).

(** The children of a container box [b]:
    [readBoxes(b.Reader, b.Start+BoxHeaderSize, b.Size-BoxHeaderSize)]. *)
Definition children (fuel : nat) (m : Mp4Reader.t) (b : Box.t) : M (list Box.t) :=
  readBoxes fuel m (add64 (Box.Start b) BoxHeaderSize)
                   (sub64 (Box.Size b) BoxHeaderSize).

Definition SampleTableBox_body (m : Mp4Reader.t)
    (b : SampleTableBox.t) (box : Box.t) : M SampleTableBox.t :=
  let '(SampleTableBox.mk bx stsz stsc stco) := b in
  if (Box.Name box =? "stsz")%string then
    x <- SampleSizeBox_parse m box ;; ret (SampleTableBox.mk bx (Some x) stsc stco)
  else if (Box.Name box =? "stsc")%string then
    x <- SampleToChunkBox_parse m box ;; ret (SampleTableBox.mk bx stsz (Some x) stco)
  else if (Box.Name box =? "stco")%string then
    x <- ChunkOffsetBox_parse m box ;; ret (SampleTableBox.mk bx stsz stsc (Some x))
  else ret b.

Definition SampleTableBox_parse (fuel : nat) (m : Mp4Reader.t) (box : Box.t)
    : M SampleTableBox.t :=
  boxes <- children fuel m box ;;
  range_boxes (SampleTableBox_body m) boxes (SampleTableBox.mk box None None None).

Definition MediaInformationBox_body (fuel : nat) (m : Mp4Reader.t)
    (b : MediaInformationBox.t) (box : Box.t) : M MediaInformationBox.t :=
  let '(MediaInformationBox.mk bx vmhd smhd hmhd stbl) := b in
  if (Box.Name box =? "vmhd")%string then
    ret (MediaInformationBox.mk bx (Some box) smhd hmhd stbl)
  else if (Box.Name box =? "smhd")%string then
    ret (MediaInformationBox.mk bx vmhd (Some box) hmhd stbl)
  else if (Box.Name box =? "hmhd")%string then
    ret (MediaInformationBox.mk bx vmhd smhd (Some box) stbl)
  else if (Box.Name box =? "stbl")%string then
    x <- SampleTableBox_parse fuel m box ;;
    ret (MediaInformationBox.mk bx vmhd smhd hmhd (Some x))
  else ret b.

Definition MediaInformationBox_parse (fuel : nat) (m : Mp4Reader.t) (box : Box.t)
    : M MediaInformationBox.t :=
  boxes <- children fuel m box ;;
  range_boxes (MediaInformationBox_body fuel m) boxes
              (MediaInformationBox.mk box None None None None).

Definition MediaBox_body (fuel : nat) (m : Mp4Reader.t)
    (b : MediaBox.t) (box : Box.t) : M MediaBox.t :=
  let '(MediaBox.mk bx mdhd hdlr minf) := b in
  if (Box.Name box =? "mdhd")%string then
    x <- MediaHeaderBox_parse m box ;; ret (MediaBox.mk bx (Some x) hdlr minf)
  else if (Box.Name box =? "hdlr")%string then
    x <- HandlerBox_parse m box ;; ret (MediaBox.mk bx mdhd (Some x) minf)
  else if (Box.Name box =? "minf")%string then
    x <- MediaInformationBox_parse fuel m box ;; ret (MediaBox.mk bx mdhd hdlr (Some x))
  else ret b.

Definition MediaBox_parse (fuel : nat) (m : Mp4Reader.t) (box : Box.t) : M MediaBox.t :=
  boxes <- children fuel m box ;;
  range_boxes (MediaBox_body fuel m) boxes (MediaBox.mk box None None None).

Definition TrackBox_body (fuel : nat) (m : Mp4Reader.t)
    (b : TrackBox.t) (box : Box.t) : M TrackBox.t :=
  let '(TrackBox.mk bx tkhd mdia) := b in
  if (Box.Name box =? "tkhd")%string then
    x <- TrackHeaderBox_parse m box ;; ret (TrackBox.mk bx (Some x) mdia)
  else if (Box.Name box =? "mdia")%string then
    x <- MediaBox_parse fuel m box ;; ret (TrackBox.mk bx tkhd (Some x))
  else ret b.

Definition TrackBox_parse (fuel : nat) (m : Mp4Reader.t) (box : Box.t) : M TrackBox.t :=
  boxes <- children fuel m box ;;
  range_boxes (TrackBox_body fuel m) boxes (TrackBox.mk box None None).

Definition parseTrack (fuel : nat) (m : Mp4Reader.t) (box : Box.t) : M TrackBox.t :=
  TrackBox_parse fuel m box.

(** [trak.Mdia.Hdlr.TypeName]: two pointer dereferences. *)
Definition track_TypeName (trak : TrackBox.t) : M string :=
  match TrackBox.Mdia trak with
  | None => panic NilPointerDereference
  | Some mdia =>
      match MediaBox.Hdlr mdia with
      | None => panic NilPointerDereference
      | Some hdlr => ret (HandlerBox.TypeName hdlr)
      end
  end.

Definition MovieBox_body (fuel : nat) (m : Mp4Reader.t)
    (b : MovieBox.t) (box : Box.t) : M MovieBox.t :=
  let '(MovieBox.mk bx mvhd trak0) := b in
  if (Box.Name box =? "mvhd")%string then
    x <- MovieHeaderBox_parse m box ;; ret (MovieBox.mk bx (Some x) trak0)
  else if (Box.Name box =? "trak")%string then
    trak <- parseTrack fuel m box ;;
    typeName <- track_TypeName trak ;;
    if (typeName =? "vide")%string
    then ret (MovieBox.mk bx mvhd (Some trak))
    else ret b
  else ret b.

Definition MovieBox_parse (fuel : nat) (m : Mp4Reader.t) (box : Box.t) : M MovieBox.t :=
  boxes <- children fuel m box ;;
  range_boxes (MovieBox_body fuel m) boxes (MovieBox.mk box None None).

(** ** The older program's movie box *)

(** [MoovContainer.parse] of the older program selects the track under a
    counter.  Its [MvhdBox.parse] and [TrackBox.parse] are parameters here:
    the first is the [MovieHeaderBox.parse] above, the second differs from
    the [TrackBox.parse] above in the boxes below [mdia] (no handler box is
    decoded, the table entries are printed). *)
Module MainGo.
Section MoovContainer.
Context {MvhdBox TrackBox : Type}.
Variable MvhdBox_parse : Mp4Reader.t -> Box.t -> M MvhdBox.
Variable TrackBox_parse : nat -> Mp4Reader.t -> Box.t -> M TrackBox.

Record MoovContainer : Type := mkMoov {
  box : Box.t;
  Mvhd : option MvhdBox;
  Trak : option TrackBox }.

(** The loop body; the state is the container and the local [count]. *)
Definition MoovContainer_body (fuel : nat) (m : Mp4Reader.t)
    (st : MoovContainer * Z) (bx : Box.t) : M (MoovContainer * Z) :=
  let '(b, count) := st in
  if (Box.Name bx =? "mvhd")%string then
    x <- MvhdBox_parse m bx ;; ret (mkMoov (box b) (Some x) (Trak b), count)
  else if (Box.Name bx =? "trak")%string then
    if count =? 0 then
      x <- TrackBox_parse fuel m bx ;;
      ret (mkMoov (box b) (Mvhd b) (Some x), add64 count 1)
    else ret st
  else ret st.

Definition MoovContainer_parse (fuel : nat) (m : Mp4Reader.t) (bx : Box.t)
    : M MoovContainer :=
  boxes <- children fuel m bx ;;
  st <- range_boxes (MoovContainer_body fuel m) boxes (mkMoov bx None None, 0) ;;
  ret (fst st).
End MoovContainer.
End MainGo.

(** ** The reader *)

(** A Go [error] value; [None] is [nil]. *)
Definition error : Type := option string.

Definition Parse_body (fuel : nat) (m : Mp4Reader.t) (box : Box.t) : M Mp4Reader.t :=
  let '(Mp4Reader.mk r ftyp moov mdat size) := m in
  if (Box.Name box =? "ftyp")%string then
    x <- FtypBox_parse m box ;; ret (Mp4Reader.mk r (Some x) moov mdat size)
  else if (Box.Name box =? "moov")%string then
    x <- MovieBox_parse fuel m box ;; ret (Mp4Reader.mk r ftyp (Some x) mdat size)
  else if (Box.Name box =? "mdat")%string then
    x <- MediaDataBox_parse m box ;; ret (Mp4Reader.mk r ftyp moov (Some x) size)
  else ret m.

(** What the operating system answers at the start of [Parse]: whether the
    reader is an [os.File] at all and, if it is, what [Stat] returns for
    it, an error or the size of the file. *)
Inductive stat_answer : Type :=
| NotOsFile
| StatError (err : string)
| StatSize (size : Z).

(** What [os.Open(path)] answers: an error, or a file with its bytes and
    with the answer [Stat] will give for it. *)
Inductive open_answer : Type :=
| OpenError (err : string)
| Opened (file : list byte) (stat : string + Z).

Definition set_Size (m : Mp4Reader.t) (size : Z) : Mp4Reader.t :=
  Mp4Reader.mk (Mp4Reader.Reader m) (Mp4Reader.Ftyp m) (Mp4Reader.Moov m)
    (Mp4Reader.Mdat m) size.

(** The second half of [Parse]: the scan of the top level, the loop over
    the boxes found, and [return nil]. *)
Definition Parse_boxes (fuel : nat) (m : Mp4Reader.t) : M (Mp4Reader.t * error) :=
  boxes <- readBoxes fuel m 0 (Mp4Reader.Size m) ;;
  m2 <- range_boxes (Parse_body fuel) boxes m ;;
  ret (m2, None).

(** [Mp4Reader.Parse], with the answer [st] of the operating system: the
    reader after the call, and the returned error.  With [Size] 0 on an
    [os.File] whose [Stat] fails, [Parse] returns the error at once; a
    reader that is no [os.File] keeps its [Size]. *)
Definition Mp4Reader_Parse_os (st : stat_answer) (fuel : nat) (m : Mp4Reader.t)
    : M (Mp4Reader.t * error) :=
  if Mp4Reader.Size m =? 0 then
    match st with
    | NotOsFile => Parse_boxes fuel m
    | StatError err => ret (m, Some err)
    | StatSize size => Parse_boxes fuel (set_Size m size)
    end
  else Parse_boxes fuel m.

(** [Mp4Reader.Parse] on a reader over a regular file: [Stat] succeeds and
    reports the number of bytes of the file. *)
Definition Mp4Reader_Parse (fuel : nat) (m : Mp4Reader.t) : M (Mp4Reader.t * error) :=
  Mp4Reader_Parse_os (StatSize (Z.of_nat (List.length (Mp4Reader.Reader m)))) fuel m.

(** [Open], with the answer of the operating system for [path].  The
    reader returned is nil when [os.Open] fails. *)
Definition Open_os (fuel : nat) (o : open_answer)
    : M (option Mp4Reader.t * error) :=
  match o with
  | OpenError err => ret (None, Some err)
  | Opened file stat =>
      '(f, err) <- Mp4Reader_Parse_os
                     (match stat with inl e => StatError e | inr n => StatSize n end)
                     fuel (Mp4Reader.mk file None None None 0) ;;
      ret (Some f, err)
  end.

(** [Open] on the path of a regular file with the bytes [file]: opening it
    succeeds, and so does [Stat]. *)
Definition Open (fuel : nat) (file : list byte) : M (Mp4Reader.t * error) :=
  Mp4Reader_Parse fuel (Mp4Reader.mk file None None None 0).

(** ** Extraction *)

Definition start_code : list byte := [x00; x00; x00; x01].

(** [extractVideoChunks]; its body ends with
    [// @todo Extract videChunks, build full video stream and convert in
    Annex-B format]. *)
Definition extractVideoChunks (mp4 : Mp4Reader.t) : M (list byte) :=
  match Mp4Reader.Mdat mp4 with
  | None => panic NilPointerDereference
  | Some mdat =>
      rest <- slice_from (MediaDataBox.Data mdat) 4 ;;
      ret (start_code ++ rest)
  end.

(** [p.f] through a pointer [p]. *)
Definition deref {A} (p : option A) : M A :=
  match p with
  | Some a => ret a
  | None => panic NilPointerDereference
  end.

(** The fields [main] prints, reached through the pointers dereferenced
    here, and the stream it hands to [writeVideoStreamInAnnexBFormat]. *)
Definition main_stream (mp4 : Mp4Reader.t) : M (list byte) :=
  _ <- deref (Mp4Reader.Ftyp mp4) ;;
  moov <- deref (Mp4Reader.Moov mp4) ;;
  _ <- deref (MovieBox.Mvhd moov) ;;
  trak <- deref (MovieBox.Trak moov) ;;
  _ <- deref (TrackBox.Tkhd trak) ;;
  mdia <- deref (TrackBox.Mdia trak) ;;
  _ <- deref (MediaBox.Hdlr mdia) ;;
  extractVideoChunks mp4.

(** [main], with the answer of the operating system for the input path, up
    to the bytes it hands to [writeVideoStreamInAnnexBFormat] ([None]: it
    returned before writing).  [defer mp4.Reader...Close()] dereferences
    [mp4] before the error is looked at. *)
Definition main_written_os (fuel : nat) (o : open_answer) : M (option (list byte)) :=
  '(f, err) <- Open_os fuel o ;;
  mp4 <- deref f ;;
  match err with
  | Some _ => ret None
  | None => videoStream <- main_stream mp4 ;; ret (Some videoStream)
  end.

(** [main] on the path of a regular file with the bytes [file], up to the
    bytes it hands to [writeVideoStreamInAnnexBFormat] ([None]: it returned
    before writing).  The fields it prints on the way are reached through
    the pointers dereferenced here. *)
Definition main_written (fuel : nat) (file : list byte) : M (option (list byte)) :=
  '(mp4, err) <- Open fuel file ;;
  match err with
  | Some _ => ret None
  | None =>
      _ <- deref (Mp4Reader.Ftyp mp4) ;;
      moov <- deref (Mp4Reader.Moov mp4) ;;
      _ <- deref (MovieBox.Mvhd moov) ;;
      trak <- deref (MovieBox.Trak moov) ;;
      _ <- deref (TrackBox.Tkhd trak) ;;
      mdia <- deref (TrackBox.Mdia trak) ;;
      _ <- deref (MediaBox.Hdlr mdia) ;;
      videoStream <- extractVideoChunks mp4 ;;
      ret (Some videoStream)
  end.

(** The rewriting of one sample as the specification words it: the sample is
    a concatenation of units, each behind a 4-byte big-endian length; every
    unit is emitted behind a start code, its length prefix dropped.  [None]
    is the failure [ShortSample]. *)
Fixpoint spec_annexb (fuel : nat) (sample : list byte) : option (list byte) :=
  match sample, fuel with
  | [], _ => Some []
  | _, O => None
  | l0 :: l1 :: l2 :: l3 :: rest, S fuel' =>
      let n := Z.to_nat (Z.lor (Z.lor (Z.lor (byte_val l3) (Z.shiftl (byte_val l2) 8))
                                      (Z.shiftl (byte_val l1) 16))
                               (Z.shiftl (byte_val l0) 24)) in
      if (n <=? List.length rest)%nat then
        option_map (fun out => start_code ++ firstn n rest ++ out)
                   (spec_annexb fuel' (skipn n rest))
      else None
  | _, _ => None
  end.

(** The sample list as the specification words it (section 4.3): chunks in
    index order, from chunk 1; a chunk has the sample count of the last
    sample-to-chunk entry whose first chunk is at most the chunk's index; a
    sample's offset is the chunk's base offset plus the sizes of the samples
    before it in the chunk; its size is the fixed size, or the table entry
    when the fixed size is 0.  A sample is (index, offset, length). *)
Definition spec_samples_per_chunk (stsc : list (Z * Z * Z)) (chunk : Z) : Z :=
  fold_left (fun acc e => let '(first, per_chunk, _) := e in
                          if first <=? chunk then per_chunk else acc)
            stsc 0.

Definition spec_sample_size (sample_size : Z) (sizes : list Z) (index : Z) : Z :=
  if sample_size =? 0 then nth (Z.to_nat index) sizes 0 else sample_size.

Fixpoint spec_chunk (sample_size : Z) (sizes : list Z) (count : nat)
    (index offset : Z) : list (Z * Z * Z) :=
  match count with
  | O => []
  | S count' =>
      let len := spec_sample_size sample_size sizes index in
      (index, offset, len)
      :: spec_chunk sample_size sizes count' (index + 1) (offset + len)
  end.

Fixpoint spec_chunks (sample_size : Z) (sizes : list Z) (stsc : list (Z * Z * Z))
    (offsets : list Z) (chunk index : Z) : list (Z * Z * Z) :=
  match offsets with
  | [] => []
  | base :: rest =>
      let count := spec_samples_per_chunk stsc chunk in
      spec_chunk sample_size sizes (Z.to_nat count) index base
      ++ spec_chunks sample_size sizes stsc rest (chunk + 1) (index + count)
  end.

Definition spec_sample_table (sample_size : Z) (sizes : list Z)
    (stsc : list (Z * Z * Z)) (offsets : list Z) : list (Z * Z * Z) :=
  spec_chunks sample_size sizes stsc offsets 1 0.

(** ** The older program *)

(** The older program has the scanner, [ReadBoxData], the file type, movie
    header, track header, media header and media data decoders of the newer
    one, and structs with the same fields ([MediaBox.Hdir], never assigned,
    is the field [Hdlr] here).  Its media box decodes no handler box, its
    three table decoders print every entry they count, its movie box is
    [MainGo.MoovContainer], and its [main] writes 12 bytes.  The functions
    shared with the newer program read nothing of the reader but its bytes;
    they receive them as [reader_view]. *)
Module Older.

Definition wrap32 (z : Z) : Z := z mod 2 ^ 32.

Definition MoovContainer : Type :=
  @MainGo.MoovContainer MovieHeaderBox.t TrackBox.t.

Record Mp4Reader : Type := mkReader {
  Reader : list byte;
  Ftyp : option FtypBox.t;
  Moov : option MoovContainer;
  Mdat : option MediaDataBox.t;
  Size : Z }.

Definition reader_view (file : list byte) : Mp4Reader.t :=
  Mp4Reader.mk file None None None 0.

(** [fmt.Println(..., binary.BigEndian.Uint32(data[lo:hi]))] with [uint32]
    bounds: the slice expression panics when [hi < lo] or [hi > cap]. *)
Definition print_word (data : slice) (lo hi : Z) : M unit :=
  if hi <? lo then panic SliceBoundsOutOfRange
  else b <- sub_slice data lo hi ;; _ <- BigEndian_Uint32 b ;; ret tt.

Fixpoint print_words (times : nat) (data : slice) (lo hi : Z) : M unit :=
  match times with
  | O => ret tt
  | S times' => _ <- print_word data lo hi ;; print_words times' data lo hi
  end.

(** The iterations of
    [for i := uint32(1); i <= count; i++ { ... data[4*(i+c):4*(i+c)+4] ... }]
    with [times] prints of the same word in the body: [k] iterations are
    left, [i] is the loop variable; the arithmetic is that of [uint32]. *)
Fixpoint entries_loop (times : nat) (c : Z) (data : slice) (k : nat) (i : Z)
    : M unit :=
  match k with
  | O => ret tt
  | S k' =>
      let lo := wrap32 (4 * wrap32 (i + c)) in
      let hi := wrap32 (lo + 4) in
      _ <- print_words times data lo hi ;;
      entries_loop times c data k' (wrap32 (i + 1))
  end.

(** The whole loop: after [count] iterations [i] has passed [count], unless
    [count] is the largest [uint32], where the loop goes on. *)
Definition print_entries (times : nat) (c : Z) (data : slice) (count : Z) : M unit :=
  _ <- entries_loop times c data (Z.to_nat count) 1 ;;
  if count =? uint32_max then timeout else ret tt.

Definition SampleSizeBox_parse (m : Mp4Reader.t) (box : Box.t) : M SampleSizeBox.t :=
  data <- Box_ReadBoxData m box ;;
  version <- index data 0 ;;
  flags <- read_flags data ;;
  b <- sub_slice data 4 8 ;; sampleSize <- BigEndian_Uint32 b ;;
  b <- sub_slice data 8 12 ;; sampleCount <- BigEndian_Uint32 b ;;
  _ <- print_entries 1 2 data sampleCount ;;
  ret (SampleSizeBox.mk box version flags sampleSize sampleCount).

Definition SampleToChunkBox_parse (m : Mp4Reader.t) (box : Box.t)
    : M SampleToChunkBox.t :=
  data <- Box_ReadBoxData m box ;;
  version <- index data 0 ;;
  flags <- read_flags data ;;
  b <- sub_slice data 4 8 ;; entryCount <- BigEndian_Uint32 b ;;
  _ <- print_entries 3 1 data entryCount ;;
  ret (SampleToChunkBox.mk box version flags entryCount).

(** The assignment of a fresh map to the global [globalMap], which nothing
    reads, is left out. *)
Definition ChunkOffsetBox_parse (m : Mp4Reader.t) (box : Box.t) : M ChunkOffsetBox.t :=
  data <- Box_ReadBoxData m box ;;
  version <- index data 0 ;;
  flags <- read_flags data ;;
  b <- sub_slice data 4 8 ;; entryCount <- BigEndian_Uint32 b ;;
  _ <- print_entries 1 1 data entryCount ;;
  ret (ChunkOffsetBox.mk box version flags entryCount).

Definition SampleTableBox_body (m : Mp4Reader.t)
    (b : SampleTableBox.t) (box : Box.t) : M SampleTableBox.t :=
  let '(SampleTableBox.mk bx stsz stsc stco) := b in
  if (Box.Name box =? "stsz")%string then
    x <- SampleSizeBox_parse m box ;; ret (SampleTableBox.mk bx (Some x) stsc stco)
  else if (Box.Name box =? "stsc")%string then
    x <- SampleToChunkBox_parse m box ;; ret (SampleTableBox.mk bx stsz (Some x) stco)
  else if (Box.Name box =? "stco")%string then
    x <- ChunkOffsetBox_parse m box ;; ret (SampleTableBox.mk bx stsz stsc (Some x))
  else ret b.

Definition SampleTableBox_parse (fuel : nat) (m : Mp4Reader.t) (box : Box.t)
    : M SampleTableBox.t :=
  boxes <- children fuel m box ;;
  range_boxes (SampleTableBox_body m) boxes (SampleTableBox.mk box None None None).

Definition MediaInformationBox_body (fuel : nat) (m : Mp4Reader.t)
    (b : MediaInformationBox.t) (box : Box.t) : M MediaInformationBox.t :=
  let '(MediaInformationBox.mk bx vmhd smhd hmhd stbl) := b in
  if (Box.Name box =? "vmhd")%string then
    ret (MediaInformationBox.mk bx (Some box) smhd hmhd stbl)
  else if (Box.Name box =? "smhd")%string then
    ret (MediaInformationBox.mk bx vmhd (Some box) hmhd stbl)
  else if (Box.Name box =? "hmhd")%string then
    ret (MediaInformationBox.mk bx vmhd smhd (Some box) stbl)
  else if (Box.Name box =? "stbl")%string then
    x <- SampleTableBox_parse fuel m box ;;
    ret (MediaInformationBox.mk bx vmhd smhd hmhd (Some x))
  else ret b.

Definition MediaInformationBox_parse (fuel : nat) (m : Mp4Reader.t) (box : Box.t)
    : M MediaInformationBox.t :=
  boxes <- children fuel m box ;;
  range_boxes (MediaInformationBox_body fuel m) boxes
              (MediaInformationBox.mk box None None None None).

Definition MediaBox_body (fuel : nat) (m : Mp4Reader.t)
    (b : MediaBox.t) (box : Box.t) : M MediaBox.t :=
  let '(MediaBox.mk bx mdhd hdir minf) := b in
  if (Box.Name box =? "mdhd")%string then
    x <- MediaHeaderBox_parse m box ;; ret (MediaBox.mk bx (Some x) hdir minf)
  else if (Box.Name box =? "minf")%string then
    x <- MediaInformationBox_parse fuel m box ;; ret (MediaBox.mk bx mdhd hdir (Some x))
  else ret b.

Definition MediaBox_parse (fuel : nat) (m : Mp4Reader.t) (box : Box.t) : M MediaBox.t :=
  boxes <- children fuel m box ;;
  range_boxes (MediaBox_body fuel m) boxes (MediaBox.mk box None None None).

Definition TrackBox_body (fuel : nat) (m : Mp4Reader.t)
    (b : TrackBox.t) (box : Box.t) : M TrackBox.t :=
  let '(TrackBox.mk bx tkhd mdia) := b in
  if (Box.Name box =? "tkhd")%string then
    x <- TrackHeaderBox_parse m box ;; ret (TrackBox.mk bx (Some x) mdia)
  else if (Box.Name box =? "mdia")%string then
    x <- MediaBox_parse fuel m box ;; ret (TrackBox.mk bx tkhd (Some x))
  else ret b.

Definition TrackBox_parse (fuel : nat) (m : Mp4Reader.t) (box : Box.t) : M TrackBox.t :=
  boxes <- children fuel m box ;;
  range_boxes (TrackBox_body fuel m) boxes (TrackBox.mk box None None).

Definition MoovContainer_parse (fuel : nat) (m : Mp4Reader.t) (box : Box.t)
    : M MoovContainer :=
  MainGo.MoovContainer_parse MovieHeaderBox_parse TrackBox_parse fuel m box.

Definition Parse_body (fuel : nat) (m : Mp4Reader) (box : Box.t) : M Mp4Reader :=
  let '(mkReader r ftyp moov mdat size) := m in
  if (Box.Name box =? "ftyp")%string then
    x <- FtypBox_parse (reader_view r) box ;; ret (mkReader r (Some x) moov mdat size)
  else if (Box.Name box =? "moov")%string then
    x <- MoovContainer_parse fuel (reader_view r) box ;;
    ret (mkReader r ftyp (Some x) mdat size)
  else if (Box.Name box =? "mdat")%string then
    x <- MediaDataBox_parse (reader_view r) box ;;
    ret (mkReader r ftyp moov (Some x) size)
  else ret m.

Definition Parse_boxes (fuel : nat) (m : Mp4Reader) : M (Mp4Reader * error) :=
  boxes <- readBoxes fuel (reader_view (Reader m)) 0 (Size m) ;;
  m2 <- range_boxes (Parse_body fuel) boxes m ;;
  ret (m2, None).

(** [Mp4Reader.Parse], with the answer [st] of the operating system. *)
Definition Parse_os (st : stat_answer) (fuel : nat) (m : Mp4Reader)
    : M (Mp4Reader * error) :=
  if Size m =? 0 then
    match st with
    | NotOsFile => Parse_boxes fuel m
    | StatError err => ret (m, Some err)
    | StatSize size =>
        Parse_boxes fuel (mkReader (Reader m) (Ftyp m) (Moov m) (Mdat m) size)
    end
  else Parse_boxes fuel m.

(** [Mp4Reader.Parse] on a reader over a regular file: [Stat] succeeds and
    reports the number of bytes of the file. *)
Definition Parse (fuel : nat) (m : Mp4Reader) : M (Mp4Reader * error) :=
  Parse_os (StatSize (Z.of_nat (List.length (Reader m)))) fuel m.

Definition Open (fuel : nat) (file : list byte) : M (Mp4Reader * error) :=
  Parse fuel (mkReader file None None None 0).

(** [main], up to the bytes it hands to [ioutil.WriteFile]: an error of
    [Open] is printed and [main] goes on; the fields it prints are reached
    through the pointers dereferenced here; [mp4.Mdat.Data[0:16]],
    [mp4.Mdat.Data[4:16]] and [mp4.Mdat.Data[4:]] are sliced on the way;
    20 bytes are read at offset 48 and printed. *)
Definition main_written (fuel : nat) (file : list byte) : M (list byte) :=
  '(mp4, err) <- Open fuel file ;;
  _ <- deref (Ftyp mp4) ;;
  moov <- deref (Moov mp4) ;;
  _ <- deref (MainGo.Mvhd moov) ;;
  trak <- deref (MainGo.Trak moov) ;;
  _ <- deref (TrackBox.Tkhd trak) ;;
  mdat <- deref (Mdat mp4) ;;
  _ <- sub_slice (MediaDataBox.Data mdat) 0 16 ;;
  _ <- sub_slice (MediaDataBox.Data mdat) 4 16 ;;
  _ <- slice_from (MediaDataBox.Data mdat) 4 ;;
  _ <- Mp4Reader_ReadBytesAt (reader_view (Reader mp4)) 20 48 ;;
  out <- sub_slice (MediaDataBox.Data mdat) 4 16 ;;
  ret out.

End Older.

(** ** Example containers *)

Definition byte_of_Z (z : Z) : byte :=
  match Byte.of_N (Z.to_N (z mod 256)) with Some b => b | None => x00 end.

Definition bytes_of (l : list Z) : list byte := map byte_of_Z l.

(** Big-endian encodings of a 32-bit and a 16-bit number. *)
Definition be32 (z : Z) : list byte :=
  bytes_of [z / 2 ^ 24; z / 2 ^ 16; z / 2 ^ 8; z].
Definition be16 (z : Z) : list byte := bytes_of [z / 2 ^ 8; z].

(** A box: 32-bit size (header included), four-character tag, payload. *)
Definition mkbox (name : string) (payload : list byte) : list byte :=
  be32 (8 + Z.of_nat (List.length payload)) ++ list_byte_of_string name ++ payload.

Definition reader_of (file : list byte) : Mp4Reader.t :=
  Mp4Reader.mk file None None None 0.

(** Two sibling boxes: ["free"] with a 2-byte payload, then an empty
    ["skip"]. *)
Definition two_boxes : list byte :=
  mkbox "free" (bytes_of [1; 2]) ++ mkbox "skip" [].

(** A ["free"] header declaring size 4, then an empty ["mdat"] box. *)
Definition size4_then_mdat : list byte :=
  bytes_of [0; 0; 0; 4] ++ list_byte_of_string "free" ++ mkbox "mdat" [].

(** A lone 8-byte ["free"] header declaring size 16. *)
Definition overrunning_box : list byte :=
  bytes_of [0; 0; 0; 16] ++ list_byte_of_string "free".

(** A ["mdat"] header with size field 1 and the 64-bit extended size 16 after
    it: 16 bytes in all. *)
Definition extended_size_box : list byte :=
  bytes_of [0; 0; 0; 1] ++ list_byte_of_string "mdat"
  ++ bytes_of [0; 0; 0; 0; 0; 0; 0; 16].

(** A lone ["mdat"] header with size field 0. *)
Definition zero_size_box : list byte :=
  bytes_of [0; 0; 0; 0] ++ list_byte_of_string "mdat".

(** *** Payloads of the typed boxes *)

Definition zeros (n : nat) : list byte := repeat x00 n.

(** [mvhd], version 0: version and flags, two times, timescale, duration,
    rate (16.16), volume (8.8), and the 70 bytes that follow. *)
Definition mvhd_payload (timescale duration rate volume : Z) : list byte :=
  zeros 12 ++ be32 timescale ++ be32 duration ++ be32 rate ++ be16 volume
  ++ zeros 70.

(** [tkhd], version 0: 76 bytes up to the matrix, then width and height as
    16.16 fields given by their four bytes. *)
Definition tkhd_payload (width height : list Z) : list byte :=
  zeros 12 ++ be32 1 ++ zeros 60 ++ bytes_of width ++ bytes_of height.

Definition mdhd_payload : list byte := zeros 24.

(** [hdlr]: version and flags, pre_defined, handler type, reserved, name. *)
Definition hdlr_payload (handler : string) : list byte :=
  zeros 8 ++ list_byte_of_string handler ++ zeros 13.

Definition stsz_payload (sample_size : Z) (sizes : list Z) : list byte :=
  zeros 4 ++ be32 sample_size ++ be32 (Z.of_nat (List.length sizes))
  ++ flat_map be32 sizes.

Definition stsc_payload (entries : list (Z * Z * Z)) : list byte :=
  zeros 4 ++ be32 (Z.of_nat (List.length entries))
  ++ flat_map (fun '(first, per_chunk, desc) =>
                 be32 first ++ be32 per_chunk ++ be32 desc) entries.

Definition stco_payload (offsets : list Z) : list byte :=
  zeros 4 ++ be32 (Z.of_nat (List.length offsets)) ++ flat_map be32 offsets.

Definition stbl_box (sample_size : Z) (sizes : list Z)
    (entries : list (Z * Z * Z)) (offsets : list Z) : list byte :=
  mkbox "stbl" (mkbox "stsz" (stsz_payload sample_size sizes)
                ++ mkbox "stsc" (stsc_payload entries)
                ++ mkbox "stco" (stco_payload offsets)).

(** A track with the given handler type and sample table. *)
Definition trak_box (handler : string) (stbl : list byte) : list byte :=
  mkbox "trak"
    (mkbox "tkhd" (tkhd_payload [1; 64; 0; 0] [0; 240; 0; 0])
     ++ mkbox "mdia"
          (mkbox "mdhd" mdhd_payload
           ++ mkbox "hdlr" (hdlr_payload handler)
           ++ mkbox "minf" (mkbox "vmhd" (zeros 12) ++ stbl))).

Definition ftyp_box : list byte :=
  mkbox "ftyp" (list_byte_of_string "isom" ++ be32 512
                ++ list_byte_of_string "isomiso2").

Definition mvhd_box : list byte :=
  mkbox "mvhd" (mvhd_payload 1000 3000 65536 256).

(** A NAL unit in container framing: 4-byte big-endian length, then the
    unit. *)
Definition length_prefixed (unit : list byte) : list byte :=
  be32 (Z.of_nat (List.length unit)) ++ unit.

(** The sample table of a reader's selected track. *)
Definition reader_Stbl (m : Mp4Reader.t) : option SampleTableBox.t :=
  match Mp4Reader.Moov m with
  | Some moov =>
      match MovieBox.Trak moov with
      | Some trak =>
          match TrackBox.Mdia trak with
          | Some mdia =>
              match MediaBox.Minf mdia with
              | Some minf => MediaInformationBox.Stbl minf
              | None => None
              end
          | None => None
          end
      | None => None
      end
  | None => None
  end.

(** The example of the sample tables: sizes 10, 20, 30; chunk 1 holds two
    samples and chunk 2 one; the chunks start at 1000 and 1030.  The movie
    is laid out so that the payload of [mdat] starts at offset 1000; every
    sample is one length-prefixed unit. *)
Definition example_sizes : list Z := [10; 20; 30].
Definition example_stsc : list (Z * Z * Z) := [(1, 2, 1); (2, 1, 1)].
Definition example_offsets : list Z := [1000; 1030].

Definition example_samples : list (list byte) :=
  [ length_prefixed (repeat x11 6);
    length_prefixed (repeat x22 16);
    length_prefixed (repeat x33 26) ].

(** A movie: [ftyp], [moov] with the given children, a [free] box that pads
    the file so that the payload of [mdat] starts at offset 1000, [mdat]. *)
Definition movie_of (moov_children mdat_payload : list byte) : list byte :=
  let head := ftyp_box ++ mkbox "moov" moov_children in
  head
  ++ mkbox "free" (zeros (1000 - 16 - List.length head))
  ++ mkbox "mdat" mdat_payload.

Definition movie_with (stbl : list byte) (mdat_payload : list byte) : list byte :=
  movie_of (mvhd_box ++ trak_box "vide" stbl) mdat_payload.

Definition example_movie : list byte :=
  movie_with (stbl_box 0 example_sizes example_stsc example_offsets)
             (List.concat example_samples).

(** A movie with the same table sizes and counts, whose first two samples
    have 20 and 10 bytes. *)
Definition example_movie' : list byte :=
  movie_with (stbl_box 0 [20; 10; 30] example_stsc example_offsets)
             (length_prefixed (repeat x11 16)
              ++ length_prefixed (repeat x22 6)
              ++ length_prefixed (repeat x33 26)).

(** One sample of 13 bytes holding two length-prefixed units, of 2 and of 3
    bytes, in a movie of its own. *)
Definition two_unit_sample : list byte :=
  length_prefixed [xaa; xbb] ++ length_prefixed [xcc; xdd; xee].

Definition two_unit_movie : list byte :=
  movie_with (stbl_box 0 [13] [(1, 1, 1)] [1000]) two_unit_sample.

(** One sample holding a single unit. *)
Definition one_unit_movie : list byte :=
  movie_with (stbl_box 0 [6] [(1, 1, 1)] [1000])
             (length_prefixed [xaa; xbb]).

Definition one_sample_stbl : list byte := stbl_box 0 [6] [(1, 1, 1)] [1000].

(** Two tracks; the first [trak] box starts at offset 136 and the second at
    offset 417. *)
Definition movie_of_two_tracks (handler1 handler2 : string) : list byte :=
  movie_of (mvhd_box ++ trak_box handler1 one_sample_stbl
            ++ trak_box handler2 one_sample_stbl)
           (length_prefixed [xaa; xbb]).


(** A movie whose [mvhd] has a 10-byte payload. *)
Definition movie_with_short_mvhd : list byte :=
  movie_of (mkbox "mvhd" (zeros 10) ++ trak_box "vide" one_sample_stbl)
           (length_prefixed [xaa; xbb]).

(** A [tkhd] box on its own, with the given width and height bytes. *)
Definition tkhd_reader (width height : list Z) : Mp4Reader.t :=
  reader_of (mkbox "tkhd" (tkhd_payload width height)).
Definition tkhd_at_0 : Box.t := Box.mk "tkhd" 92 0.

(** The start of the selected track's box. *)
Definition selected_track_start (m : Mp4Reader.t) : option Z :=
  match Mp4Reader.Moov m with
  | Some moov => option_map (fun t => Box.Start (TrackBox.box t)) (MovieBox.Trak moov)
  | None => None
  end.

(** ** Predicates of the statements *)

(** [scanned m stop offset l]: the boxes [l] are what the loop of [readBoxes]
    collects from [offset] on, one successful header read per box. *)
Inductive scanned (m : Mp4Reader.t) (stop : Z) : Z -> list Box.t -> Prop :=
| scanned_end offset :
    stop <= offset -> scanned m stop offset []
| scanned_box offset size name rest :
    offset < stop ->
    result (Mp4Reader_ReadBoxAt m offset) = Ok (size, name) ->
    scanned m stop (add64 offset size) rest ->
    scanned m stop offset (Box.mk name size offset :: rest).

(** The first box starts at [start]; each next box starts at the previous
    box's [Start] plus its [Size]. *)
Fixpoint chained (start : Z) (l : list Box.t) : Prop :=
  match l with
  | [] => True
  | b :: rest => Box.Start b = start /\ chained (Box.Start b + Box.Size b) rest
  end.

(** The header of [b] is the one the reader decodes at [b]'s [Start]. *)
Definition as_declared (m : Mp4Reader.t) (b : Box.t) : Prop :=
  result (Mp4Reader_ReadBoxAt m (Box.Start b)) = Ok (Box.Size b, Box.Name b).

(** The single read a scan performs for the box [b]. *)
Definition header_read (b : Box.t) : read_event := ReadEv (Box.Start b) 8.

(** [walk m stop offset l offset']: following the declared sizes from
    [offset], the scan meets the headers [l], each at a position below
    [stop] where a header can be read, and arrives at [offset'].  The sizes
    are under no condition. *)
Inductive walk (m : Mp4Reader.t) (stop : Z) : Z -> list Box.t -> Z -> Prop :=
| walk_here offset : walk m stop offset [] offset
| walk_box offset size name rest offset' :
    offset < stop ->
    result (Mp4Reader_ReadBoxAt m offset) = Ok (size, name) ->
    walk m stop (add64 offset size) rest offset' ->
    walk m stop offset (Box.mk name size offset :: rest) offset'.

(** The file does not hold 8 bytes at [offset]. *)
Definition no_header_at (m : Mp4Reader.t) (offset : Z) : Prop :=
  offset < 0 \/ Z.of_nat (List.length (Mp4Reader.Reader m)) < offset + 8.




(** Two media data boxes, of five payload bytes each. *)
Definition two_mdat_file : list byte :=
  mkbox "mdat" (bytes_of [1; 2; 3; 4; 5]) ++ mkbox "mdat" (bytes_of [9; 9; 9; 9; 7]).

(** A movie box at offset 0 with two tracks that hold a handler box only;
    the [trak] boxes start at the offsets 8 and 57. *)
Definition small_trak (handler : string) : list byte :=
  mkbox "trak" (mkbox "mdia" (mkbox "hdlr" (hdlr_payload handler))).

Definition two_small_tracks (handler1 handler2 : string) : list byte :=
  mkbox "moov" (small_trak handler1 ++ small_trak handler2).

(** ** Well-formed box sequences *)

(** A sequence of sibling boxes, each given by its tag and payload, as
    bytes, and the headers such a sequence holds when it starts at offset
    [start]. *)
Definition boxes_bytes (items : list (string * list byte)) : list byte :=
  flat_map (fun it => mkbox (fst it) (snd it)) items.

Fixpoint headers_of (start : Z) (items : list (string * list byte)) : list Box.t :=
  match items with
  | [] => []
  | it :: rest =>
      let size := 8 + Z.of_nat (List.length (snd it)) in
      Box.mk (fst it) size start :: headers_of (start + size) rest
  end.

(** A tag of four characters and a size that fits the 32-bit size field. *)
Definition well_formed_item (it : string * list byte) : Prop :=
  String.length (fst it) = 4%nat /\ 8 + Z.of_nat (List.length (snd it)) < 2 ^ 32.

(** The big-endian value of four bytes. *)
Definition be_value (b0 b1 b2 b3 : byte) : Z :=
  byte_val b0 * 2 ^ 24 + byte_val b1 * 2 ^ 16 + byte_val b2 * 2 ^ 8 + byte_val b3.

(** ** Payload layouts *)

(** The bytes of a slice ([nil] has none), the byte at an index, and the
    big-endian 32-bit and 16-bit numbers that start at an index. *)
Definition slice_bytes (s : slice) : list byte :=
  match s with None => [] | Some l => l end.

Definition byte_at (l : list byte) (i : nat) : byte := nth i l x00.

Definition u32_at (l : list byte) (i : nat) : Z :=
  be_value (byte_at l i) (byte_at l (i + 1)) (byte_at l (i + 2)) (byte_at l (i + 3)).

Definition u16_at (l : list byte) (i : nat) : Z :=
  byte_val (byte_at l i) * 2 ^ 8 + byte_val (byte_at l (i + 1)).

(** The three flag bytes after the version byte. *)
Definition flags_of (l : list byte) : list byte :=
  [byte_at l 1; byte_at l 2; byte_at l 3].

(** The payload of an [ftyp] box. *)
Definition ftyp_payload (major : string) (minor : Z) (brands : list string)
    : list byte :=
  list_byte_of_string major ++ be32 minor ++ flat_map list_byte_of_string brands.

(** The strings of the successive groups of four bytes. *)
Fixpoint brand_chunks (l : list byte) : list string :=
  match l with
  | b0 :: b1 :: b2 :: b3 :: rest =>
      string_of_list_byte [b0; b1; b2; b3] :: brand_chunks rest
  | _ => []
  end.

(** ** Tags *)

(** Whether the tag of a box is one of [tags]. *)
Definition tag_in (tags : list string) (b : Box.t) : bool :=
  existsb (String.eqb (Box.Name b)) tags.

(** ** The monad *)

Lemma bind_Ok {A B} (a : A) (t : list read_event) (f : A -> M B) :
  bind (Ok a, t) f = (fst (f a), t ++ snd (f a)).
Proof. unfold bind. destruct (f a); reflexivity. Qed.

Lemma bind_ret_l {A B} (a : A) (f : A -> M B) : bind (ret a) f = f a.
Proof. unfold ret. rewrite bind_Ok. destruct (f a); reflexivity. Qed.

Lemma bind_ret_r {A} (c : M A) : bind c ret = c.
Proof.
  destruct c as [[a| |] t]; cbn; try reflexivity.
  now rewrite app_nil_r.
Qed.

Lemma bind_assoc {A B C} (c : M A) (f : A -> M B) (g : B -> M C) :
  bind (bind c f) g = bind c (fun a => bind (f a) g).
Proof.
  destruct c as [[a| |] t]; cbn; try reflexivity.
  destruct (f a) as [[b| |] t1]; cbn; try reflexivity.
  destruct (g b) as [r t2]. now rewrite app_assoc.
Qed.

Lemma bind_inv_Ok {A B} (c : M A) (f : A -> M B) (b : B) (t : list read_event) :
  bind c f = (Ok b, t) ->
  exists a t1 t2, c = (Ok a, t1) /\ f a = (Ok b, t2) /\ t = t1 ++ t2.
Proof.
  destruct c as [[a| |] t1]; cbn; try discriminate.
  destruct (f a) as [r t2] eqn:E. intros H. inversion H; subst.
  now exists a, t1, t2.
Qed.

Lemma result_bind {A B} (c : M A) (f : A -> M B) :
  result (bind c f) =
  match result c with
  | Ok a => result (f a)
  | Panic k => Panic k
  | Timeout => Timeout
  end.
Proof.
  destruct c as [[a| |] t]; cbn; try reflexivity.
  destruct (f a); reflexivity.
Qed.

Lemma result_bind_Ok {A B} (a : A) (t : list read_event) (f : A -> M B) :
  result (bind (Ok a, t) f) = result (f a).
Proof. rewrite result_bind. reflexivity. Qed.

(** ** Machine integers *)

Lemma wrap64_range (z : Z) : int64_range (wrap64 z).
Proof.
  unfold int64_range, wrap64.
  pose proof (Z.mod_pos_bound (z + 2 ^ 63) (2 ^ 64) ltac:(lia)). lia.
Qed.

Lemma wrap64_id (z : Z) : int64_range z -> wrap64 z = z.
Proof.
  unfold int64_range, wrap64. intros H.
  rewrite Z.mod_small by lia. lia.
Qed.

Lemma wrap64_overflow (z : Z) : 2 ^ 63 <= z < 2 ^ 63 + 2 ^ 64 -> wrap64 z = z - 2 ^ 64.
Proof.
  unfold wrap64. intros H.
  replace (z + 2 ^ 63) with ((z + 2 ^ 63 - 2 ^ 64) + 1 * 2 ^ 64) by lia.
  rewrite Z.mod_add by lia. rewrite Z.mod_small by lia. lia.
Qed.

Lemma byte_val_range (b : byte) : 0 <= byte_val b < 256.
Proof.
  unfold byte_val. pose proof (Byte.to_N_bounded b). lia.
Qed.

Lemma lor_below (a b n : Z) :
  0 <= n -> 0 <= a < 2 ^ n -> 0 <= b < 2 ^ n -> 0 <= Z.lor a b < 2 ^ n.
Proof.
  intros Hn Ha Hb. split.
  - apply Z.lor_nonneg. lia.
  - destruct (Z.eq_dec (Z.lor a b) 0) as [E|E].
    + rewrite E. apply Z.pow_pos_nonneg; lia.
    + assert (0 <= Z.lor a b) by (apply Z.lor_nonneg; lia).
      apply Z.log2_lt_pow2; [lia|].
      rewrite Z.log2_lor by lia.
      destruct (Z.eq_dec a 0) as [->|Ha0]; destruct (Z.eq_dec b 0) as [->|Hb0].
      * cbn in E. congruence.
      * rewrite Z.max_r by (cbn; apply Z.log2_nonneg).
        apply Z.log2_lt_pow2; lia.
      * rewrite Z.max_l by (cbn; apply Z.log2_nonneg).
        apply Z.log2_lt_pow2; lia.
      * apply Z.max_lub_lt; apply Z.log2_lt_pow2; lia.
Qed.

Lemma shiftl_below (a k n : Z) :
  0 <= k -> 0 <= a < 2 ^ (n - k) -> k <= n -> 0 <= Z.shiftl a k < 2 ^ n.
Proof.
  intros Hk Ha Hkn. rewrite Z.shiftl_mul_pow2 by lia.
  replace (2 ^ n) with (2 ^ (n - k) * 2 ^ k)
    by (rewrite <- Z.pow_add_r by lia; f_equal; lia).
  assert (0 < 2 ^ k) by (apply Z.pow_pos_nonneg; lia). nia.
Qed.

Lemma Uint32_range (b0 b1 b2 b3 : byte) :
  0 <= Z.lor (Z.lor (Z.lor (byte_val b3) (Z.shiftl (byte_val b2) 8))
                    (Z.shiftl (byte_val b1) 16))
             (Z.shiftl (byte_val b0) 24) < 2 ^ 32.
Proof.
  pose proof (byte_val_range b0). pose proof (byte_val_range b1).
  pose proof (byte_val_range b2). pose proof (byte_val_range b3).
  repeat apply lor_below; try lia;
    try (apply shiftl_below; cbn; lia).
Qed.

(** ** Reading a header *)

Lemma ReadAt_Some (file : list byte) (n off : Z) (buf : list byte) :
  ReadAt file n off = Some buf ->
  0 <= off /\ Z.of_nat (List.length buf) = n /\
  (0 < n -> off + n <= Z.of_nat (List.length file)).
Proof.
  unfold ReadAt. destruct (off <? 0) eqn:Hoff; [discriminate|].
  apply Z.ltb_ge in Hoff.
  destruct (Z.of_nat _ =? n) eqn:Hlen; [|discriminate].
  apply Z.eqb_eq in Hlen. intros H. inversion H; subst buf. clear H.
  repeat split; try assumption.
  intros Hn. rewrite length_firstn, length_skipn in Hlen. lia.
Qed.

Lemma length8 {A} (l : list A) :
  Z.of_nat (List.length l) = 8 ->
  exists a0 a1 a2 a3 a4 a5 a6 a7, l = [a0; a1; a2; a3; a4; a5; a6; a7].
Proof.
  intros H.
  do 8 (destruct l as [|? l]; [cbn in H; lia|]).
  destruct l; [|cbn in H; lia].
  repeat eexists.
Qed.

(** The decoded header, as a function of the 8 bytes read. *)
Lemma ReadBoxAt_spec (m : Mp4Reader.t) (offset : Z) :
  Mp4Reader_ReadBoxAt m offset =
  (match ReadAt (Mp4Reader.Reader m) 8 offset with
   | Some (b0 :: b1 :: b2 :: b3 :: b4 :: b5 :: b6 :: b7 :: _) =>
       Ok (Z.lor (Z.lor (Z.lor (byte_val b3) (Z.shiftl (byte_val b2) 8))
                        (Z.shiftl (byte_val b1) 16))
                 (Z.shiftl (byte_val b0) 24),
           string_of_list_byte [b4; b5; b6; b7])
   | _ => Panic SliceBoundsOutOfRange
   end, [ReadEv offset 8]).
Proof.
  unfold Mp4Reader_ReadBoxAt, Mp4Reader_ReadBytesAt, BoxHeaderSize.
  change ((8 <? 0) || (maxAlloc <? 8)) with false. cbv iota. rewrite bind_Ok.
  destruct (ReadAt (Mp4Reader.Reader m) 8 offset) as [buf|] eqn:E.
  - apply ReadAt_Some in E. destruct E as (_ & Hlen & _).
    destruct (length8 buf Hlen) as (b0 & b1 & b2 & b3 & b4 & b5 & b6 & b7 & ->).
    reflexivity.
  - reflexivity.
Qed.

Lemma ReadBoxAt_reads (m : Mp4Reader.t) (offset : Z) :
  reads (Mp4Reader_ReadBoxAt m offset) = [ReadEv offset 8].
Proof. rewrite ReadBoxAt_spec. reflexivity. Qed.

Lemma ReadBoxAt_cases (m : Mp4Reader.t) (offset : Z) :
  (exists size name,
      Mp4Reader_ReadBoxAt m offset = (Ok (size, name), [ReadEv offset 8]) /\
      0 <= size < 2 ^ 32 /\ 0 <= offset /\
      offset + 8 <= Z.of_nat (List.length (Mp4Reader.Reader m))) \/
  Mp4Reader_ReadBoxAt m offset = (Panic SliceBoundsOutOfRange, [ReadEv offset 8]).
Proof.
  rewrite ReadBoxAt_spec.
  destruct (ReadAt (Mp4Reader.Reader m) 8 offset) as [buf|] eqn:E; [|now right].
  apply ReadAt_Some in E. destruct E as (Hoff & Hlen & Hend).
  destruct (length8 buf Hlen) as (b0 & b1 & b2 & b3 & b4 & b5 & b6 & b7 & ->).
  left. do 2 eexists. split; [reflexivity|].
  split; [apply Uint32_range|]. split; [assumption|apply Hend; lia].
Qed.

Lemma ReadBoxAt_negative (m : Mp4Reader.t) (offset : Z) :
  offset < 0 ->
  Mp4Reader_ReadBoxAt m offset = (Panic SliceBoundsOutOfRange, [ReadEv offset 8]).
Proof.
  intros H. destruct (ReadBoxAt_cases m offset) as [(s & n & _ & _ & H0 & _)|E];
    [lia|exact E].
Qed.

(** The header read depends on the reader through its bytes only. *)
Lemma ReadBoxAt_ext (m1 m2 : Mp4Reader.t) (offset : Z) :
  Mp4Reader.Reader m1 = Mp4Reader.Reader m2 ->
  Mp4Reader_ReadBoxAt m1 offset = Mp4Reader_ReadBoxAt m2 offset.
Proof. intros E. rewrite !ReadBoxAt_spec, E. reflexivity. Qed.

(** ** The scan loop *)

(** The loop with an accumulator is the loop from the empty list, with the
    accumulator in front. *)
Lemma readBoxes_loop_acc (fuel : nat) (m : Mp4Reader.t) (stop : Z) :
  forall (offset : Z) (l : list Box.t),
    readBoxes_loop fuel m stop offset l =
    (rest <- readBoxes_loop fuel m stop offset [] ;; ret (l ++ rest)).
Proof.
  induction fuel as [|fuel IH]; intros offset l; cbn [readBoxes_loop].
  - destruct (offset <? stop); [reflexivity|].
    rewrite bind_ret_l, app_nil_r. reflexivity.
  - destruct (offset <? stop).
    + rewrite bind_assoc.
      destruct (Mp4Reader_ReadBoxAt m offset) as [[[size name]| |] t];
        try reflexivity.
      rewrite !bind_Ok. cbn [fst snd].
      rewrite (IH _ (l ++ _)), (IH _ ([] ++ _)).
      rewrite bind_assoc.
      destruct (readBoxes_loop fuel m stop (add64 offset size) [])
        as [[rest| |] t']; try reflexivity.
      rewrite !bind_Ok, !bind_ret_l. cbn [fst snd ret].
      rewrite <- !app_assoc. reflexivity.
    + rewrite bind_ret_l, app_nil_r. reflexivity.
Qed.

(** One iteration, in the form used by the proofs below. *)
Lemma readBoxes_loop_step (fuel : nat) (m : Mp4Reader.t) (stop offset : Z) :
  offset < stop ->
  readBoxes_loop (S fuel) m stop offset [] =
  ('(size, name) <- Mp4Reader_ReadBoxAt m offset ;;
   rest <- readBoxes_loop fuel m stop (add64 offset size) [] ;;
   ret (Box.mk name size offset :: rest)).
Proof.
  intros H. cbn [readBoxes_loop].
  apply Z.ltb_lt in H. rewrite H.
  destruct (Mp4Reader_ReadBoxAt m offset) as [[[size name]| |] t];
    try reflexivity.
  rewrite !bind_Ok. now rewrite readBoxes_loop_acc.
Qed.

Lemma readBoxes_loop_stop (fuel : nat) (m : Mp4Reader.t) (stop offset : Z)
    (l : list Box.t) :
  stop <= offset -> readBoxes_loop fuel m stop offset l = ret l.
Proof.
  intros H. apply Z.ltb_ge in H.
  destruct fuel; cbn [readBoxes_loop]; now rewrite H.
Qed.

(** A scan that returns has collected a [scanned] list, with one 8-byte read
    per box and no other read. *)
Lemma readBoxes_loop_scanned (m : Mp4Reader.t) (stop : Z) (fuel : nat) :
  forall (offset : Z) (l : list Box.t) (t : list read_event),
    readBoxes_loop fuel m stop offset [] = (Ok l, t) ->
    scanned m stop offset l /\ t = map header_read l.
Proof.
  induction fuel as [|fuel IH]; intros offset l t H.
  - cbn [readBoxes_loop] in H. destruct (offset <? stop) eqn:E; [discriminate|].
    inversion H; subst. split; [|reflexivity].
    constructor. now apply Z.ltb_ge.
  - destruct (Z.lt_ge_cases offset stop) as [Hlt|Hge].
    + rewrite readBoxes_loop_step in H by assumption.
      apply bind_inv_Ok in H. destruct H as ([size name] & t1 & t2 & Hrd & H & ->).
      apply bind_inv_Ok in H. destruct H as (rest & t3 & t4 & Hrec & H & ->).
      inversion H; subst. clear H.
      apply IH in Hrec. destruct Hrec as [Hsc ->].
      pose proof (ReadBoxAt_reads m offset) as Hr. rewrite Hrd in Hr.
      cbn in Hr. subst t1.
      split.
      * constructor; [assumption| now rewrite Hrd |assumption].
      * cbn. now rewrite app_nil_r.
    + rewrite readBoxes_loop_stop in H by assumption.
      inversion H; subst. split; [|reflexivity]. now constructor.
Qed.

Lemma scanned_as_declared (m : Mp4Reader.t) (stop offset : Z) (l : list Box.t) :
  scanned m stop offset l ->
  Forall (fun b => as_declared m b /\ 0 <= Box.Size b < 2 ^ 32) l.
Proof.
  induction 1 as [|offset size name rest Hlt Hrd Hsc IH]; constructor;
    [|assumption].
  split; [exact Hrd|]. cbn.
  destruct (ReadBoxAt_cases m offset) as [(s & n & E & Hs & _)|E];
    unfold result in Hrd; rewrite E in Hrd; cbn in Hrd; [|discriminate].
  inversion Hrd; subst. assumption.
Qed.

Lemma scanned_head_nonneg (m : Mp4Reader.t) (stop offset : Z) (b : Box.t)
    (rest : list Box.t) :
  scanned m stop offset (b :: rest) ->
  Box.Start b = offset /\ 0 <= offset < stop /\ 0 <= Box.Size b < 2 ^ 32.
Proof.
  intros H. inversion H as [|o size name r Hlt Hrd Hsc]; subst. cbn.
  destruct (ReadBoxAt_cases m offset) as [(s & n & E & Hs & Ho & _)|E];
    unfold result in Hrd; rewrite E in Hrd; cbn in Hrd; [|discriminate].
  inversion Hrd; subst. repeat split; lia.
Qed.

Lemma scanned_chained (m : Mp4Reader.t) (stop offset : Z) (l : list Box.t) :
  scanned m stop offset l -> int64_range offset -> chained offset l.
Proof.
  induction 1 as [|offset size name rest Hlt Hrd Hsc IH]; intros Hrange.
  - exact I.
  - cbn. split; [reflexivity|].
    destruct rest as [|b' rest']; [exact I|].
    pose proof (scanned_head_nonneg _ _ _ _ _ Hsc) as (Hb' & Hnext & _).
    assert (Hhd : 0 <= offset /\ 0 <= size < 2 ^ 32).
    { destruct (ReadBoxAt_cases m offset) as [(s & n & E & Hs & Ho & _)|E];
        unfold result in Hrd; rewrite E in Hrd; cbn in Hrd; [|discriminate].
      inversion Hrd; subst. lia. }
    assert (Hadd : add64 offset size = offset + size).
    { unfold add64.
      destruct (Z_lt_ge_dec (offset + size) (2 ^ 63)) as [Hsmall|Hbig].
      - apply wrap64_id. unfold int64_range in *. lia.
      - unfold add64 in Hnext. rewrite wrap64_overflow in Hnext;
          unfold int64_range in *; lia. }
    rewrite <- Hadd. apply IH. apply wrap64_range.
Qed.

(** More fuel does not change the outcome of a finished scan. *)
Lemma readBoxes_loop_fuel_mono (m : Mp4Reader.t) (stop : Z) (fuel : nat) :
  forall (fuel' : nat) (offset : Z),
    (fuel <= fuel')%nat ->
    result (readBoxes_loop fuel m stop offset []) <> Timeout ->
    readBoxes_loop fuel' m stop offset [] = readBoxes_loop fuel m stop offset [].
Proof.
  induction fuel as [|fuel IH]; intros fuel' offset Hle Hfin.
  - destruct (Z.lt_ge_cases offset stop) as [Hlt|Hge].
    + exfalso. apply Hfin. cbn [readBoxes_loop].
      apply Z.ltb_lt in Hlt. now rewrite Hlt.
    + now rewrite !readBoxes_loop_stop by assumption.
  - destruct (Z.lt_ge_cases offset stop) as [Hlt|Hge].
    + destruct fuel' as [|fuel']; [lia|].
      rewrite (readBoxes_loop_step fuel'), (readBoxes_loop_step fuel)
        by assumption.
      rewrite (readBoxes_loop_step fuel) in Hfin by assumption.
      destruct (Mp4Reader_ReadBoxAt m offset) as [[[size name]| |] t];
        try reflexivity.
      rewrite result_bind_Ok, result_bind in Hfin.
      rewrite !bind_Ok.
      rewrite (IH fuel' (add64 offset size)); [reflexivity|lia|].
      intros E. apply Hfin. rewrite E. reflexivity.
    + now rewrite !readBoxes_loop_stop by assumption.
Qed.

(** The scan consults nothing of the reader but its bytes. *)
Lemma readBoxes_loop_ext (m1 m2 : Mp4Reader.t) (stop : Z) (fuel : nat) :
  Mp4Reader.Reader m1 = Mp4Reader.Reader m2 ->
  forall (offset : Z) (l : list Box.t),
    readBoxes_loop fuel m1 stop offset l = readBoxes_loop fuel m2 stop offset l.
Proof.
  intros E. induction fuel as [|fuel IH]; intros offset l; cbn [readBoxes_loop].
  - reflexivity.
  - destruct (offset <? stop); [|reflexivity].
    rewrite (ReadBoxAt_ext m1 m2 offset E).
    destruct (Mp4Reader_ReadBoxAt m2 offset) as [[[size name]| |] t];
      try reflexivity.
    rewrite !bind_Ok. now rewrite IH.
Qed.

(** The only panic of a scan is the slicing of a header that was not read. *)
Lemma readBoxes_loop_panic (m : Mp4Reader.t) (stop : Z) (fuel : nat) :
  forall (offset : Z) (k : panic_kind),
    result (readBoxes_loop fuel m stop offset []) = Panic k ->
    k = SliceBoundsOutOfRange.
Proof.
  induction fuel as [|fuel IH]; intros offset k H.
  - cbn [readBoxes_loop] in H. destruct (offset <? stop); discriminate.
  - destruct (Z.lt_ge_cases offset stop) as [Hlt|Hge].
    + rewrite readBoxes_loop_step in H by assumption.
      destruct (ReadBoxAt_cases m offset) as [(s & n & E & _)|E];
        rewrite E in H.
      * rewrite result_bind_Ok, result_bind in H.
        destruct (result (readBoxes_loop fuel m stop (add64 offset s) []))
          eqn:Hrec; try discriminate.
        apply IH in Hrec. cbn in H. congruence.
      * cbn in H. congruence.
    + rewrite readBoxes_loop_stop in H by assumption. discriminate.
Qed.

(** A header of size 0 leaves [offset] where it is: the loop never ends. *)
Lemma readBoxes_loop_zero_size (m : Mp4Reader.t) (stop offset : Z) (name : string) :
  int64_range offset ->
  offset < stop ->
  result (Mp4Reader_ReadBoxAt m offset) = Ok (0, name) ->
  forall fuel, result (readBoxes_loop fuel m stop offset []) = Timeout.
Proof.
  intros Hrange Hlt Hrd fuel. induction fuel as [|fuel IH].
  - cbn [readBoxes_loop]. apply Z.ltb_lt in Hlt. now rewrite Hlt.
  - rewrite readBoxes_loop_step by assumption.
    destruct (ReadBoxAt_cases m offset) as [(s & n & E & _)|E];
      rewrite E in Hrd; cbn in Hrd; [|discriminate].
    inversion Hrd; subst. rewrite E, result_bind_Ok, result_bind.
    unfold add64. rewrite Z.add_0_r, wrap64_id by assumption.
    rewrite IH. reflexivity.
Qed.

(** ** Following the declared sizes *)

Lemma ReadBoxAt_full (m : Mp4Reader.t) (offset : Z) (x : Z * string) :
  result (Mp4Reader_ReadBoxAt m offset) = Ok x ->
  Mp4Reader_ReadBoxAt m offset = (Ok x, [ReadEv offset 8]).
Proof.
  intros H. pose proof (ReadBoxAt_reads m offset) as Hr.
  destruct (Mp4Reader_ReadBoxAt m offset) as [r t]. cbn in H, Hr. now subst.
Qed.

(** A header is read wherever the file holds 8 bytes. *)
Lemma ReadBoxAt_readable (m : Mp4Reader.t) (offset : Z) :
  0 <= offset ->
  offset + 8 <= Z.of_nat (List.length (Mp4Reader.Reader m)) ->
  exists size name,
    Mp4Reader_ReadBoxAt m offset = (Ok (size, name), [ReadEv offset 8]).
Proof.
  intros H0 H8. rewrite ReadBoxAt_spec. unfold ReadAt.
  assert (E : (offset <? 0) = false) by (apply Z.ltb_ge; lia).
  rewrite E.
  set (buf := firstn (Z.to_nat 8) (skipn (Z.to_nat offset) (Mp4Reader.Reader m))).
  assert (Hlen : Z.of_nat (List.length buf) = 8)
    by (subst buf; rewrite length_firstn, length_skipn; lia).
  apply Z.eqb_eq in Hlen as Hlen'. rewrite Hlen'.
  destruct (length8 buf Hlen) as (b0 & b1 & b2 & b3 & b4 & b5 & b6 & b7 & ->).
  do 2 eexists. reflexivity.
Qed.

Lemma ReadBoxAt_no_header (m : Mp4Reader.t) (offset : Z) :
  no_header_at m offset ->
  Mp4Reader_ReadBoxAt m offset = (Panic SliceBoundsOutOfRange, [ReadEv offset 8]).
Proof.
  intros H. destruct (ReadBoxAt_cases m offset) as [(s & n & _ & _ & H0 & H8)|E];
    [|exact E].
  unfold no_header_at in H. lia.
Qed.

Lemma walk_scanned (m : Mp4Reader.t) (stop offset : Z) (l : list Box.t)
    (offset' : Z) :
  walk m stop offset l offset' -> stop <= offset' -> scanned m stop offset l.
Proof.
  induction 1 as [offset|offset size name rest offset' Hlt Hrd Hw IH]; intros Hstop.
  - now constructor.
  - constructor; auto.
Qed.

Lemma scanned_walk (m : Mp4Reader.t) (stop offset : Z) (l : list Box.t) :
  scanned m stop offset l ->
  exists offset', walk m stop offset l offset' /\ stop <= offset'.
Proof.
  induction 1 as [offset Hge|offset size name rest Hlt Hrd Hsc IH].
  - exists offset. split; [constructor|assumption].
  - destruct IH as (offset' & Hw & Hge). exists offset'.
    split; [now constructor|assumption].
Qed.

(** A walk that reaches the end of the range is what the loop returns. *)
Lemma walk_returns (m : Mp4Reader.t) (stop offset : Z) (l : list Box.t)
    (offset' : Z) :
  walk m stop offset l offset' -> stop <= offset' ->
  forall fuel, (List.length l <= fuel)%nat ->
    readBoxes_loop fuel m stop offset [] = (Ok l, map header_read l).
Proof.
  induction 1 as [offset|offset size name rest offset' Hlt Hrd Hw IH];
    intros Hstop fuel Hfuel.
  - now rewrite readBoxes_loop_stop.
  - destruct fuel as [|fuel]; [cbn in Hfuel; lia|].
    rewrite readBoxes_loop_step by assumption.
    rewrite (ReadBoxAt_full _ _ _ Hrd), bind_Ok.
    rewrite (IH Hstop fuel) by (cbn in Hfuel; lia).
    rewrite bind_Ok. cbn [fst snd ret map header_read Box.Start].
    now rewrite app_nil_r.
Qed.

(** A walk that arrives, inside the range, where no header can be read is a
    panic of the loop, after the reads of the headers met. *)
Lemma walk_panics (m : Mp4Reader.t) (stop offset : Z) (l : list Box.t)
    (offset' : Z) :
  walk m stop offset l offset' -> offset' < stop -> no_header_at m offset' ->
  forall fuel, (List.length l < fuel)%nat ->
    readBoxes_loop fuel m stop offset []
    = (Panic SliceBoundsOutOfRange, map header_read l ++ [ReadEv offset' 8]).
Proof.
  induction 1 as [offset|offset size name rest offset' Hlt Hrd Hw IH];
    intros Hstop Hno fuel Hfuel.
  - destruct fuel as [|fuel]; [cbn in Hfuel; lia|].
    rewrite readBoxes_loop_step by assumption.
    now rewrite (ReadBoxAt_no_header _ _ Hno).
  - destruct fuel as [|fuel]; [cbn in Hfuel; lia|].
    rewrite readBoxes_loop_step by assumption.
    rewrite (ReadBoxAt_full _ _ _ Hrd), bind_Ok.
    rewrite (IH Hstop Hno fuel) by (cbn in Hfuel; lia).
    reflexivity.
Qed.

(** A walk that arrives, inside the range, at a header of size 0 is a loop
    that never ends. *)
Lemma walk_loops (m : Mp4Reader.t) (stop offset : Z) (l : list Box.t)
    (offset' : Z) (name : string) :
  int64_range stop ->
  walk m stop offset l offset' -> offset' < stop ->
  result (Mp4Reader_ReadBoxAt m offset') = Ok (0, name) ->
  forall fuel, result (readBoxes_loop fuel m stop offset []) = Timeout.
Proof.
  intros Hrange.
  induction 1 as [offset|offset size name' rest offset' Hlt Hrd Hw IH];
    intros Hstop Hzero fuel.
  - apply (readBoxes_loop_zero_size _ _ _ name); try assumption.
    destruct (ReadBoxAt_cases m offset) as [(s & n & _ & _ & H0 & _)|E].
    + unfold int64_range in *. lia.
    + rewrite E in Hzero. discriminate.
  - destruct fuel as [|fuel].
    + cbn [readBoxes_loop]. apply Z.ltb_lt in Hlt. now rewrite Hlt.
    + rewrite readBoxes_loop_step by assumption.
      rewrite (ReadBoxAt_full _ _ _ Hrd), result_bind_Ok, result_bind.
      now rewrite (IH Hstop Hzero fuel).
Qed.

(** Every walk ends in one of three ways: at or past the end of the range,
    where no header can be read, or at a header of size 0. *)
Lemma walk_total (m : Mp4Reader.t) (stop : Z) (k : nat) :
  int64_range stop ->
  forall offset,
    stop - offset <= Z.of_nat k ->
    exists l offset',
      walk m stop offset l offset' /\
      (stop <= offset' \/
       (offset' < stop /\ no_header_at m offset') \/
       (offset' < stop /\
        exists name, result (Mp4Reader_ReadBoxAt m offset') = Ok (0, name))).
Proof.
  intros Hstop. induction k as [|k IH]; intros offset Hk.
  - exists [], offset. split; [constructor|left; lia].
  - destruct (Z.lt_ge_cases offset stop) as [Hlt|Hge];
      [|exists [], offset; split; [constructor|left; lia]].
    destruct (ReadBoxAt_cases m offset) as [(s & n & E & Hs & Hoff & Hend)|E].
    + destruct (Z.eq_dec s 0) as [->|Hs0].
      * exists [], offset. split; [constructor|].
        right. right. split; [assumption|]. exists n. now rewrite E.
      * assert (Hrd : result (Mp4Reader_ReadBoxAt m offset) = Ok (s, n))
          by now rewrite E.
        unfold int64_range in Hstop.
        destruct (Z_lt_ge_dec (offset + s) (2 ^ 63)) as [Hsmall|Hbig].
        -- destruct (IH (offset + s) ltac:(lia)) as (l & offset' & Hw & Hend').
           exists (Box.mk n s offset :: l), offset'.
           split; [|exact Hend'].
           constructor; try assumption.
           unfold add64. now rewrite wrap64_id by (unfold int64_range; lia).
        -- assert (Hnext : add64 offset s = offset + s - 2 ^ 64)
             by (unfold add64; apply wrap64_overflow; lia).
           exists [Box.mk n s offset], (offset + s - 2 ^ 64).
           split; [constructor; try assumption; rewrite Hnext; constructor|].
           destruct (Z.lt_ge_cases (offset + s - 2 ^ 64) stop) as [Hlt'|Hge'];
             [|left; lia].
           right. left. split; [assumption|]. left. lia.
    + exists [], offset. split; [constructor|].
      right. left. split; [assumption|].
      unfold no_header_at.
      destruct (Z_lt_ge_dec offset 0) as [?|H0]; [now left|].
      destruct (Z_lt_ge_dec (Z.of_nat (List.length (Mp4Reader.Reader m)))
                            (offset + 8)) as [?|H8]; [now right|].
      destruct (ReadBoxAt_readable m offset ltac:(lia) ltac:(lia))
        as (s & n & E').
      rewrite E' in E. discriminate.
Qed.

(** ** Properties of the box scanner *)

Lemma readBoxes_scanned (fuel : nat) (m : Mp4Reader.t) (start n : Z)
    (l : list Box.t) (t : list read_event) :
  readBoxes fuel m start n = (Ok l, t) ->
  scanned m (add64 start n) start l /\ t = map header_read l.
Proof. apply readBoxes_loop_scanned. Qed.

(** C9: in every list returned by [readBoxes(m, start, n)] the first box
    starts at [start] and each next box starts at the previous box's [Start]
    plus its [Size]: consecutive headers leave no gap and do not overlap. *)
Theorem readBoxes_contiguous (fuel : nat) (m : Mp4Reader.t) (start n : Z)
    (l : list Box.t) :
  int64_range start ->
  result (readBoxes fuel m start n) = Ok l ->
  chained start l.
Proof.
  intros Hstart H.
  destruct (readBoxes fuel m start n) as [r t] eqn:E. cbn in H. subst r.
  apply readBoxes_scanned in E. destruct E as [Hsc _].
  eapply scanned_chained; eassumption.
Qed.

Lemma readBoxes_contiguous_witness :
  int64_range 0 /\
  result (readBoxes 2 (reader_of two_boxes) 0 18)
  = Ok [Box.mk "free" 10 0; Box.mk "skip" 8 10] /\
  chained 0 [Box.mk "free" 10 0; Box.mk "skip" 8 10].
Proof.
  assert (H0 : int64_range 0) by (unfold int64_range; lia).
  assert (H1 : result (readBoxes 2 (reader_of two_boxes) 0 18)
               = Ok [Box.mk "free" 10 0; Box.mk "skip" 8 10])
    by (vm_compute; reflexivity).
  split; [exact H0|]. split; [exact H1|].
  exact (readBoxes_contiguous 2 (reader_of two_boxes) 0 18 _ H0 H1).
Defined.

(** C8: scanning a range of an unchanged byte source twice gives the same
    ordered headers (and the same reads): the outcome of a scan that ends is
    a function of the source bytes, [start] and [n] alone; the other fields
    of the shared reader, which the parse mutates between scans, and the
    fuel of the model play no part. *)
Theorem readBoxes_deterministic (fuel1 fuel2 : nat) (m1 m2 : Mp4Reader.t)
    (start n : Z) :
  Mp4Reader.Reader m1 = Mp4Reader.Reader m2 ->
  result (readBoxes fuel1 m1 start n) <> Timeout ->
  result (readBoxes fuel2 m2 start n) <> Timeout ->
  readBoxes fuel1 m1 start n = readBoxes fuel2 m2 start n.
Proof.
  unfold readBoxes. intros E H1 H2.
  rewrite (readBoxes_loop_ext m1 m2 _ fuel1 E) in *.
  rewrite <- (readBoxes_loop_fuel_mono m2 _ fuel1 (Nat.max fuel1 fuel2))
    by (try lia; assumption).
  rewrite <- (readBoxes_loop_fuel_mono m2 _ fuel2 (Nat.max fuel1 fuel2))
    by (try lia; assumption).
  reflexivity.
Qed.

(** C10: for a box whose [Size] is at most the 8-byte header size,
    [ReadBoxData] returns the nil slice and performs no read on the byte
    source; a box with an empty payload yields nil, not an empty slice. *)
Theorem ReadBoxData_without_payload (m : Mp4Reader.t) (b : Box.t) :
  Box.Size b <= BoxHeaderSize ->
  result (Box_ReadBoxData m b) = Ok None /\
  reads (Box_ReadBoxData m b) = [] /\
  result (Box_ReadBoxData m b) <> Ok (Some []).
Proof.
  intros H. unfold Box_ReadBoxData.
  apply Z.leb_le in H. rewrite H. cbn.
  repeat split. discriminate.
Qed.

Lemma ReadBoxData_without_payload_witness :
  Box.Size (Box.mk "skip" 8 10) <= BoxHeaderSize /\
  result (Box_ReadBoxData (reader_of two_boxes) (Box.mk "skip" 8 10)) = Ok None /\
  reads (Box_ReadBoxData (reader_of two_boxes) (Box.mk "skip" 8 10)) = [].
Proof.
  assert (H : Box.Size (Box.mk "skip" 8 10) <= BoxHeaderSize)
    by (cbn; unfold BoxHeaderSize; lia).
  split; [exact H|].
  destruct (ReadBoxData_without_payload (reader_of two_boxes) _ H) as (H1 & H2 & _).
  split; assumption.
Defined.

Lemma readBoxes_deterministic_witness :
  let m1 := reader_of two_boxes in
  let m2 := Mp4Reader.mk two_boxes None None
              (Some (MediaDataBox.mk (Box.mk "mdat" 9 0) None)) 18 in
  readBoxes 2 m1 0 18 = readBoxes 7 m2 0 18.
Proof.
  intros m1 m2.
  apply (readBoxes_deterministic 2 7 m1 m2 0 18).
  - reflexivity.
  - vm_compute. discriminate.
  - vm_compute. discriminate.
Defined.

(** C3, as the code has it: the scanner validates nothing and has no
    [MalformedContainer] failure.  A scan follows the declared sizes from
    [start], whatever they are (below 8, overrunning the range, missing its
    boundary), and ends in one of three ways, each of them decided by the
    headers met on the way.  When the walk reaches the end of the range the
    scan returns the headers met, exactly as declared and each starting
    where the declared size of the previous one ends, after one 8-byte read
    per header.  When the walk arrives, inside the range, where the file
    holds no 8 bytes (past its end, or at a negative offset after a
    wrap-around) the scan panics with a slice-bounds error, its only
    failure.  When the walk arrives at a header of size 0 the scan never
    returns. *)
Theorem readBoxes_unvalidated (m : Mp4Reader.t) (start n : Z) :
  int64_range start ->
  let stop := add64 start n in
  (forall l offset,
      walk m stop start l offset -> stop <= offset ->
      (forall fuel, (List.length l <= fuel)%nat ->
                    readBoxes fuel m start n = (Ok l, map header_read l)) /\
      Forall (as_declared m) l /\ chained start l) /\
  (forall l offset,
      walk m stop start l offset -> offset < stop -> no_header_at m offset ->
      forall fuel, (List.length l < fuel)%nat ->
                   readBoxes fuel m start n
                   = (Panic SliceBoundsOutOfRange,
                      map header_read l ++ [ReadEv offset 8])) /\
  (forall l offset name,
      walk m stop start l offset -> offset < stop ->
      result (Mp4Reader_ReadBoxAt m offset) = Ok (0, name) ->
      forall fuel, result (readBoxes fuel m start n) = Timeout) /\
  (exists l offset,
      walk m stop start l offset /\
      (stop <= offset \/
       (offset < stop /\ no_header_at m offset) \/
       (offset < stop /\
        exists name, result (Mp4Reader_ReadBoxAt m offset) = Ok (0, name)))) /\
  (forall fuel k, result (readBoxes fuel m start n) = Panic k ->
                  k = SliceBoundsOutOfRange).
Proof.
  intros Hstart stop.
  assert (Hstop : int64_range stop) by apply wrap64_range.
  split; [|split; [|split; [|split]]].
  - intros l offset Hw Hend. split; [|split].
    + intros fuel Hfuel. unfold readBoxes. fold stop.
      now apply (walk_returns m stop start l offset).
    + pose proof (walk_scanned _ _ _ _ _ Hw Hend) as Hsc.
      apply scanned_as_declared in Hsc.
      eapply Forall_impl; [|exact Hsc]. now intros b [Hb _].
    + eapply scanned_chained; [|exact Hstart].
      eapply walk_scanned; eassumption.
  - intros l offset Hw Hlt Hno fuel Hfuel. unfold readBoxes. fold stop.
    now apply walk_panics.
  - intros l offset name Hw Hlt Hzero fuel. unfold readBoxes. fold stop.
    now apply (walk_loops m stop start l offset name).
  - apply (walk_total m stop (Z.to_nat (stop - start)) Hstop). lia.
  - intros fuel k H. unfold readBoxes in H. fold stop in H.
    now apply (readBoxes_loop_panic m stop fuel start).
Qed.

(** C3, refuted as stated: a header declaring size 4 is returned as a box of
    [Size] 4 and the scan goes on 4 bytes later; a box that overruns its
    range is returned as well.  Neither scan fails.  On the range of 6 bytes
    the second read covers the bytes 4 to 11, past the end of the range. *)
Lemma readBoxes_accepts_size4_and_overrun :
  result (readBoxes 2 (reader_of size4_then_mdat) 0 16)
  = Ok [Box.mk "free" 4 0;
        Box.mk (string_of_list_byte (bytes_of [0; 0; 0; 8])) 1718773093 4]
  /\ result (readBoxes 1 (reader_of overrunning_box) 0 8)
     = Ok [Box.mk "free" 16 0]
  /\ readBoxes 2 (reader_of size4_then_mdat) 0 6
     = (Ok [Box.mk "free" 4 0;
            Box.mk (string_of_list_byte (bytes_of [0; 0; 0; 8])) 1718773093 4],
        [ReadEv 0 8; ReadEv 4 8]).
Proof. vm_compute. repeat split. Qed.

(** C4, as the code has it: the 32-bit size field is taken literally, also
    when it is 1.  Every box a scan returns has the [Size] decoded from the
    size field at its [Start], the next box starts [Size] bytes later, and
    the scan performs exactly one 8-byte read per returned box: a 64-bit
    extended size is never read. *)
Theorem readBoxes_size_field_literal (fuel : nat) (m : Mp4Reader.t)
    (start n : Z) (l : list Box.t) (t : list read_event) :
  int64_range start ->
  readBoxes fuel m start n = (Ok l, t) ->
  Forall (fun b => as_declared m b /\ 0 <= Box.Size b < 2 ^ 32) l /\
  chained start l /\
  t = map header_read l.
Proof.
  intros Hstart H. apply readBoxes_scanned in H. destruct H as [Hsc ->].
  split; [eapply scanned_as_declared; eassumption|].
  split; [eapply scanned_chained; eassumption|reflexivity].
Qed.

(** C4, refuted as stated: on a header with size field 1 followed by the
    extended size 16 the scan returns a box of [Size] 1, reads the next
    header at offset 1 and never reads the extended size; it does not return
    the one 16-byte box. *)
Lemma readBoxes_ignores_extended_size :
  readBoxes 2 (reader_of extended_size_box) 0 16
  = (Ok [Box.mk "mdat" 1 0;
         Box.mk (string_of_list_byte (bytes_of [100; 97; 116; 0])) 365 1],
     [ReadEv 0 8; ReadEv 1 8])
  /\ result (readBoxes 2 (reader_of extended_size_box) 0 16)
     <> Ok [Box.mk "mdat" 16 0].
Proof. split; vm_compute; [reflexivity|discriminate]. Qed.

Lemma readBoxes_size_field_literal_witness :
  int64_range 0 /\
  Forall (fun b => as_declared (reader_of extended_size_box) b
                   /\ 0 <= Box.Size b < 2 ^ 32)
    [Box.mk "mdat" 1 0;
     Box.mk (string_of_list_byte (bytes_of [100; 97; 116; 0])) 365 1].
Proof.
  assert (H0 : int64_range 0) by (unfold int64_range; lia).
  split; [exact H0|].
  refine (proj1 (readBoxes_size_field_literal 2 (reader_of extended_size_box)
                   0 16 _ _ H0 _)).
  vm_compute. reflexivity.
Defined.

(** With size field 0 the scan of this model runs out of any fuel: the
    program appends the same header for ever. *)
Lemma readBoxes_zero_size_never_ends (fuel : nat) :
  result (readBoxes fuel (reader_of zero_size_box) 0 8) = Timeout.
Proof.
  unfold readBoxes.
  apply (readBoxes_loop_zero_size _ _ _ "mdat").
  - unfold int64_range; lia.
  - vm_compute. reflexivity.
  - vm_compute. reflexivity.
Qed.

Lemma readBoxes_unvalidated_witness :
  int64_range 0 /\
  readBoxes 1 (reader_of overrunning_box) 0 8
  = (Ok [Box.mk "free" 16 0], [ReadEv 0 8]).
Proof.
  assert (H0 : int64_range 0) by (unfold int64_range; lia).
  split; [exact H0|].
  refine (proj1 (proj1 (readBoxes_unvalidated (reader_of overrunning_box) 0 8 H0)
                   [Box.mk "free" 16 0] 16 _ _) 1%nat _).
  - apply walk_box; [vm_compute; reflexivity|vm_compute; reflexivity|].
    apply walk_here.
  - vm_compute. discriminate.
  - cbn. lia.
Defined.

(** ** The sample tables and the extraction *)

(** The stream does not depend on the movie box, hence on no sample table. *)
Lemma extractVideoChunks_mdat_only (m1 m2 : Mp4Reader.t) :
  Mp4Reader.Mdat m1 = Mp4Reader.Mdat m2 ->
  extractVideoChunks m1 = extractVideoChunks m2.
Proof. unfold extractVideoChunks. now intros ->. Qed.

(** The stream is the start code followed by the payload of [mdat] from its
    fifth byte on. *)
Lemma extractVideoChunks_spec (m : Mp4Reader.t) (mdat : MediaDataBox.t)
    (data : list byte) :
  Mp4Reader.Mdat m = Some mdat ->
  MediaDataBox.Data mdat = Some data ->
  (4 <= List.length data)%nat ->
  extractVideoChunks m = ret (start_code ++ skipn 4 data).
Proof.
  intros Hm Hd Hlen. unfold extractVideoChunks, slice_from. rewrite Hm, Hd.
  cbn [slice_len].
  assert (E : (4 <=? Z.of_nat (List.length data)) = true) by (apply Z.leb_le; lia).
  rewrite E. rewrite bind_ret_l. reflexivity.
Qed.

(** C1: on the example tables (sizes 10, 20, 30; chunks of 2 and 1 samples
    at 1000 and 1030) the sample list of the specification is (0, 1000, 10),
    (1, 1010, 20), (2, 1030, 30).  The program builds no such list: of the
    three tables it keeps the sample size, the sample count and the two
    entry counts only, so that a movie with another sample layout parses to
    the same sample table; and the stream it writes is the payload of [mdat]
    with its first four bytes replaced by a start code, whatever the tables
    say. *)
Theorem sample_tables_reduced_to_counts :
  spec_sample_table 0 example_sizes example_stsc example_offsets
  = [(0, 1000, 10); (1, 1010, 20); (2, 1030, 30)]
  /\ spec_sample_table 0 [20; 10; 30] example_stsc example_offsets
     = [(0, 1000, 20); (1, 1020, 10); (2, 1030, 30)]
  /\ match result (Open 5 example_movie), result (Open 5 example_movie') with
     | Ok (m, _), Ok (m', _) =>
         reader_Stbl m = reader_Stbl m' /\
         reader_Stbl m
         = Some (SampleTableBox.mk (Box.mk "stbl" 104 337)
                   (Some (SampleSizeBox.mk (Box.mk "stsz" 32 345) x00
                            [x00; x00; x00] 0 3))
                   (Some (SampleToChunkBox.mk (Box.mk "stsc" 40 377) x00
                            [x00; x00; x00] 2))
                   (Some (ChunkOffsetBox.mk (Box.mk "stco" 24 417) x00
                            [x00; x00; x00] 2)))
     | _, _ => False
     end
  /\ result (main_written 5 example_movie)
     = Ok (Some (start_code ++ skipn 4 (List.concat example_samples))).
Proof. vm_compute. repeat split. Qed.

(** C2: a sample holding two length-prefixed units, of 2 and of 3 bytes,
    should rewrite to a start code, the 2 bytes, a start code, the 3 bytes.
    The program replaces the first length prefix only: the second prefix
    00 00 00 03 stays in the stream. *)
Theorem extractVideoChunks_keeps_inner_length_prefix :
  spec_annexb 2 two_unit_sample
  = Some (start_code ++ [xaa; xbb] ++ start_code ++ [xcc; xdd; xee])
  /\ result (main_written 5 two_unit_movie)
     = Ok (Some (start_code ++ [xaa; xbb]
                 ++ [x00; x00; x00; x03] ++ [xcc; xdd; xee])).
Proof. vm_compute. split; reflexivity. Qed.

(** On a movie whose only sample holds a single unit the program and the
    specification agree. *)
Lemma extractVideoChunks_single_unit :
  result (main_written 5 one_unit_movie) = Ok (Some (start_code ++ [xaa; xbb]))
  /\ spec_annexb 1 (length_prefixed [xaa; xbb]) = Some (start_code ++ [xaa; xbb]).
Proof. vm_compute. split; reflexivity. Qed.

(** ** Track selection *)

(** A video track replaces whatever track was selected before it. *)
Lemma MovieBox_body_video_track (fuel : nat) (m : Mp4Reader.t) (b : MovieBox.t)
    (box : Box.t) (trak : TrackBox.t) (t : list read_event) :
  Box.Name box = "trak"%string ->
  parseTrack fuel m box = (Ok trak, t) ->
  result (track_TypeName trak) = Ok "vide"%string ->
  MovieBox_body fuel m b box
  = (Ok (MovieBox.mk (MovieBox.box b) (MovieBox.Mvhd b) (Some trak)), t).
Proof.
  intros Hname Hparse Htype. unfold MovieBox_body. destruct b as [bx mvhd trak0].
  rewrite Hname. cbn [String.eqb Ascii.eqb Bool.eqb].
  rewrite Hparse, bind_Ok.
  destruct (track_TypeName trak) as [r t'] eqn:E. cbn in Htype. subst r.
  assert (t' = []) as ->.
  { unfold track_TypeName in E. destruct (TrackBox.Mdia trak) as [mdia|];
      [destruct (MediaBox.Hdlr mdia)|]; inversion E; reflexivity. }
  rewrite bind_Ok. cbn. now rewrite app_nil_r.
Qed.

(** C5: of two video tracks the program selects the second one (the box at
    offset 417), not the first (at offset 136): every video track met
    replaces the one selected before.  With handler types "soun" then "vide"
    the second track is selected, with "vide" then "soun" the first. *)
Theorem MovieBox_parse_selects_last_video_track :
  match result (Open 5 (movie_of_two_tracks "vide" "vide")) with
  | Ok (m, _) => selected_track_start m = Some 417
  | _ => False
  end
  /\ match result (Open 5 (movie_of_two_tracks "soun" "vide")) with
     | Ok (m, _) => selected_track_start m = Some 417
     | _ => False
     end
  /\ match result (Open 5 (movie_of_two_tracks "vide" "soun")) with
     | Ok (m, _) => selected_track_start m = Some 136
     | _ => False
     end.
Proof. vm_compute. repeat split. Qed.

(** ** Fixed-point fields *)

(** [fixed16] looks at the first two bytes of its argument only. *)
Lemma fixed16_two_bytes (b0 b1 : byte) (rest : list byte) :
  fixed16 (b0 :: b1 :: rest) = fixed16 [b0; b1].
Proof. reflexivity. Qed.

(** [Fixed16.String] shows the integer part only: the volume 1.5 prints
    as 1. *)
Lemma Fixed16_String_truncates : Fixed16_String_value 384 = 1.
Proof. reflexivity. Qed.

(** C6: the width 320.5 (bytes 01 40 80 00) and the height 240.25 (bytes
    00 F0 40 00) of a track header decode to 320 and 240: [fixed16] is
    applied to the 16.16 field and keeps its integer half.  The movie
    header's rate 1.5 and volume 1.5 keep their fraction (98304 and 384). *)
Theorem TrackHeaderBox_width_loses_fraction :
  match result (TrackHeaderBox_parse
                  (tkhd_reader [1; 64; 128; 0] [0; 240; 64; 0]) tkhd_at_0) with
  | Ok tkhd => TrackHeaderBox.Width tkhd = 320 /\ TrackHeaderBox.Height tkhd = 240
  | _ => False
  end
  /\ match result (MovieHeaderBox_parse
                     (reader_of (mkbox "mvhd" (mvhd_payload 1000 3000 98304 384)))
                     (Box.mk "mvhd" 104 0)) with
     | Ok mvhd => MovieHeaderBox.Rate mvhd = 98304 /\ MovieHeaderBox.Volume mvhd = 384
     | _ => False
     end.
Proof. vm_compute. repeat split. Qed.

(** ** [Parse] on a regular file *)

(** With the size [Stat] reports for a regular file, [Parse] is the scan of
    the whole file when [Size] is 0 on entry, and of the first [Size] bytes
    otherwise. *)
Lemma Mp4Reader_Parse_regular (fuel : nat) (m : Mp4Reader.t) :
  Mp4Reader_Parse fuel m =
  (let m1 :=
     if Mp4Reader.Size m =? 0
     then Mp4Reader.mk (Mp4Reader.Reader m) (Mp4Reader.Ftyp m) (Mp4Reader.Moov m)
            (Mp4Reader.Mdat m) (Z.of_nat (List.length (Mp4Reader.Reader m)))
     else m in
   boxes <- readBoxes fuel m1 0 (Mp4Reader.Size m1) ;;
   m2 <- range_boxes (Parse_body fuel) boxes m1 ;;
   ret (m2, None)).
Proof.
  unfold Mp4Reader_Parse, Mp4Reader_Parse_os, Parse_boxes, set_Size.
  destruct (Mp4Reader.Size m =? 0); reflexivity.
Qed.

(** ** Missing boxes *)

(** On a regular file [Parse] returns through its last statement,
    [return nil]: the other return, after a failed [Stat], is not taken. *)
Lemma Parse_error_is_nil (fuel : nat) (m m' : Mp4Reader.t) (e : error) :
  result (Mp4Reader_Parse fuel m) = Ok (m', e) -> e = None.
Proof.
  rewrite Mp4Reader_Parse_regular. cbv zeta. intros H.
  destruct (bind _ _) as [r t] eqn:E in H. cbn in H. subst r.
  apply bind_inv_Ok in E. destruct E as (boxes & t1 & t2 & _ & E & _).
  apply bind_inv_Ok in E. destruct E as (m2 & t3 & t4 & _ & E & _).
  inversion E. reflexivity.
Qed.




(** An [mvhd] box with a 10-byte payload: the decoder slices past the
    payload, and the panic ends the whole parse. *)
Lemma Parse_panics_on_short_mvhd :
  result (Open 5 movie_with_short_mvhd) = Panic SliceBoundsOutOfRange.
Proof. vm_compute. reflexivity. Qed.

(** ** Track selection in the older program *)

(** Once the counter has left 0 the selected track never changes: the first
    [trak] box is the only one decoded, whatever its handler type. *)
Lemma MoovContainer_keeps_first_track {MvhdBox TrackBox : Type}
    (parse_mvhd : Mp4Reader.t -> Box.t -> M MvhdBox)
    (parse_trak : nat -> Mp4Reader.t -> Box.t -> M TrackBox)
    (fuel : nat) (m : Mp4Reader.t) (boxes : list Box.t) :
  forall (b b' : MainGo.MoovContainer) (count count' : Z),
    count <> 0 ->
    result (range_boxes (MainGo.MoovContainer_body parse_mvhd parse_trak fuel m)
              boxes (b, count)) = Ok (b', count') ->
    MainGo.Trak b' = MainGo.Trak b.
Proof.
  induction boxes as [|bx rest IH]; intros b b' count count' Hc H.
  - cbn in H. inversion H. reflexivity.
  - cbn [range_boxes] in H. rewrite result_bind in H.
    unfold MainGo.MoovContainer_body in H at 1.
    destruct (String.eqb (Box.Name bx) "mvhd").
    + rewrite result_bind in H.
      destruct (result (parse_mvhd m bx)) as [x| |]; try discriminate.
      cbn [result ret fst] in H.
      now apply IH in H.
    + destruct (String.eqb (Box.Name bx) "trak").
      * apply Z.eqb_neq in Hc. rewrite Hc in H. cbn [result ret fst] in H.
        apply Z.eqb_neq in Hc. now apply IH in H.
      * cbn [result ret fst] in H. now apply IH in H.
Qed.

(** ** Big-endian numbers *)

Lemma lor_shiftl_add (a b k : Z) :
  0 <= k -> 0 <= a < 2 ^ k -> 0 <= b ->
  Z.lor a (Z.shiftl b k) = a + b * 2 ^ k.
Proof.
  intros Hk Ha Hb.
  assert (Hland : Z.land a (Z.shiftl b k) = 0).
  { apply Z.bits_inj'. intros n Hn.
    rewrite Z.land_spec, Z.bits_0.
    destruct (Z_lt_ge_dec n k) as [Hlt|Hge].
    - rewrite Z.shiftl_spec_low by assumption. apply andb_false_r.
    - assert (Z.testbit a n = false) as ->; [|reflexivity].
      destruct (Z.eq_dec a 0) as [->|Hne]; [apply Z.bits_0|].
      apply Z.bits_above_log2; [lia|].
      assert (Z.log2 a < k) by (apply Z.log2_lt_pow2; lia). lia. }
  rewrite <- Z.lxor_lor by assumption.
  rewrite <- Z.add_nocarry_lxor by assumption.
  now rewrite Z.shiftl_mul_pow2.
Qed.

Lemma lor_be_value (b0 b1 b2 b3 : byte) :
  Z.lor (Z.lor (Z.lor (byte_val b3) (Z.shiftl (byte_val b2) 8))
               (Z.shiftl (byte_val b1) 16))
        (Z.shiftl (byte_val b0) 24)
  = be_value b0 b1 b2 b3.
Proof.
  unfold be_value.
  pose proof (byte_val_range b0). pose proof (byte_val_range b1).
  pose proof (byte_val_range b2). pose proof (byte_val_range b3).
  rewrite (lor_shiftl_add (byte_val b3) (byte_val b2) 8) by lia.
  rewrite (lor_shiftl_add _ (byte_val b1) 16) by lia.
  rewrite (lor_shiftl_add _ (byte_val b0) 24) by lia.
  lia.
Qed.

(** [binary.BigEndian.Uint32] is the big-endian value of the first four
    bytes. *)
Lemma Uint32_be_value (b0 b1 b2 b3 : byte) (rest : list byte) :
  BigEndian_Uint32 (b0 :: b1 :: b2 :: b3 :: rest) = ret (be_value b0 b1 b2 b3).
Proof. unfold BigEndian_Uint32. now rewrite lor_be_value. Qed.

Lemma byte_val_of_Z (z : Z) : byte_val (byte_of_Z z) = z mod 256.
Proof.
  unfold byte_val, byte_of_Z.
  pose proof (Z.mod_pos_bound z 256 ltac:(lia)) as Hm.
  destruct (Byte.of_N (Z.to_N (z mod 256))) as [b|] eqn:E.
  - apply Byte.to_of_N in E. rewrite E. lia.
  - apply Byte.of_N_None_iff in E. lia.
Qed.

Lemma be32_value (z : Z) :
  0 <= z < 2 ^ 32 ->
  exists b0 b1 b2 b3, be32 z = [b0; b1; b2; b3] /\ be_value b0 b1 b2 b3 = z.
Proof.
  intros Hz. unfold be32, bytes_of. cbn [map].
  do 4 eexists. split; [reflexivity|].
  unfold be_value. rewrite !byte_val_of_Z.
  change (2 ^ 24) with 16777216. change (2 ^ 16) with 65536.
  change (2 ^ 8) with 256. change (2 ^ 32) with 4294967296 in Hz.
  Z.div_mod_to_equations. lia.
Qed.

Lemma length_list_byte_of_string (s : string) :
  List.length (list_byte_of_string s) = String.length s.
Proof.
  unfold list_byte_of_string. rewrite length_map.
  induction s as [|c s IH]; cbn; congruence.
Qed.

Lemma length4 {A} (l : list A) :
  List.length l = 4%nat -> exists a0 a1 a2 a3, l = [a0; a1; a2; a3].
Proof.
  intros H. do 4 (destruct l as [|? l]; [discriminate|]).
  destruct l; [|discriminate]. repeat eexists.
Qed.

(** ** Well-formed boxes *)

Lemma length_mkbox (name : string) (payload : list byte) :
  String.length name = 4%nat ->
  Z.of_nat (List.length (mkbox name payload)) = 8 + Z.of_nat (List.length payload).
Proof.
  intros Hn. unfold mkbox, be32, bytes_of.
  rewrite !length_app, length_list_byte_of_string, Hn. cbn [map List.length]. lia.
Qed.

(** The header of a well-formed box is read back as written. *)
Lemma ReadBoxAt_mkbox (m : Mp4Reader.t) (pre post payload : list byte)
    (name : string) :
  well_formed_item (name, payload) ->
  Mp4Reader.Reader m = pre ++ mkbox name payload ++ post ->
  Mp4Reader_ReadBoxAt m (Z.of_nat (List.length pre))
  = (Ok (8 + Z.of_nat (List.length payload), name),
     [ReadEv (Z.of_nat (List.length pre)) 8]).
Proof.
  intros [Hname Hsize] Hfile. cbn [fst snd] in *.
  rewrite ReadBoxAt_spec, Hfile. unfold ReadAt.
  assert (Hoff : (Z.of_nat (List.length pre) <? 0) = false)
    by (apply Z.ltb_ge; lia).
  rewrite Hoff, Nat2Z.id, skipn_app, skipn_all, Nat.sub_diag. cbn [app skipn].
  destruct (be32_value (8 + Z.of_nat (List.length payload)) ltac:(lia))
    as (b0 & b1 & b2 & b3 & Hbe & Hval).
  destruct (length4 (list_byte_of_string name)) as (c0 & c1 & c2 & c3 & Hc).
  { now rewrite length_list_byte_of_string. }
  unfold mkbox. rewrite Hbe, Hc. cbn [app].
  change (Z.to_nat 8) with 8%nat. cbn [firstn List.length].
  change (Z.of_nat 8 =? 8) with true. cbv iota.
  rewrite lor_be_value, Hval, <- Hc, string_of_list_byte_of_string.
  reflexivity.
Qed.

Lemma readBoxes_loop_well_formed (m : Mp4Reader.t) (post : list byte)
    (items : list (string * list byte)) :
  Forall well_formed_item items ->
  forall (pre : list byte) (fuel : nat),
    Mp4Reader.Reader m = pre ++ boxes_bytes items ++ post ->
    Z.of_nat (List.length pre) + Z.of_nat (List.length (boxes_bytes items)) < 2 ^ 63 ->
    (List.length items <= fuel)%nat ->
    readBoxes_loop fuel m
      (Z.of_nat (List.length pre) + Z.of_nat (List.length (boxes_bytes items)))
      (Z.of_nat (List.length pre)) []
    = (Ok (headers_of (Z.of_nat (List.length pre)) items),
       map header_read (headers_of (Z.of_nat (List.length pre)) items)).
Proof.
  induction 1 as [|[name payload] rest Hwf Hrest IH]; intros pre fuel Hfile Hlen Hfuel.
  - cbn [boxes_bytes flat_map List.length Z.of_nat headers_of map].
    rewrite readBoxes_loop_stop by lia. reflexivity.
  - destruct fuel as [|fuel]; [cbn in Hfuel; lia|].
    cbn [boxes_bytes flat_map fst snd] in *. fold (boxes_bytes rest) in *.
    pose proof (length_mkbox name payload (proj1 Hwf)) as Hbox.
    rewrite length_app in *.
    rewrite readBoxes_loop_step by lia.
    rewrite <- app_assoc in Hfile.
    rewrite (ReadBoxAt_mkbox m pre (boxes_bytes rest ++ post) payload name Hwf Hfile).
    rewrite bind_Ok.
    assert (Hnext : add64 (Z.of_nat (List.length pre))
                          (8 + Z.of_nat (List.length payload))
                    = Z.of_nat (List.length (pre ++ mkbox name payload))).
    { unfold add64. rewrite wrap64_id by (unfold int64_range; lia).
      rewrite length_app. lia. }
    rewrite Hnext.
    replace (Z.of_nat (List.length pre)
             + Z.of_nat (List.length (mkbox name payload)
                         + List.length (boxes_bytes rest)))
      with (Z.of_nat (List.length (pre ++ mkbox name payload))
            + Z.of_nat (List.length (boxes_bytes rest)))
      by (rewrite length_app; lia).
    rewrite (IH (pre ++ mkbox name payload) fuel).
    + rewrite bind_Ok. cbn [fst snd ret headers_of map].
      rewrite app_nil_r.
      replace (Z.of_nat (List.length pre) + (8 + Z.of_nat (List.length payload)))
        with (Z.of_nat (List.length (pre ++ mkbox name payload)))
        by (rewrite length_app; lia).
      reflexivity.
    + rewrite <- app_assoc. exact Hfile.
    + rewrite length_app. lia.
    + cbn in Hfuel. lia.
Qed.

(** X1: on a range that holds a sequence of well-formed boxes (four-character
    tags, sizes that fit 32 bits, the whole below 2^63 bytes) the scanner
    returns one header per box, with the tag, the size 8 + payload length
    and the start of each, and reads nothing but the 8 header bytes of each
    box; as many loop iterations as there are boxes suffice. *)
Theorem readBoxes_well_formed (m : Mp4Reader.t) (pre post : list byte)
    (items : list (string * list byte)) (fuel : nat) :
  Forall well_formed_item items ->
  Mp4Reader.Reader m = pre ++ boxes_bytes items ++ post ->
  Z.of_nat (List.length pre) + Z.of_nat (List.length (boxes_bytes items)) < 2 ^ 63 ->
  (List.length items <= fuel)%nat ->
  readBoxes fuel m (Z.of_nat (List.length pre))
                   (Z.of_nat (List.length (boxes_bytes items)))
  = (Ok (headers_of (Z.of_nat (List.length pre)) items),
     map header_read (headers_of (Z.of_nat (List.length pre)) items)).
Proof.
  intros Hwf Hfile Hlen Hfuel. unfold readBoxes, add64.
  rewrite wrap64_id by (unfold int64_range; lia).
  now apply readBoxes_loop_well_formed with (post := post).
Qed.

Lemma readBoxes_well_formed_witness :
  readBoxes 2 (reader_of two_boxes) 0 18
  = (Ok [Box.mk "free" 10 0; Box.mk "skip" 8 10], [ReadEv 0 8; ReadEv 10 8]).
Proof.
  refine (readBoxes_well_formed (reader_of two_boxes) [] []
            [("free"%string, bytes_of [1; 2]); ("skip"%string, [])] 2 _ _ _ _).
  - repeat constructor; cbn; lia.
  - reflexivity.
  - cbn. lia.
  - cbn. lia.
Defined.

(** ** Reading a payload *)

Lemma ReadBoxData_payload_spec (m : Mp4Reader.t) (b : Box.t) :
  8 < Box.Size b < 2 ^ 32 ->
  0 <= Box.Start b < 2 ^ 62 ->
  Box_ReadBoxData m b
  = (Ok (if Box.Start b + Box.Size b <=? Z.of_nat (List.length (Mp4Reader.Reader m))
         then Some (firstn (Z.to_nat (Box.Size b - 8))
                           (skipn (Z.to_nat (Box.Start b + 8)) (Mp4Reader.Reader m)))
         else None),
     [ReadEv (Box.Start b + 8) (Box.Size b - 8)]).
Proof.
  intros Hsize Hstart. unfold Box_ReadBoxData, BoxHeaderSize.
  assert (E1 : (Box.Size b <=? 8) = false) by (apply Z.leb_gt; lia).
  rewrite E1. unfold sub64, add64.
  rewrite !wrap64_id by (unfold int64_range; lia).
  unfold Mp4Reader_ReadBytesAt.
  assert (E2 : (Box.Size b - 8 <? 0) = false) by (apply Z.ltb_ge; lia).
  assert (E2' : (maxAlloc <? Box.Size b - 8) = false)
    by (apply Z.ltb_ge; unfold maxAlloc; lia).
  rewrite E2, E2'. cbn [orb]. unfold ReadAt.
  assert (E3 : (Box.Start b + 8 <? 0) = false) by (apply Z.ltb_ge; lia).
  rewrite E3. rewrite length_firstn, length_skipn.
  destruct (Box.Start b + Box.Size b <=? _) eqn:E4.
  - apply Z.leb_le in E4.
    assert (E5 : (Z.of_nat (Nat.min (Z.to_nat (Box.Size b - 8))
                     (List.length (Mp4Reader.Reader m) - Z.to_nat (Box.Start b + 8)))
                  =? Box.Size b - 8) = true) by (apply Z.eqb_eq; lia).
    now rewrite E5.
  - apply Z.leb_gt in E4.
    assert (E5 : (Z.of_nat (Nat.min (Z.to_nat (Box.Size b - 8))
                     (List.length (Mp4Reader.Reader m) - Z.to_nat (Box.Start b + 8)))
                  =? Box.Size b - 8) = false) by (apply Z.eqb_neq; lia).
    now rewrite E5.
Qed.

(** X2: for a box with a payload (8 < Size < 2^32, at a start below 2^62)
    [ReadBoxData] performs exactly one read, of Size - 8 bytes at Start + 8,
    and returns those bytes when the box ends inside the file; when the box
    runs past the end of the file it returns nil, not the bytes that are
    there and no error. *)
Theorem ReadBoxData_payload (m : Mp4Reader.t) (b : Box.t) :
  8 < Box.Size b < 2 ^ 32 ->
  0 <= Box.Start b < 2 ^ 62 ->
  Box_ReadBoxData m b
  = (Ok (if Box.Start b + Box.Size b <=? Z.of_nat (List.length (Mp4Reader.Reader m))
         then Some (firstn (Z.to_nat (Box.Size b - 8))
                           (skipn (Z.to_nat (Box.Start b + 8)) (Mp4Reader.Reader m)))
         else None),
     [ReadEv (Box.Start b + 8) (Box.Size b - 8)]).
Proof. exact (ReadBoxData_payload_spec m b). Qed.

Lemma ReadBoxData_payload_witness :
  Box_ReadBoxData (reader_of two_boxes) (Box.mk "free" 10 0)
  = (Ok (Some (bytes_of [1; 2])), [ReadEv 8 2])
  /\ Box_ReadBoxData (reader_of two_boxes) (Box.mk "skip" 9 10)
     = (Ok None, [ReadEv 18 1]).
Proof.
  split.
  - refine (ReadBoxData_payload (reader_of two_boxes) (Box.mk "free" 10 0) _ _);
      cbn; lia.
  - refine (ReadBoxData_payload (reader_of two_boxes) (Box.mk "skip" 9 10) _ _);
      cbn; lia.
Defined.

Lemma mkbox_header (name : string) (payload : list byte) :
  String.length name = 4%nat ->
  exists h, mkbox name payload = h ++ payload /\ List.length h = 8%nat.
Proof.
  intros Hn. unfold mkbox. exists (be32 (8 + Z.of_nat (List.length payload))
                                   ++ list_byte_of_string name).
  split; [now rewrite <- app_assoc|].
  rewrite length_app, length_list_byte_of_string, Hn. reflexivity.
Qed.

Lemma ReadBoxData_mkbox_spec (m : Mp4Reader.t) (pre post payload : list byte)
    (name : string) :
  well_formed_item (name, payload) ->
  payload <> [] ->
  Z.of_nat (List.length pre) < 2 ^ 62 ->
  Mp4Reader.Reader m = pre ++ mkbox name payload ++ post ->
  Box_ReadBoxData m (Box.mk name (8 + Z.of_nat (List.length payload))
                            (Z.of_nat (List.length pre)))
  = (Ok (Some payload),
     [ReadEv (Z.of_nat (List.length pre) + 8) (Z.of_nat (List.length payload))]).
Proof.
  intros [Hname Hsize] Hne Hpre Hfile. cbn [fst snd] in *.
  assert (Hpos : (0 < List.length payload)%nat)
    by (destruct payload; [congruence|cbn; lia]).
  rewrite ReadBoxData_payload_spec by (cbn [Box.Size Box.Start]; lia).
  cbn [Box.Size Box.Start].
  destruct (mkbox_header name payload Hname) as (h & Hh & Hlen).
  rewrite Hfile, Hh, <- !app_assoc.
  assert (E : (Z.of_nat (List.length pre) + (8 + Z.of_nat (List.length payload))
               <=? Z.of_nat (List.length (pre ++ h ++ payload ++ post))) = true).
  { apply Z.leb_le. rewrite !length_app. lia. }
  rewrite E.
  replace (Z.to_nat (Z.of_nat (List.length pre) + 8))
    with (List.length (pre ++ h)) by (rewrite length_app; lia).
  replace (pre ++ h ++ payload ++ post) with ((pre ++ h) ++ payload ++ post)
    by now rewrite <- app_assoc.
  rewrite skipn_app, skipn_all, Nat.sub_diag. cbn [app skipn].
  replace (Z.to_nat (8 + Z.of_nat (List.length payload) - 8))
    with (List.length payload + 0)%nat by lia.
  rewrite firstn_app_2. cbn [firstn]. rewrite app_nil_r.
  do 3 f_equal. lia.
Qed.

(** X3: the payload of a well-formed box with a non-empty payload is read
    back as written, by one read of exactly the payload. *)
Theorem ReadBoxData_mkbox (m : Mp4Reader.t) (pre post payload : list byte)
    (name : string) :
  well_formed_item (name, payload) ->
  payload <> [] ->
  Z.of_nat (List.length pre) < 2 ^ 62 ->
  Mp4Reader.Reader m = pre ++ mkbox name payload ++ post ->
  Box_ReadBoxData m (Box.mk name (8 + Z.of_nat (List.length payload))
                            (Z.of_nat (List.length pre)))
  = (Ok (Some payload),
     [ReadEv (Z.of_nat (List.length pre) + 8) (Z.of_nat (List.length payload))]).
Proof. exact (ReadBoxData_mkbox_spec m pre post payload name). Qed.

Lemma ReadBoxData_mkbox_witness :
  Box_ReadBoxData (reader_of two_boxes) (Box.mk "free" 10 0)
  = (Ok (Some (bytes_of [1; 2])), [ReadEv 8 2]).
Proof.
  refine (ReadBoxData_mkbox (reader_of two_boxes) [] (mkbox "skip" [])
            (bytes_of [1; 2]) "free" _ _ _ _).
  - split; cbn; lia.
  - discriminate.
  - cbn. lia.
  - reflexivity.
Defined.

(** ** Slicing a payload *)

Lemma skipn_cons_nth {A} (d : A) (l : list A) (n : nat) :
  (n < List.length l)%nat -> skipn n l = nth n l d :: skipn (S n) l.
Proof.
  revert l. induction n as [|n IH]; intros [|a l] H; cbn in *; try lia.
  - reflexivity.
  - apply IH. lia.
Qed.

Lemma index_ok (s : slice) (i : Z) :
  0 <= i < Z.of_nat (List.length (slice_bytes s)) ->
  index s i = ret (byte_at (slice_bytes s) (Z.to_nat i)).
Proof.
  intros H. destruct s as [l|]; cbn in H; [|lia].
  unfold index. assert (E : (i <? 0) = false) by (apply Z.ltb_ge; lia).
  rewrite E. cbn [slice_bytes]. unfold byte_at.
  destruct (nth_error l (Z.to_nat i)) as [b|] eqn:En.
  - now rewrite (nth_error_nth _ _ _ En).
  - apply nth_error_None in En. lia.
Qed.

Lemma index_short (s : slice) (i : Z) :
  Z.of_nat (List.length (slice_bytes s)) <= i ->
  index s i = panic IndexOutOfRange.
Proof.
  intros H. destruct s as [l|]; [|reflexivity]. cbn in H. unfold index.
  destruct (i <? 0); [reflexivity|].
  destruct (nth_error l (Z.to_nat i)) as [b|] eqn:En; [|reflexivity].
  assert (nth_error l (Z.to_nat i) <> None) as Hn by congruence.
  apply nth_error_Some in Hn. lia.
Qed.

Lemma slice_len_bytes (s : slice) :
  slice_len s = Z.of_nat (List.length (slice_bytes s)).
Proof. destruct s; reflexivity. Qed.

Lemma sub_slice_short {B} (s : slice) (lo hi : Z) (f : list byte -> M B) :
  Z.of_nat (List.length (slice_bytes s)) < hi ->
  bind (sub_slice s lo hi) f = panic SliceBoundsOutOfRange.
Proof.
  intros H. unfold sub_slice. rewrite slice_len_bytes.
  assert (E : (hi <=? Z.of_nat (List.length (slice_bytes s))) = false)
    by (apply Z.leb_gt; lia).
  now rewrite E.
Qed.

Lemma sub_slice_ok (s : slice) (lo hi : Z) :
  0 <= lo <= hi -> 0 < hi ->
  hi <= Z.of_nat (List.length (slice_bytes s)) ->
  sub_slice s lo hi
  = ret (firstn (Z.to_nat (hi - lo)) (skipn (Z.to_nat lo) (slice_bytes s))).
Proof.
  intros Hlo Hhi H. unfold sub_slice. rewrite slice_len_bytes.
  assert (E : (hi <=? Z.of_nat (List.length (slice_bytes s))) = true)
    by (apply Z.leb_le; lia).
  rewrite E. destruct s; [reflexivity|]. cbn in H. lia.
Qed.

Lemma firstn_skipn_4 (l : list byte) (lo n : nat) :
  (4 <= n)%nat -> (lo + 4 <= List.length l)%nat ->
  exists rest,
    firstn n (skipn lo l)
    = byte_at l lo :: byte_at l (lo + 1) :: byte_at l (lo + 2)
      :: byte_at l (lo + 3) :: rest.
Proof.
  intros Hn Hl. unfold byte_at.
  rewrite (skipn_cons_nth x00 l lo) by lia.
  rewrite (skipn_cons_nth x00 l (S lo)) by lia.
  rewrite (skipn_cons_nth x00 l (S (S lo))) by lia.
  rewrite (skipn_cons_nth x00 l (S (S (S lo)))) by lia.
  do 4 (destruct n as [|n]; [lia|]). cbn [firstn].
  replace (lo + 1)%nat with (S lo) by lia.
  replace (lo + 2)%nat with (S (S lo)) by lia.
  replace (lo + 3)%nat with (S (S (S lo))) by lia.
  eexists. reflexivity.
Qed.

Lemma firstn_skipn_2 (l : list byte) (lo n : nat) :
  (2 <= n)%nat -> (lo + 2 <= List.length l)%nat ->
  exists rest,
    firstn n (skipn lo l) = byte_at l lo :: byte_at l (lo + 1) :: rest.
Proof.
  intros Hn Hl. unfold byte_at.
  rewrite (skipn_cons_nth x00 l lo) by lia.
  rewrite (skipn_cons_nth x00 l (S lo)) by lia.
  do 2 (destruct n as [|n]; [lia|]). cbn [firstn].
  replace (lo + 1)%nat with (S lo) by lia.
  eexists. reflexivity.
Qed.

Lemma lor_u16 (b0 b1 : byte) :
  Z.lor (byte_val b1) (Z.shiftl (byte_val b0) 8)
  = byte_val b0 * 2 ^ 8 + byte_val b1.
Proof.
  pose proof (byte_val_range b0). pose proof (byte_val_range b1).
  rewrite lor_shiftl_add by lia. lia.
Qed.

(** [binary.BigEndian.Uint32(data[lo:hi])] on a payload that reaches [hi]. *)
Lemma sub_u32 {B} (s : slice) (lo hi : Z) (f : Z -> M B) :
  0 <= lo -> lo + 4 <= hi ->
  hi <= Z.of_nat (List.length (slice_bytes s)) ->
  bind (sub_slice s lo hi) (fun b => bind (BigEndian_Uint32 b) f)
  = f (u32_at (slice_bytes s) (Z.to_nat lo)).
Proof.
  intros Hlo Hhi H. rewrite sub_slice_ok by lia. rewrite bind_ret_l.
  destruct (firstn_skipn_4 (slice_bytes s) (Z.to_nat lo) (Z.to_nat (hi - lo)))
    as [rest ->]; try lia.
  rewrite Uint32_be_value, bind_ret_l. reflexivity.
Qed.

(** [binary.BigEndian.Uint16(data[lo:hi])] on a payload that reaches [hi]. *)
Lemma sub_u16 {B} (s : slice) (lo hi : Z) (f : Z -> M B) :
  0 <= lo -> lo + 2 <= hi ->
  hi <= Z.of_nat (List.length (slice_bytes s)) ->
  bind (sub_slice s lo hi) (fun b => bind (BigEndian_Uint16 b) f)
  = f (u16_at (slice_bytes s) (Z.to_nat lo)).
Proof.
  intros Hlo Hhi H. rewrite sub_slice_ok by lia. rewrite bind_ret_l.
  destruct (firstn_skipn_2 (slice_bytes s) (Z.to_nat lo) (Z.to_nat (hi - lo)))
    as [rest ->]; try lia.
  unfold BigEndian_Uint16. rewrite lor_u16, bind_ret_l. reflexivity.
Qed.

Lemma index_bind_ok {B} (s : slice) (i : Z) (f : byte -> M B) :
  0 <= i < Z.of_nat (List.length (slice_bytes s)) ->
  bind (index s i) f = f (byte_at (slice_bytes s) (Z.to_nat i)).
Proof. intros H. now rewrite index_ok, bind_ret_l. Qed.

Lemma index_bind_short {B} (s : slice) (i : Z) (f : byte -> M B) :
  Z.of_nat (List.length (slice_bytes s)) <= i ->
  bind (index s i) f = panic IndexOutOfRange.
Proof. intros H. now rewrite index_short. Qed.

Lemma read_flags_ok {B} (s : slice) (f : list byte -> M B) :
  4 <= Z.of_nat (List.length (slice_bytes s)) ->
  bind (read_flags s) f = f (flags_of (slice_bytes s)).
Proof.
  intros H. unfold read_flags.
  rewrite !bind_assoc, index_bind_ok by lia.
  rewrite !bind_assoc, index_bind_ok by lia.
  rewrite !bind_assoc, index_bind_ok by lia.
  now rewrite bind_ret_l.
Qed.

Lemma read_flags_short {B} (s : slice) (f : list byte -> M B) :
  Z.of_nat (List.length (slice_bytes s)) < 4 ->
  bind (read_flags s) f = panic IndexOutOfRange.
Proof.
  intros H. unfold read_flags. rewrite !bind_assoc.
  destruct (Z_lt_ge_dec 1 (Z.of_nat (List.length (slice_bytes s))));
    [rewrite index_bind_ok by lia|now rewrite index_bind_short by lia].
  rewrite !bind_assoc.
  destruct (Z_lt_ge_dec 2 (Z.of_nat (List.length (slice_bytes s))));
    [rewrite index_bind_ok by lia|now rewrite index_bind_short by lia].
  rewrite !bind_assoc. now rewrite index_bind_short by lia.
Qed.

(** Splitting a decoder into the read of its payload and the rest. *)
Lemma result_after_read {A B} (c : M A) (f : A -> M B) (a : A) :
  result c = Ok a -> result (bind c f) = result (f a).
Proof. intros H. now rewrite result_bind, H. Qed.

(** ** The layouts the decoders read *)

Ltac decode_step :=
  first [ rewrite index_bind_ok by lia
        | rewrite read_flags_ok by lia
        | rewrite sub_u32 by lia
        | rewrite sub_u16 by lia
        | rewrite sub_slice_ok, bind_ret_l by lia ].

Ltac decode_fail :=
  first [ rewrite index_bind_short by lia
        | rewrite read_flags_short by lia
        | rewrite sub_slice_short by lia ].

Ltac decode_split :=
  match goal with
  | |- context [sub_slice ?s _ ?hi] =>
      destruct (Z_lt_ge_dec (Z.of_nat (List.length (slice_bytes s))) hi)
  end.

Ltac decode := repeat first [ decode_step | decode_fail | decode_split ].

(** X4: [MovieHeaderBox.parse] needs a payload of 26 bytes.  On one it
    returns the version byte, the big-endian numbers at the offsets 12
    (timescale), 16 (duration) and 20 (rate, the whole 16.16 field) and the
    16-bit number at 24 (volume, the whole 8.8 field); flags and the two
    times stay 0.  On a shorter payload it panics: index out of range when
    the payload is empty or nil, slice bounds out of range otherwise. *)
Theorem MovieHeaderBox_parse_layout (m : Mp4Reader.t) (box : Box.t) (data : slice) :
  result (Box_ReadBoxData m box) = Ok data ->
  let l := slice_bytes data in
  result (MovieHeaderBox_parse m box)
  = if 26 <=? Z.of_nat (List.length l)
    then Ok (MovieHeaderBox.mk box (byte_at l 0) 0 0 0
               (u32_at l 12) (u32_at l 16) (u32_at l 20) (u16_at l 24))
    else if Z.of_nat (List.length l) =? 0
         then Panic IndexOutOfRange
         else Panic SliceBoundsOutOfRange.
Proof.
  intros H l. unfold MovieHeaderBox_parse, fixed32, fixed16.
  rewrite (result_after_read _ _ data H). subst l.
  destruct (26 <=? _) eqn:E; [apply Z.leb_le in E|apply Z.leb_gt in E].
  - decode. reflexivity.
  - destruct (_ =? 0) eqn:E0; [apply Z.eqb_eq in E0|apply Z.eqb_neq in E0].
    + now rewrite index_bind_short by lia.
    + rewrite index_bind_ok by lia. decode; try reflexivity; lia.
Qed.

Lemma MovieHeaderBox_parse_layout_witness :
  result (MovieHeaderBox_parse
            (reader_of (mkbox "mvhd" (mvhd_payload 1000 3000 98304 384)))
            (Box.mk "mvhd" 104 0))
  = Ok (MovieHeaderBox.mk (Box.mk "mvhd" 104 0) x00 0 0 0 1000 3000 98304 384).
Proof.
  refine (MovieHeaderBox_parse_layout
            (reader_of (mkbox "mvhd" (mvhd_payload 1000 3000 98304 384)))
            (Box.mk "mvhd" 104 0)
            (Some (mvhd_payload 1000 3000 98304 384)) _).
  vm_compute. reflexivity.
Defined.

(** X5: [TrackHeaderBox.parse] needs a payload of 84 bytes.  On one it
    returns the big-endian numbers at the offsets 4, 8, 12, 16, 20 (32 bits)
    and 32, 34, 36 (16 bits); width and height are the 16-bit numbers at 76
    and 80, the upper halves of the 16.16 fields, whatever the bytes 78, 79,
    82 and 83 hold.  On a shorter payload it panics: index out of range
    below 4 bytes, slice bounds out of range from 4 to 83 bytes. *)
Theorem TrackHeaderBox_parse_layout (m : Mp4Reader.t) (box : Box.t) (data : slice) :
  result (Box_ReadBoxData m box) = Ok data ->
  let l := slice_bytes data in
  result (TrackHeaderBox_parse m box)
  = if 84 <=? Z.of_nat (List.length l)
    then Ok (TrackHeaderBox.mk box (byte_at l 0) (flags_of l)
               (u32_at l 4) (u32_at l 8) (u32_at l 12) (u32_at l 16) (u32_at l 20)
               (u16_at l 32) (u16_at l 34) (u16_at l 36)
               (u16_at l 76) (u16_at l 80))
    else if Z.of_nat (List.length l) <? 4
         then Panic IndexOutOfRange
         else Panic SliceBoundsOutOfRange.
Proof.
  intros H l. unfold TrackHeaderBox_parse, fixed16.
  rewrite (result_after_read _ _ data H). subst l.
  destruct (84 <=? _) eqn:E; [apply Z.leb_le in E|apply Z.leb_gt in E].
  - decode. reflexivity.
  - destruct (_ <? 4) eqn:E0; [apply Z.ltb_lt in E0|apply Z.ltb_ge in E0].
    + destruct (Z.eq_dec (Z.of_nat (List.length (slice_bytes data))) 0).
      * now rewrite index_bind_short by lia.
      * rewrite index_bind_ok by lia. now rewrite read_flags_short by lia.
    + decode; try reflexivity; lia.
Qed.

Lemma TrackHeaderBox_parse_layout_witness :
  result (TrackHeaderBox_parse
            (tkhd_reader [1; 64; 128; 0] [0; 240; 64; 0]) tkhd_at_0)
  = Ok (TrackHeaderBox.mk tkhd_at_0 x00 [x00; x00; x00] 0 0 1 0 0 0 0 0 320 240).
Proof.
  refine (TrackHeaderBox_parse_layout
            (tkhd_reader [1; 64; 128; 0] [0; 240; 64; 0]) tkhd_at_0
            (Some (tkhd_payload [1; 64; 128; 0] [0; 240; 64; 0])) _).
  vm_compute. reflexivity.
Defined.

(** X6: [MediaHeaderBox.parse] needs a payload of 21 bytes.  On one, the
    timescale it returns is the number at offset 8, the same bytes as the
    modification time, the duration is the number at offset 12 and
    [PreDefined] the 16-bit number at offset 19: in every decoded media
    header [Timescale] equals [ModificationTime].  On a shorter payload it
    panics: index out of range below 4 bytes, slice bounds out of range from
    4 to 20 bytes. *)
Theorem MediaHeaderBox_parse_layout (m : Mp4Reader.t) (box : Box.t) (data : slice) :
  result (Box_ReadBoxData m box) = Ok data ->
  let l := slice_bytes data in
  result (MediaHeaderBox_parse m box)
  = if 21 <=? Z.of_nat (List.length l)
    then Ok (MediaHeaderBox.mk box (byte_at l 0) (flags_of l)
               (u32_at l 4) (u32_at l 8) (u32_at l 8) (u32_at l 12) (u16_at l 19))
    else if Z.of_nat (List.length l) <? 4
         then Panic IndexOutOfRange
         else Panic SliceBoundsOutOfRange.
Proof.
  intros H l. unfold MediaHeaderBox_parse.
  rewrite (result_after_read _ _ data H). subst l.
  destruct (21 <=? _) eqn:E; [apply Z.leb_le in E|apply Z.leb_gt in E].
  - decode. reflexivity.
  - destruct (_ <? 4) eqn:E0; [apply Z.ltb_lt in E0|apply Z.ltb_ge in E0].
    + destruct (Z.eq_dec (Z.of_nat (List.length (slice_bytes data))) 0).
      * now rewrite index_bind_short by lia.
      * rewrite index_bind_ok by lia. now rewrite read_flags_short by lia.
    + decode; try reflexivity; lia.
Qed.

Lemma MediaHeaderBox_parse_layout_witness :
  result (MediaHeaderBox_parse
            (reader_of (mkbox "mdhd" (zeros 8 ++ be32 7 ++ be32 90000 ++ zeros 8)))
            (Box.mk "mdhd" 32 0))
  = Ok (MediaHeaderBox.mk (Box.mk "mdhd" 32 0) x00 [x00; x00; x00] 0 7 7 90000 0).
Proof.
  refine (MediaHeaderBox_parse_layout
            (reader_of (mkbox "mdhd" (zeros 8 ++ be32 7 ++ be32 90000 ++ zeros 8)))
            (Box.mk "mdhd" 32 0)
            (Some (zeros 8 ++ be32 7 ++ be32 90000 ++ zeros 8)) _).
  vm_compute. reflexivity.
Defined.

(** X7: [HandlerBox.parse] needs a payload of 12 bytes.  On one, [TypeName]
    is the string of the bytes 8 to 11 and [HandlerType] the big-endian
    number of the same four bytes.  On a shorter payload it panics: index
    out of range below 4 bytes, slice bounds out of range from 4 to 11
    bytes. *)
Theorem HandlerBox_parse_layout (m : Mp4Reader.t) (box : Box.t) (data : slice) :
  result (Box_ReadBoxData m box) = Ok data ->
  let l := slice_bytes data in
  result (HandlerBox_parse m box)
  = if 12 <=? Z.of_nat (List.length l)
    then Ok (HandlerBox.mk box (byte_at l 0) (flags_of l)
               (u32_at l 4) (u32_at l 8)
               (string_of_list_byte (firstn 4 (skipn 8 l))))
    else if Z.of_nat (List.length l) <? 4
         then Panic IndexOutOfRange
         else Panic SliceBoundsOutOfRange.
Proof.
  intros H l. unfold HandlerBox_parse.
  rewrite (result_after_read _ _ data H). subst l.
  destruct (12 <=? _) eqn:E; [apply Z.leb_le in E|apply Z.leb_gt in E].
  - decode. reflexivity.
  - destruct (_ <? 4) eqn:E0; [apply Z.ltb_lt in E0|apply Z.ltb_ge in E0].
    + destruct (Z.eq_dec (Z.of_nat (List.length (slice_bytes data))) 0).
      * now rewrite index_bind_short by lia.
      * rewrite index_bind_ok by lia. now rewrite read_flags_short by lia.
    + decode; try reflexivity; lia.
Qed.

Lemma HandlerBox_parse_layout_witness :
  result (HandlerBox_parse (reader_of (mkbox "hdlr" (hdlr_payload "vide")))
            (Box.mk "hdlr" 33 0))
  = Ok (HandlerBox.mk (Box.mk "hdlr" 33 0) x00 [x00; x00; x00] 0 1986618469 "vide").
Proof.
  refine (HandlerBox_parse_layout (reader_of (mkbox "hdlr" (hdlr_payload "vide")))
            (Box.mk "hdlr" 33 0) (Some (hdlr_payload "vide")) _).
  vm_compute. reflexivity.
Defined.

Lemma count_loop_bind {B} (count : Z) (f : unit -> M B) :
  bind (count_loop count) f = if count =? uint32_max then timeout else f tt.
Proof.
  unfold count_loop. destruct (count =? uint32_max); [reflexivity|].
  apply bind_ret_l.
Qed.

(** X8: [SampleSizeBox.parse] needs a payload of 12 bytes and reads nothing
    after them: it returns the sample size (offset 4) and the sample count
    (offset 8), and no entry of the size table.  With the sample count
    4294967295 its counting loop never ends.  On a shorter payload it
    panics: index out of range below 4 bytes, slice bounds out of range from
    4 to 11 bytes. *)
Theorem SampleSizeBox_parse_layout (m : Mp4Reader.t) (box : Box.t) (data : slice) :
  result (Box_ReadBoxData m box) = Ok data ->
  let l := slice_bytes data in
  result (SampleSizeBox_parse m box)
  = if 12 <=? Z.of_nat (List.length l)
    then if u32_at l 8 =? uint32_max
         then Timeout
         else Ok (SampleSizeBox.mk box (byte_at l 0) (flags_of l)
                    (u32_at l 4) (u32_at l 8))
    else if Z.of_nat (List.length l) <? 4
         then Panic IndexOutOfRange
         else Panic SliceBoundsOutOfRange.
Proof.
  intros H l. unfold SampleSizeBox_parse.
  rewrite (result_after_read _ _ data H). subst l.
  destruct (12 <=? _) eqn:E; [apply Z.leb_le in E|apply Z.leb_gt in E].
  - decode. rewrite count_loop_bind.
    change (Z.to_nat 8) with 8%nat.
    destruct (u32_at (slice_bytes data) 8 =? uint32_max); reflexivity.
  - destruct (_ <? 4) eqn:E0; [apply Z.ltb_lt in E0|apply Z.ltb_ge in E0].
    + destruct (Z.eq_dec (Z.of_nat (List.length (slice_bytes data))) 0).
      * now rewrite index_bind_short by lia.
      * rewrite index_bind_ok by lia. now rewrite read_flags_short by lia.
    + decode; try reflexivity; lia.
Qed.

Lemma SampleSizeBox_parse_layout_witness :
  result (SampleSizeBox_parse
            (reader_of (mkbox "stsz" (stsz_payload 0 example_sizes)))
            (Box.mk "stsz" 32 0))
  = Ok (SampleSizeBox.mk (Box.mk "stsz" 32 0) x00 [x00; x00; x00] 0 3).
Proof.
  refine (SampleSizeBox_parse_layout
            (reader_of (mkbox "stsz" (stsz_payload 0 example_sizes)))
            (Box.mk "stsz" 32 0) (Some (stsz_payload 0 example_sizes)) _).
  vm_compute. reflexivity.
Defined.

(** X9: [SampleToChunkBox.parse] and [ChunkOffsetBox.parse] need a payload of
    8 bytes and read nothing after them: each returns the entry count
    (offset 4) and no entry of its table.  With the entry count 4294967295
    the counting loop never ends.  On a shorter payload they panic: index
    out of range below 4 bytes, slice bounds out of range from 4 to 7
    bytes. *)
Theorem entry_count_boxes_layout (m : Mp4Reader.t) (box : Box.t) (data : slice) :
  result (Box_ReadBoxData m box) = Ok data ->
  let l := slice_bytes data in
  result (SampleToChunkBox_parse m box)
  = (if 8 <=? Z.of_nat (List.length l)
     then if u32_at l 4 =? uint32_max
          then Timeout
          else Ok (SampleToChunkBox.mk box (byte_at l 0) (flags_of l) (u32_at l 4))
     else if Z.of_nat (List.length l) <? 4
          then Panic IndexOutOfRange
          else Panic SliceBoundsOutOfRange)
  /\ result (ChunkOffsetBox_parse m box)
     = (if 8 <=? Z.of_nat (List.length l)
        then if u32_at l 4 =? uint32_max
             then Timeout
             else Ok (ChunkOffsetBox.mk box (byte_at l 0) (flags_of l) (u32_at l 4))
        else if Z.of_nat (List.length l) <? 4
             then Panic IndexOutOfRange
             else Panic SliceBoundsOutOfRange).
Proof.
  intros H l. unfold SampleToChunkBox_parse, ChunkOffsetBox_parse.
  rewrite !(result_after_read _ _ data H). subst l.
  destruct (8 <=? _) eqn:E; [apply Z.leb_le in E|apply Z.leb_gt in E].
  - split; decode; rewrite count_loop_bind; change (Z.to_nat 4) with 4%nat;
      destruct (u32_at (slice_bytes data) 4 =? uint32_max); reflexivity.
  - destruct (_ <? 4) eqn:E0; [apply Z.ltb_lt in E0|apply Z.ltb_ge in E0].
    + destruct (Z.eq_dec (Z.of_nat (List.length (slice_bytes data))) 0).
      * split; now rewrite index_bind_short by lia.
      * split; rewrite index_bind_ok by lia; now rewrite read_flags_short by lia.
    + split; decode; try reflexivity; lia.
Qed.

Lemma entry_count_boxes_layout_witness :
  result (ChunkOffsetBox_parse
            (reader_of (mkbox "stco" (stco_payload example_offsets)))
            (Box.mk "stco" 24 0))
  = Ok (ChunkOffsetBox.mk (Box.mk "stco" 24 0) x00 [x00; x00; x00] 2).
Proof.
  refine (proj2 (entry_count_boxes_layout
                   (reader_of (mkbox "stco" (stco_payload example_offsets)))
                   (Box.mk "stco" 24 0) (Some (stco_payload example_offsets)) _)).
  vm_compute. reflexivity.
Defined.

(** ** The file type box *)

Lemma brands_loop_spec (n : nat) :
  forall (l : list byte) (acc : list string),
    List.length l = n ->
    brands_loop l acc
    = if (Z.of_nat (List.length l) mod 4 =? 0)
      then ret (acc ++ brand_chunks l)
      else panic SliceBoundsOutOfRange.
Proof.
  induction n as [n IH] using lt_wf_ind. intros l acc Hn.
  destruct l as [|b0 [|b1 [|b2 [|b3 rest]]]]; try reflexivity.
  - cbn. now rewrite app_nil_r.
  - cbn [brands_loop brand_chunks].
    rewrite (IH (List.length rest)) by (cbn in Hn; lia || reflexivity).
    replace (Z.of_nat (List.length (b0 :: b1 :: b2 :: b3 :: rest)) mod 4)
      with (Z.of_nat (List.length rest) mod 4).
    + destruct (_ =? 0); [|reflexivity]. now rewrite <- app_assoc.
    + cbn [List.length]. rewrite !Nat2Z.inj_succ.
      replace (Z.succ (Z.succ (Z.succ (Z.succ (Z.of_nat (List.length rest))))))
        with (Z.of_nat (List.length rest) + 1 * 4) by lia.
      now rewrite Z.mod_add by lia.
Qed.

Lemma slice_from_ok (s : slice) (lo : Z) :
  0 < lo <= Z.of_nat (List.length (slice_bytes s)) ->
  slice_from s lo = ret (skipn (Z.to_nat lo) (slice_bytes s)).
Proof.
  intros H. unfold slice_from. rewrite slice_len_bytes.
  assert (E : (lo <=? Z.of_nat (List.length (slice_bytes s))) = true)
    by (apply Z.leb_le; lia).
  rewrite E. destruct s; [reflexivity|]. cbn in H. lia.
Qed.

Lemma FtypBox_parse_layout_spec (m : Mp4Reader.t) (box : Box.t) (data : slice) :
  result (Box_ReadBoxData m box) = Ok data ->
  let l := slice_bytes data in
  result (FtypBox_parse m box)
  = if (8 <=? Z.of_nat (List.length l)) && (Z.of_nat (List.length l) mod 4 =? 0)
    then Ok (FtypBox.mk box (string_of_list_byte (firstn 4 l)) (u32_at l 4)
               (brand_chunks (skipn 8 l)))
    else Panic SliceBoundsOutOfRange.
Proof.
  intros H l. unfold FtypBox_parse.
  rewrite (result_after_read _ _ data H). subst l.
  set (l := slice_bytes data).
  destruct (8 <=? _) eqn:E; [apply Z.leb_le in E|apply Z.leb_gt in E];
    cbn [andb].
  - rewrite sub_slice_ok, bind_ret_l by (fold l; lia).
    rewrite sub_u32 by (fold l; lia). fold l.
    rewrite slice_len_bytes. fold l.
    destruct (8 <? Z.of_nat (List.length l)) eqn:E8;
      [apply Z.ltb_lt in E8|apply Z.ltb_ge in E8].
    + rewrite slice_from_ok by (fold l; lia). fold l.
      rewrite bind_ret_l.
      rewrite (brands_loop_spec _ _ _ eq_refl).
      rewrite length_skipn.
      replace (Z.of_nat (List.length l - Z.to_nat 8) mod 4)
        with (Z.of_nat (List.length l) mod 4).
      * destruct (_ =? 0); reflexivity.
      * replace (Z.of_nat (List.length l))
          with (Z.of_nat (List.length l - Z.to_nat 8) + 2 * 4) by lia.
        now rewrite Z.mod_add by lia.
    + assert (Hl : Z.of_nat (List.length l) = 8) by lia.
      rewrite Hl. change (8 mod 4 =? 0) with true.
      rewrite bind_ret_l.
      rewrite (skipn_all2 (n := 8) l) by lia. reflexivity.
  - destruct (Z_lt_ge_dec (Z.of_nat (List.length l)) 4).
    + now rewrite sub_slice_short by (fold l; lia).
    + rewrite sub_slice_ok, bind_ret_l by (fold l; lia).
      now rewrite sub_slice_short by (fold l; lia).
Qed.

(** X10: [FtypBox.parse] returns exactly when the payload has at least 8
    bytes and a length that is a multiple of 4: the major brand is the
    string of the first four bytes, the minor version the number at offset
    4, the compatible brands the strings of the groups of four bytes from
    offset 8 on (none for a payload of 8 bytes).  On any other payload,
    shorter than 8 bytes or with 1 to 3 bytes left over, it panics with
    slice bounds out of range. *)
Theorem FtypBox_parse_layout (m : Mp4Reader.t) (box : Box.t) (data : slice) :
  result (Box_ReadBoxData m box) = Ok data ->
  let l := slice_bytes data in
  result (FtypBox_parse m box)
  = if (8 <=? Z.of_nat (List.length l)) && (Z.of_nat (List.length l) mod 4 =? 0)
    then Ok (FtypBox.mk box (string_of_list_byte (firstn 4 l)) (u32_at l 4)
               (brand_chunks (skipn 8 l)))
    else Panic SliceBoundsOutOfRange.
Proof. exact (FtypBox_parse_layout_spec m box data). Qed.

Lemma FtypBox_parse_layout_witness :
  result (FtypBox_parse (reader_of ftyp_box) (Box.mk "ftyp" 24 0))
  = Ok (FtypBox.mk (Box.mk "ftyp" 24 0) "isom" 512 ["isom"%string; "iso2"%string]).
Proof.
  refine (FtypBox_parse_layout (reader_of ftyp_box) (Box.mk "ftyp" 24 0)
            (Some (ftyp_payload "isom" 512 ["isom"%string; "iso2"%string])) _).
  vm_compute. reflexivity.
Defined.

Lemma brand_chunks_flat_map (brands : list string) :
  Forall (fun s => String.length s = 4%nat) brands ->
  brand_chunks (flat_map list_byte_of_string brands) = brands
  /\ List.length (flat_map list_byte_of_string brands) = (4 * List.length brands)%nat.
Proof.
  induction 1 as [|s rest Hs Hrest [IH1 IH2]]; [split; reflexivity|].
  cbn [flat_map].
  destruct (length4 (list_byte_of_string s)) as (c0 & c1 & c2 & c3 & Hc).
  { now rewrite length_list_byte_of_string. }
  rewrite Hc. cbn [app brand_chunks List.length]. rewrite IH1, IH2. split.
  - f_equal. rewrite <- Hc. apply string_of_list_byte_of_string.
  - lia.
Qed.

(** X11: a file type box written with a four-character major brand, a minor
    version below 2^32 and any list of four-character compatible brands
    decodes to exactly that brand, version and list. *)
Theorem FtypBox_parse_round_trip (m : Mp4Reader.t) (pre post : list byte)
    (major : string) (minor : Z) (brands : list string) :
  String.length major = 4%nat ->
  0 <= minor < 2 ^ 32 ->
  Forall (fun s => String.length s = 4%nat) brands ->
  8 + Z.of_nat (List.length (ftyp_payload major minor brands)) < 2 ^ 32 ->
  Z.of_nat (List.length pre) < 2 ^ 62 ->
  Mp4Reader.Reader m = pre ++ mkbox "ftyp" (ftyp_payload major minor brands) ++ post ->
  let box := Box.mk "ftyp" (8 + Z.of_nat (List.length (ftyp_payload major minor brands)))
                    (Z.of_nat (List.length pre)) in
  result (FtypBox_parse m box) = Ok (FtypBox.mk box major minor brands).
Proof.
  intros Hmajor Hminor Hbrands Hsize Hpre Hfile box.
  destruct (length4 (list_byte_of_string major)) as (c0 & c1 & c2 & c3 & Hc).
  { now rewrite length_list_byte_of_string. }
  destruct (be32_value minor Hminor) as (b0 & b1 & b2 & b3 & Hbe & Hval).
  destruct (brand_chunks_flat_map brands Hbrands) as [Hchunks Hlen].
  assert (Hpay : ftyp_payload major minor brands
                 = c0 :: c1 :: c2 :: c3 :: b0 :: b1 :: b2 :: b3
                   :: flat_map list_byte_of_string brands).
  { unfold ftyp_payload. now rewrite Hc, Hbe. }
  assert (Hread : result (Box_ReadBoxData m box)
                  = Ok (Some (ftyp_payload major minor brands))).
  { unfold box. rewrite (ReadBoxData_mkbox_spec m pre post _ "ftyp");
      [reflexivity| |rewrite Hpay; discriminate|assumption|assumption].
    split; [reflexivity|exact Hsize]. }
  rewrite (FtypBox_parse_layout_spec m box _ Hread). cbn [slice_bytes].
  rewrite Hpay. cbn [firstn skipn List.length].
  rewrite Hlen, Hchunks.
  assert (E1 : (8 <=? Z.of_nat (S (S (S (S (S (S (S (S (4 * List.length brands))))))))))
               = true) by (apply Z.leb_le; lia).
  assert (E2 : (Z.of_nat (S (S (S (S (S (S (S (S (4 * List.length brands))))))))) mod 4
                =? 0) = true).
  { apply Z.eqb_eq.
    replace (Z.of_nat (S (S (S (S (S (S (S (S (4 * List.length brands))))))))))
      with (0 + (2 + Z.of_nat (List.length brands)) * 4) by lia.
    now rewrite Z.mod_add by lia. }
  rewrite E1, E2. cbn [andb].
  do 2 f_equal.
  - rewrite <- Hc. apply string_of_list_byte_of_string.
  - unfold u32_at, byte_at. cbn [nth Nat.add]. exact Hval.
Qed.

Lemma FtypBox_parse_round_trip_witness :
  result (FtypBox_parse (reader_of ftyp_box) (Box.mk "ftyp" 24 0))
  = Ok (FtypBox.mk (Box.mk "ftyp" 24 0) "isom" 512 ["isom"%string; "iso2"%string]).
Proof.
  refine (FtypBox_parse_round_trip (reader_of ftyp_box) [] [] "isom" 512
            ["isom"%string; "iso2"%string] _ _ _ _ _ _).
  - reflexivity.
  - lia.
  - repeat constructor.
  - cbn. lia.
  - cbn. lia.
  - vm_compute. reflexivity.
Defined.

(** ** What a scan returns *)

Lemma scanned_covers (m : Mp4Reader.t) (stop offset : Z) (l : list Box.t) :
  scanned m stop offset l ->
  int64_range stop -> int64_range offset ->
  Forall (fun b => offset <= Box.Start b < stop) l /\
  (forall pre b, l = pre ++ [b] -> stop <= Box.Start b + Box.Size b).
Proof.
  induction 1 as [offset Hge|offset size name rest Hlt Hrd Hsc IH];
    intros Hstop Hoff.
  - split; [constructor|]. intros [|? ?] b H; discriminate.
  - assert (Hhd : 0 <= offset /\ 0 <= size < 2 ^ 32).
    { destruct (ReadBoxAt_cases m offset) as [(s & n & E & Hs & Ho & _)|E];
        unfold result in Hrd; rewrite E in Hrd; cbn in Hrd; [|discriminate].
      inversion Hrd; subst. lia. }
    destruct (IH Hstop (wrap64_range _)) as [IHall IHlast].
    destruct rest as [|b' rest'].
    + split; [constructor; [cbn; lia|constructor]|].
      intros pre b Hl. destruct pre as [|? [|? ?]]; try discriminate.
      inversion Hl; subst. cbn.
      inversion Hsc as [? Hend|]; subst.
      unfold int64_range in *. unfold add64 in Hend.
      destruct (Z_lt_ge_dec (offset + size) (2 ^ 63)) as [Hsmall|Hbig].
      * rewrite wrap64_id in Hend by (unfold int64_range; lia). lia.
      * lia.
    + pose proof (scanned_head_nonneg _ _ _ _ _ Hsc) as (Hb' & Hnext & _).
      assert (Hadd : add64 offset size = offset + size).
      { unfold add64.
        destruct (Z_lt_ge_dec (offset + size) (2 ^ 63)) as [Hsmall|Hbig].
        - apply wrap64_id. unfold int64_range in *. lia.
        - unfold add64 in Hnext. rewrite wrap64_overflow in Hnext;
            unfold int64_range in *; lia. }
      rewrite Hadd in IHall. split.
      * constructor; [cbn; lia|].
        eapply Forall_impl; [|exact IHall]. cbn. intros b Hb. lia.
      * intros pre b Hl. destruct pre as [|p pre].
        { discriminate. }
        inversion Hl; subst. eapply IHlast. eassumption.
Qed.

(** X12: the end of the range a scan covers is [start+n] as 64-bit
    arithmetic computes it.  Every box the scan returns starts at or after
    [start] and before that end, and the last one ends at or past it: the
    boxes returned cover the range from [start] on.  The scan returns no box
    exactly when that end is not above [start]; when [start+n] does not
    overflow, that is exactly when n <= 0. *)
Theorem readBoxes_covers_range (fuel : nat) (m : Mp4Reader.t) (start n : Z)
    (l : list Box.t) :
  int64_range start ->
  result (readBoxes fuel m start n) = Ok l ->
  Forall (fun b => start <= Box.Start b < add64 start n) l /\
  (forall pre b, l = pre ++ [b] -> add64 start n <= Box.Start b + Box.Size b) /\
  (l = [] <-> add64 start n <= start) /\
  (int64_range (start + n) -> (l = [] <-> n <= 0)).
Proof.
  intros Hstart H.
  destruct (readBoxes fuel m start n) as [r t] eqn:E. cbn in H. subst r.
  apply readBoxes_scanned in E. destruct E as [Hsc _].
  destruct (scanned_covers _ _ _ _ Hsc (wrap64_range _) Hstart) as [Hall Hlast].
  split; [exact Hall|]. split; [exact Hlast|].
  assert (Hempty : l = [] <-> add64 start n <= start).
  { split.
    - intros ->. inversion Hsc. assumption.
    - intros Hle. inversion Hsc as [|? ? ? ? Hlt]; [reflexivity|lia]. }
  split; [exact Hempty|].
  intros Hsum. unfold add64 in Hempty. rewrite wrap64_id in Hempty by assumption.
  rewrite Hempty. lia.
Qed.

Lemma readBoxes_covers_range_witness :
  Forall (fun b => 0 <= Box.Start b < add64 0 18)
         [Box.mk "free" 10 0; Box.mk "skip" 8 10].
Proof.
  refine (proj1 (readBoxes_covers_range 2 (reader_of two_boxes) 0 18 _ _ _)).
  - unfold int64_range. lia.
  - vm_compute. reflexivity.
Defined.

Lemma scanned_no_zero_size (m : Mp4Reader.t) (stop : Z) (l : list Box.t) :
  forall offset,
    int64_range offset ->
    scanned m stop offset l ->
    Forall (fun b => Box.Size b <> 0) l.
Proof.
  induction l as [|b rest IH]; intros offset Hoff Hsc; [constructor|].
  inversion Hsc as [|? size name ? Hlt Hrd Hrest]; subst.
  constructor.
  - cbn. intros ->.
    unfold add64 in Hrest. rewrite Z.add_0_r, wrap64_id in Hrest by assumption.
    clear IH Hsc. induction rest as [|b' rest' IH'].
    + inversion Hrest. lia.
    + inversion Hrest as [|? size' name' ? _ Hrd' Hrest']; subst.
      rewrite Hrd in Hrd'. inversion Hrd'; subst.
      unfold add64 in Hrest'.
      rewrite Z.add_0_r, wrap64_id in Hrest' by assumption.
      now apply IH'.
  - eapply IH; [|exact Hrest]. apply wrap64_range.
Qed.

(** X13: no box a scan returns has size 0: every returned [Size] lies
    between 1 and 2^32 - 1. *)
Theorem readBoxes_sizes_positive (fuel : nat) (m : Mp4Reader.t) (start n : Z)
    (l : list Box.t) :
  int64_range start ->
  result (readBoxes fuel m start n) = Ok l ->
  Forall (fun b => 1 <= Box.Size b < 2 ^ 32) l.
Proof.
  intros Hstart H.
  destruct (readBoxes fuel m start n) as [r t] eqn:E. cbn in H. subst r.
  apply readBoxes_scanned in E. destruct E as [Hsc _].
  pose proof (scanned_no_zero_size _ _ _ _ Hstart Hsc) as Hnz.
  pose proof (scanned_as_declared _ _ _ _ Hsc) as Hdecl.
  rewrite Forall_forall in *. intros b Hb.
  specialize (Hnz b Hb). destruct (Hdecl b Hb) as [_ Hr]. lia.
Qed.

Lemma readBoxes_sizes_positive_witness :
  Forall (fun b => 1 <= Box.Size b < 2 ^ 32)
         [Box.mk "free" 10 0; Box.mk "skip" 8 10].
Proof.
  refine (readBoxes_sizes_positive 2 (reader_of two_boxes) 0 18 _ _ _).
  - unfold int64_range. lia.
  - vm_compute. reflexivity.
Defined.

(** X14: a header whose size field is 0, met at the start of a non-empty
    range, stops the scan from ever returning: whatever the number of
    iterations allowed, the loop is still at the same offset. *)
Theorem readBoxes_zero_size_loops (m : Mp4Reader.t) (start n : Z) (name : string) :
  int64_range start ->
  start < add64 start n ->
  result (Mp4Reader_ReadBoxAt m start) = Ok (0, name) ->
  forall fuel,
    result (readBoxes fuel m start n) = Timeout /\
    reads (readBoxes fuel m start n) = repeat (ReadEv start 8) fuel.
Proof.
  intros Hstart Hlt Hrd fuel. unfold readBoxes.
  split; [now apply (readBoxes_loop_zero_size _ _ _ name)|].
  induction fuel as [|fuel IH].
  - cbn [readBoxes_loop]. apply Z.ltb_lt in Hlt. now rewrite Hlt.
  - rewrite readBoxes_loop_step by assumption.
    destruct (ReadBoxAt_cases m start) as [(s & nm & E & _)|E];
      rewrite E in Hrd; cbn in Hrd; [|discriminate].
    inversion Hrd; subst. rewrite E, bind_Ok.
    replace (add64 start 0) with start
      by (unfold add64; now rewrite Z.add_0_r, wrap64_id).
    cbn [reads snd]. unfold reads in IH.
    destruct (readBoxes_loop fuel m (add64 start n) start []) as [[rest| |] t];
      cbn in *; rewrite IH; try reflexivity.
    now rewrite app_nil_r.
Qed.

Lemma readBoxes_zero_size_loops_witness :
  result (readBoxes 3 (reader_of zero_size_box) 0 8) = Timeout /\
  reads (readBoxes 3 (reader_of zero_size_box) 0 8)
  = [ReadEv 0 8; ReadEv 0 8; ReadEv 0 8].
Proof.
  refine (readBoxes_zero_size_loops (reader_of zero_size_box) 0 8 "mdat" _ _ _ 3).
  - unfold int64_range. lia.
  - vm_compute. reflexivity.
  - vm_compute. reflexivity.
Defined.

(** ** Loops over boxes *)

Lemma result_bind_inv {A B} (c : M A) (f : A -> M B) (b : B) :
  result (bind c f) = Ok b ->
  exists a, result c = Ok a /\ result (f a) = Ok b.
Proof.
  rewrite result_bind. destruct (result c) as [a| |]; try discriminate.
  intros H. now exists a.
Qed.

Lemma range_boxes_app {S} (body : S -> Box.t -> M S) (l1 l2 : list Box.t) (s : S) :
  range_boxes body (l1 ++ l2) s
  = bind (range_boxes body l1 s) (range_boxes body l2).
Proof.
  revert s. induction l1 as [|c l1 IH]; intros s; cbn [app range_boxes].
  - now rewrite bind_ret_l.
  - rewrite bind_assoc.
    destruct (body s c) as [[s'| |] t]; try reflexivity.
    rewrite !bind_Ok. now rewrite IH.
Qed.

Lemma range_boxes_filter {S} (body : S -> Box.t -> M S) (known : Box.t -> bool) :
  (forall s c, known c = false -> body s c = ret s) ->
  forall boxes s,
    range_boxes body boxes s = range_boxes body (filter known boxes) s.
Proof.
  intros Hskip. induction boxes as [|c rest IH]; intros s; [reflexivity|].
  cbn [filter range_boxes]. destruct (known c) eqn:E.
  - cbn [range_boxes]. destruct (body s c) as [[s'| |] t]; try reflexivity.
    rewrite !bind_Ok. now rewrite IH.
  - rewrite (Hskip s c E), bind_ret_l. apply IH.
Qed.

Ltac unknown_tag H :=
  unfold tag_in in H; cbn [existsb] in H;
  repeat (apply orb_false_elim in H; destruct H as [?E H]);
  repeat match goal with E : String.eqb _ _ = false |- _ => rewrite E; clear E end;
  reflexivity.

(** X15: a box whose tag the loop at hand does not know is skipped without
    a read and without a change of the struct being filled, at every level
    of the tree: a parse gives the same outcome and performs the same reads
    as on the known children alone. *)
Theorem unknown_boxes_skipped (fuel : nat) (m : Mp4Reader.t) (boxes : list Box.t) :
  (forall r, range_boxes (Parse_body fuel) boxes r
             = range_boxes (Parse_body fuel)
                 (filter (tag_in ["ftyp"; "moov"; "mdat"]%string) boxes) r) /\
  (forall b, range_boxes (MovieBox_body fuel m) boxes b
             = range_boxes (MovieBox_body fuel m)
                 (filter (tag_in ["mvhd"; "trak"]%string) boxes) b) /\
  (forall b, range_boxes (TrackBox_body fuel m) boxes b
             = range_boxes (TrackBox_body fuel m)
                 (filter (tag_in ["tkhd"; "mdia"]%string) boxes) b) /\
  (forall b, range_boxes (MediaBox_body fuel m) boxes b
             = range_boxes (MediaBox_body fuel m)
                 (filter (tag_in ["mdhd"; "hdlr"; "minf"]%string) boxes) b) /\
  (forall b, range_boxes (MediaInformationBox_body fuel m) boxes b
             = range_boxes (MediaInformationBox_body fuel m)
                 (filter (tag_in ["vmhd"; "smhd"; "hmhd"; "stbl"]%string) boxes) b) /\
  (forall b, range_boxes (SampleTableBox_body m) boxes b
             = range_boxes (SampleTableBox_body m)
                 (filter (tag_in ["stsz"; "stsc"; "stco"]%string) boxes) b).
Proof.
  repeat split; intros s; apply range_boxes_filter; clear s;
    intros s c H.
  - unfold Parse_body. destruct s. unknown_tag H.
  - unfold MovieBox_body. destruct s. unknown_tag H.
  - unfold TrackBox_body. destruct s. unknown_tag H.
  - unfold MediaBox_body. destruct s. unknown_tag H.
  - unfold MediaInformationBox_body. destruct s. unknown_tag H.
  - unfold SampleTableBox_body. destruct s. unknown_tag H.
Qed.

(** ** Empty containers *)

Lemma children_empty (fuel : nat) (m : Mp4Reader.t) (b : Box.t) :
  0 <= Box.Size b <= 8 ->
  0 <= Box.Start b < 2 ^ 62 ->
  children fuel m b = ret [].
Proof.
  intros Hsize Hstart. unfold children, readBoxes, add64, sub64, BoxHeaderSize.
  rewrite (wrap64_id (Box.Start b + 8)) by (unfold int64_range; lia).
  rewrite (wrap64_id (Box.Size b - 8)) by (unfold int64_range; lia).
  rewrite wrap64_id by (unfold int64_range; lia).
  apply readBoxes_loop_stop. lia.
Qed.

(** X16: a container box that is only a header (size at most 8) has no
    children: each of the five container decoders returns its struct with
    every child nil, without a single read. *)
Theorem empty_containers (fuel : nat) (m : Mp4Reader.t) (b : Box.t) :
  0 <= Box.Size b <= 8 ->
  0 <= Box.Start b < 2 ^ 62 ->
  MovieBox_parse fuel m b = ret (MovieBox.mk b None None) /\
  TrackBox_parse fuel m b = ret (TrackBox.mk b None None) /\
  MediaBox_parse fuel m b = ret (MediaBox.mk b None None None) /\
  MediaInformationBox_parse fuel m b
  = ret (MediaInformationBox.mk b None None None None) /\
  SampleTableBox_parse fuel m b = ret (SampleTableBox.mk b None None None).
Proof.
  intros Hsize Hstart.
  unfold MovieBox_parse, TrackBox_parse, MediaBox_parse,
    MediaInformationBox_parse, SampleTableBox_parse.
  rewrite (children_empty fuel m b Hsize Hstart), !bind_ret_l.
  repeat split.
Qed.

Lemma empty_containers_witness :
  MovieBox_parse 0 (reader_of (mkbox "moov" [])) (Box.mk "moov" 8 0)
  = ret (MovieBox.mk (Box.mk "moov" 8 0) None None).
Proof.
  refine (proj1 (empty_containers 0 (reader_of (mkbox "moov" []))
                   (Box.mk "moov" 8 0) _ _)); cbn; lia.
Defined.

(** ** What [Parse] keeps *)

Lemma range_boxes_invariant {S} (body : S -> Box.t -> M S) (P : S -> Prop)
    (Q : Box.t -> Prop) :
  (forall s c s', Q c -> P s -> result (body s c) = Ok s' -> P s') ->
  forall boxes s s',
    Forall Q boxes -> P s ->
    result (range_boxes body boxes s) = Ok s' -> P s'.
Proof.
  intros Hstep. induction boxes as [|c rest IH]; intros s s' HQ HP H.
  - cbn in H. inversion H. now subst.
  - inversion HQ as [|? ? Hc Hrest]; subst.
    cbn [range_boxes] in H. apply result_bind_inv in H.
    destruct H as (s1 & H1 & H2).
    eapply IH; [exact Hrest| |exact H2].
    eapply Hstep; eassumption.
Qed.

Lemma Forall_True {A} (l : list A) : Forall (fun _ => True) l.
Proof. induction l; constructor; auto. Qed.

Lemma Parse_body_source (fuel : nat) (m m' : Mp4Reader.t) (c : Box.t) :
  result (Parse_body fuel m c) = Ok m' ->
  Mp4Reader.Reader m' = Mp4Reader.Reader m /\ Mp4Reader.Size m' = Mp4Reader.Size m.
Proof.
  unfold Parse_body. destruct m as [r ftyp moov mdat size].
  destruct (String.eqb (Box.Name c) "ftyp");
    [|destruct (String.eqb (Box.Name c) "moov");
      [|destruct (String.eqb (Box.Name c) "mdat")]];
    intros H; try (apply result_bind_inv in H; destruct H as (x & _ & H));
    cbn in H; inversion H; split; reflexivity.
Qed.

(** The second half of [Parse] changes neither the byte source nor the
    size, and returns the error nil. *)
Lemma Parse_boxes_source (fuel : nat) (m m' : Mp4Reader.t) (e : error) :
  result (Parse_boxes fuel m) = Ok (m', e) ->
  Mp4Reader.Reader m' = Mp4Reader.Reader m /\
  Mp4Reader.Size m' = Mp4Reader.Size m /\ e = None.
Proof.
  unfold Parse_boxes. intros H.
  apply result_bind_inv in H. destruct H as (boxes & _ & H).
  apply result_bind_inv in H. destruct H as (m2 & H & Hret).
  cbn in Hret. inversion Hret; subst m2 e. clear Hret.
  assert (Hinv : Mp4Reader.Reader m' = Mp4Reader.Reader m /\
                 Mp4Reader.Size m' = Mp4Reader.Size m).
  { eapply (range_boxes_invariant (Parse_body fuel)
              (fun s => Mp4Reader.Reader s = Mp4Reader.Reader m /\
                        Mp4Reader.Size s = Mp4Reader.Size m)
              (fun _ => True)); [|apply Forall_True| |exact H].
    - intros s c s' _ [Hr Hs] Hb. apply Parse_body_source in Hb.
      destruct Hb as [Hr' Hs']. split; congruence.
    - split; reflexivity. }
  destruct Hinv as [Hr Hs]. repeat split; assumption.
Qed.

(** With size 0 the second half of [Parse] scans an empty range: it reads
    nothing and returns the reader as it is. *)
Lemma Parse_boxes_size_0 (fuel : nat) (m : Mp4Reader.t) :
  Mp4Reader.Size m = 0 -> Parse_boxes fuel m = (Ok (m, None), []).
Proof.
  intros E. unfold Parse_boxes, readBoxes. rewrite E.
  rewrite readBoxes_loop_stop by (vm_compute; discriminate).
  reflexivity.
Qed.

(** X17: [Parse] never changes the byte source of the reader.  The size it
    leaves is the size on entry when that is not 0; with size 0 on entry it
    is the size [Stat] reports, and it stays 0 when the reader is no
    [os.File] or [Stat] fails.  A reader left with size 0 has not been
    read from and is returned as it was on entry. *)
Theorem Parse_keeps_source (st : stat_answer) (fuel : nat) (m m' : Mp4Reader.t)
    (e : error) :
  result (Mp4Reader_Parse_os st fuel m) = Ok (m', e) ->
  Mp4Reader.Reader m' = Mp4Reader.Reader m /\
  Mp4Reader.Size m'
  = (if Mp4Reader.Size m =? 0
     then match st with StatSize size => size | _ => 0 end
     else Mp4Reader.Size m) /\
  (Mp4Reader.Size m' = 0 ->
   m' = m /\ reads (Mp4Reader_Parse_os st fuel m) = []).
Proof.
  unfold Mp4Reader_Parse_os. intros H.
  destruct (Mp4Reader.Size m =? 0) eqn:E0.
  - apply Z.eqb_eq in E0. destruct st as [|err|size].
    + rewrite Parse_boxes_size_0 in * by assumption.
      cbn in H. inversion H; subst. repeat split; assumption.
    + cbn in H. inversion H; subst. repeat split; assumption.
    + pose proof (Parse_boxes_source _ _ _ _ H) as (Hr & Hs & _).
      cbn [set_Size Mp4Reader.Reader Mp4Reader.Size] in Hr, Hs.
      split; [exact Hr|]. split; [exact Hs|].
      intros Hz. rewrite Hs in Hz. clear Hs. subst size.
      assert (Em : set_Size m 0 = m)
        by (destruct m; cbn in E0; subst; reflexivity).
      rewrite Em in *. rewrite Parse_boxes_size_0 in * by assumption.
      cbn in H. inversion H. split; reflexivity.
  - pose proof (Parse_boxes_source _ _ _ _ H) as (Hr & Hs & _).
    split; [exact Hr|]. split; [exact Hs|].
    intros Hz. apply Z.eqb_neq in E0. congruence.
Qed.

Lemma Parse_keeps_source_witness :
  match result (Mp4Reader_Parse_os (StatSize 18) 2 (reader_of two_boxes)) with
  | Ok (m', _) => Mp4Reader.Reader m' = two_boxes /\ Mp4Reader.Size m' = 18
  | _ => False
  end.
Proof.
  destruct (result (Mp4Reader_Parse_os (StatSize 18) 2 (reader_of two_boxes)))
    as [[m' e]| |] eqn:E;
    [|vm_compute in E; discriminate E|vm_compute in E; discriminate E].
  pose proof (Parse_keeps_source (StatSize 18) 2 (reader_of two_boxes) m' e E)
    as (Hr & Hs & _).
  split; [exact Hr|exact Hs].
Defined.

Lemma ReadBoxData_ext (m1 m2 : Mp4Reader.t) (b : Box.t) :
  Mp4Reader.Reader m1 = Mp4Reader.Reader m2 ->
  Box_ReadBoxData m1 b = Box_ReadBoxData m2 b.
Proof.
  intros E. unfold Box_ReadBoxData, Mp4Reader_ReadBytesAt. now rewrite E.
Qed.

Lemma Parse_body_keeps_Mdat (fuel : nat) (m m' : Mp4Reader.t) (c : Box.t) :
  Box.Name c <> "mdat"%string ->
  result (Parse_body fuel m c) = Ok m' ->
  Mp4Reader.Mdat m' = Mp4Reader.Mdat m.
Proof.
  intros Hname. unfold Parse_body. destruct m as [r ftyp moov mdat size].
  apply String.eqb_neq in Hname. rewrite Hname.
  destruct (String.eqb (Box.Name c) "ftyp");
    [|destruct (String.eqb (Box.Name c) "moov")];
    intros H; try (apply result_bind_inv in H; destruct H as (x & _ & H));
    cbn in H; inversion H; reflexivity.
Qed.

(** X18: of several [mdat] boxes at the top level, the reader keeps the last
    one: after [Parse], [Mdat] holds the payload of the last top-level box
    tagged "mdat", as [ReadBoxData] returns it. *)
Theorem Parse_keeps_last_mdat (fuel : nat) (m m' : Mp4Reader.t) (e : error)
    (pre post : list Box.t) (c : Box.t) (data : slice) :
  result (Mp4Reader_Parse fuel m) = Ok (m', e) ->
  result (readBoxes fuel m 0
            (if Mp4Reader.Size m =? 0
             then Z.of_nat (List.length (Mp4Reader.Reader m))
             else Mp4Reader.Size m)) = Ok (pre ++ c :: post) ->
  Box.Name c = "mdat"%string ->
  Forall (fun b => Box.Name b <> "mdat"%string) post ->
  result (Box_ReadBoxData m c) = Ok data ->
  Mp4Reader.Mdat m' = Some (MediaDataBox.mk c data).
Proof.
  rewrite Mp4Reader_Parse_regular. cbv zeta. intros H Hscan Hname Hpost Hdata.
  match type of H with
  | result (bind (readBoxes _ ?m1 _ _) _) = _ => set (m1' := m1) in *
  end.
  assert (Hsrc : Mp4Reader.Reader m1' = Mp4Reader.Reader m)
    by (subst m1'; destruct (Mp4Reader.Size m =? 0); reflexivity).
  assert (Hsz : Mp4Reader.Size m1'
                = if Mp4Reader.Size m =? 0
                  then Z.of_nat (List.length (Mp4Reader.Reader m))
                  else Mp4Reader.Size m)
    by (subst m1'; destruct (Mp4Reader.Size m =? 0); reflexivity).
  unfold readBoxes in H, Hscan.
  rewrite (readBoxes_loop_ext m1' m _ fuel Hsrc), Hsz in H.
  apply result_bind_inv in H. destruct H as (boxes & Hb & H).
  rewrite Hscan in Hb. inversion Hb; subst boxes. clear Hb.
  apply result_bind_inv in H. destruct H as (m2 & H & Hret).
  cbn in Hret. inversion Hret; subst m2 e. clear Hret.
  rewrite range_boxes_app in H. apply result_bind_inv in H.
  destruct H as (ma & Hpre & H).
  cbn [range_boxes] in H. apply result_bind_inv in H.
  destruct H as (mb & Hc & Hrest).
  assert (Hma : Mp4Reader.Reader ma = Mp4Reader.Reader m).
  { rewrite <- Hsrc.
    eapply (range_boxes_invariant (Parse_body fuel)
              (fun s => Mp4Reader.Reader s = Mp4Reader.Reader m1')
              (fun _ => True)); [|apply Forall_True|reflexivity|exact Hpre].
    intros s c0 s' _ Hr Hb. apply Parse_body_source in Hb. destruct Hb. congruence. }
  assert (Hmb : Mp4Reader.Mdat mb = Some (MediaDataBox.mk c data)).
  { unfold Parse_body in Hc. destruct ma as [r ftyp moov mdat size].
    rewrite Hname in Hc. cbn [String.eqb Ascii.eqb Bool.eqb] in Hc.
    unfold MediaDataBox_parse in Hc.
    rewrite (ReadBoxData_ext _ m c Hma) in Hc.
    rewrite bind_assoc in Hc. rewrite (result_after_read _ _ data Hdata) in Hc.
    rewrite !bind_ret_l in Hc. cbn in Hc. inversion Hc. reflexivity. }
  rewrite <- Hmb.
  eapply (range_boxes_invariant (Parse_body fuel)
            (fun s => Mp4Reader.Mdat s = Mp4Reader.Mdat mb)
            (fun b => Box.Name b <> "mdat"%string));
    [|exact Hpost|reflexivity|exact Hrest].
  intros s c0 s' Hq Hs Hb. apply Parse_body_keeps_Mdat in Hb; congruence.
Qed.

Lemma Parse_keeps_last_mdat_witness :
  match result (Open 2 two_mdat_file) with
  | Ok (m', _) =>
      Mp4Reader.Mdat m'
      = Some (MediaDataBox.mk (Box.mk "mdat" 13 13) (Some (bytes_of [9; 9; 9; 9; 7])))
  | _ => False
  end.
Proof.
  destruct (result (Open 2 two_mdat_file)) as [[m' e]| |] eqn:E;
    [|vm_compute in E; discriminate E|vm_compute in E; discriminate E].
  refine (Parse_keeps_last_mdat 2 (reader_of two_mdat_file) m' e
            [Box.mk "mdat" 13 0] [] (Box.mk "mdat" 13 13)
            (Some (bytes_of [9; 9; 9; 9; 7])) E _ _ _ _).
  - vm_compute. reflexivity.
  - reflexivity.
  - constructor.
  - vm_compute. reflexivity.
Defined.

(** ** Which track is selected *)

Lemma MovieBox_body_keeps_Trak (fuel : nat) (m : Mp4Reader.t) (b b' : MovieBox.t)
    (c : Box.t) :
  (Box.Name c = "trak"%string ->
   forall trak, result (parseTrack fuel m c) = Ok trak ->
                result (track_TypeName trak) <> Ok "vide"%string) ->
  result (MovieBox_body fuel m b c) = Ok b' ->
  MovieBox.Trak b' = MovieBox.Trak b.
Proof.
  intros Hnot. unfold MovieBox_body. destruct b as [bx mvhd trak0].
  destruct (String.eqb (Box.Name c) "mvhd").
  - intros H. apply result_bind_inv in H. destruct H as (x & _ & H).
    cbn in H. inversion H. reflexivity.
  - destruct (String.eqb (Box.Name c) "trak") eqn:E.
    + apply String.eqb_eq in E. intros H.
      apply result_bind_inv in H. destruct H as (trak & Hp & H).
      apply result_bind_inv in H. destruct H as (ty & Hty & H).
      destruct (String.eqb ty "vide") eqn:Ev.
      * apply String.eqb_eq in Ev. subst ty.
        exfalso. exact (Hnot E trak Hp Hty).
      * cbn in H. inversion H. reflexivity.
    + intros H. cbn in H. inversion H. reflexivity.
Qed.

(** X19: [MovieBox.parse] selects the last video track: when a [trak] child
    decodes to a track with handler type "vide" and no [trak] child after it
    does, the movie box returned holds that track, whatever tracks came
    before it. *)
Theorem MovieBox_parse_last_video_track (fuel : nat) (m : Mp4Reader.t)
    (box c : Box.t) (pre post : list Box.t) (trak : TrackBox.t) (mb : MovieBox.t) :
  result (children fuel m box) = Ok (pre ++ c :: post) ->
  Box.Name c = "trak"%string ->
  result (parseTrack fuel m c) = Ok trak ->
  result (track_TypeName trak) = Ok "vide"%string ->
  Forall (fun c' => Box.Name c' = "trak"%string ->
                    forall trak', result (parseTrack fuel m c') = Ok trak' ->
                                  result (track_TypeName trak') <> Ok "vide"%string)
         post ->
  result (MovieBox_parse fuel m box) = Ok mb ->
  MovieBox.Trak mb = Some trak.
Proof.
  intros Hch Hname Hparse Htype Hpost H. unfold MovieBox_parse in H.
  rewrite (result_after_read _ _ _ Hch) in H.
  rewrite range_boxes_app in H. apply result_bind_inv in H.
  destruct H as (ba & _ & H).
  cbn [range_boxes] in H. apply result_bind_inv in H.
  destruct H as (bb & Hc & Hrest).
  assert (Hbb : MovieBox.Trak bb = Some trak).
  { destruct (parseTrack fuel m c) as [r t] eqn:Ep. cbn in Hparse. subst r.
    rewrite (MovieBox_body_video_track fuel m ba c trak t Hname Ep Htype) in Hc.
    cbn in Hc. inversion Hc. reflexivity. }
  rewrite <- Hbb.
  eapply (range_boxes_invariant (MovieBox_body fuel m)
            (fun s => MovieBox.Trak s = MovieBox.Trak bb)
            (fun c' => Box.Name c' = "trak"%string ->
                       forall trak', result (parseTrack fuel m c') = Ok trak' ->
                                     result (track_TypeName trak') <> Ok "vide"%string));
    [|exact Hpost|reflexivity|exact Hrest].
  intros s c0 s' Hq Hs Hb.
  apply (MovieBox_body_keeps_Trak fuel m s s' c0 Hq) in Hb. congruence.
Qed.

Lemma MovieBox_parse_last_video_track_witness :
  let m := reader_of (two_small_tracks "vide" "vide") in
  match result (parseTrack 3 m (Box.mk "trak" 49 57)),
        result (MovieBox_parse 3 m (Box.mk "moov" 106 0)) with
  | Ok trak, Ok mb => MovieBox.Trak mb = Some trak
  | _, _ => False
  end.
Proof.
  intros m.
  destruct (result (parseTrack 3 m (Box.mk "trak" 49 57))) as [trak| |] eqn:Ep;
    [|vm_compute in Ep; discriminate Ep|vm_compute in Ep; discriminate Ep].
  destruct (result (MovieBox_parse 3 m (Box.mk "moov" 106 0))) as [mb| |] eqn:Eb;
    [|vm_compute in Eb; discriminate Eb|vm_compute in Eb; discriminate Eb].
  refine (MovieBox_parse_last_video_track 3 m (Box.mk "moov" 106 0)
            (Box.mk "trak" 49 57) [Box.mk "trak" 49 8] [] trak mb _ _ Ep _ _ Eb).
  - vm_compute. reflexivity.
  - reflexivity.
  - vm_compute in Ep. inversion Ep. vm_compute. reflexivity.
  - constructor.
Defined.

(** ** The older program's track *)

Lemma MoovContainer_body_no_track {MvhdBox TrackBox : Type}
    (parse_mvhd : Mp4Reader.t -> Box.t -> M MvhdBox)
    (parse_trak : nat -> Mp4Reader.t -> Box.t -> M TrackBox)
    (fuel : nat) (m : Mp4Reader.t) (st st' : MainGo.MoovContainer * Z) (c : Box.t) :
  Box.Name c <> "trak"%string ->
  result (MainGo.MoovContainer_body parse_mvhd parse_trak fuel m st c) = Ok st' ->
  snd st' = snd st.
Proof.
  intros Hname. unfold MainGo.MoovContainer_body. destruct st as [b count].
  apply String.eqb_neq in Hname. rewrite Hname.
  destruct (String.eqb (Box.Name c) "mvhd"); intros H.
  - apply result_bind_inv in H. destruct H as (x & _ & H).
    cbn in H. inversion H. reflexivity.
  - cbn in H. inversion H. reflexivity.
Qed.

(** X20: [MoovContainer.parse] of the older program selects the first [trak]
    child, whatever its handler type and whatever follows: when it returns,
    [Trak] is the decoded first [trak] box. *)
Theorem MoovContainer_parse_first_track {MvhdBox TrackBox : Type}
    (parse_mvhd : Mp4Reader.t -> Box.t -> M MvhdBox)
    (parse_trak : nat -> Mp4Reader.t -> Box.t -> M TrackBox)
    (fuel : nat) (m : Mp4Reader.t) (box c : Box.t) (pre post : list Box.t)
    (b' : MainGo.MoovContainer) :
  result (children fuel m box) = Ok (pre ++ c :: post) ->
  Forall (fun c' => Box.Name c' <> "trak"%string) pre ->
  Box.Name c = "trak"%string ->
  result (MainGo.MoovContainer_parse parse_mvhd parse_trak fuel m box) = Ok b' ->
  exists x, result (parse_trak fuel m c) = Ok x /\ MainGo.Trak b' = Some x.
Proof.
  intros Hch Hpre Hname H. unfold MainGo.MoovContainer_parse in H.
  rewrite (result_after_read _ _ _ Hch) in H.
  apply result_bind_inv in H. destruct H as ([bf cf] & H & Hret).
  cbn in Hret. inversion Hret; subst bf. clear Hret.
  rewrite range_boxes_app in H. apply result_bind_inv in H.
  destruct H as ([ba ca] & Hp & H).
  assert (Hca : ca = 0).
  { refine (range_boxes_invariant
              (MainGo.MoovContainer_body parse_mvhd parse_trak fuel m)
              (fun s => snd s = 0)
              (fun c' => Box.Name c' <> "trak"%string)
              _ pre (MainGo.mkMoov box None None, 0) (ba, ca) Hpre eq_refl Hp).
    intros s c0 s' Hq Hs Hb.
    apply (MoovContainer_body_no_track _ _ _ _ _ _ _ Hq) in Hb. congruence. }
  subst ca. cbn [range_boxes] in H. apply result_bind_inv in H.
  destruct H as ([bb cb] & Hc & Hrest).
  unfold MainGo.MoovContainer_body in Hc. rewrite Hname in Hc.
  cbn [String.eqb Ascii.eqb Bool.eqb Z.eqb] in Hc.
  apply result_bind_inv in Hc. destruct Hc as (x & Hx & Hc).
  cbn in Hc. inversion Hc; subst bb cb. clear Hc.
  exists x. split; [exact Hx|].
  apply (MoovContainer_keeps_first_track parse_mvhd parse_trak fuel m post
           _ b' _ cf) in Hrest; [exact Hrest|].
  vm_compute. discriminate.
Qed.

Lemma MoovContainer_parse_first_track_witness :
  let m := reader_of (two_small_tracks "soun" "vide") in
  match result (MainGo.MoovContainer_parse MovieHeaderBox_parse TrackBox_parse
                  3 m (Box.mk "moov" 106 0)) with
  | Ok b' => exists x, result (TrackBox_parse 3 m (Box.mk "trak" 49 8)) = Ok x /\
                       MainGo.Trak b' = Some x
  | _ => False
  end.
Proof.
  intros m.
  destruct (result (MainGo.MoovContainer_parse MovieHeaderBox_parse TrackBox_parse
                      3 m (Box.mk "moov" 106 0))) as [b'| |] eqn:Eb;
    [|vm_compute in Eb; discriminate Eb|vm_compute in Eb; discriminate Eb].
  refine (MoovContainer_parse_first_track MovieHeaderBox_parse TrackBox_parse
            3 m (Box.mk "moov" 106 0) (Box.mk "trak" 49 8) []
            [Box.mk "trak" 49 57] b' _ _ _ Eb).
  - vm_compute. reflexivity.
  - constructor.
  - reflexivity.
Defined.

(** ** The stream *)

(** X21: when the payload of [mdat] is one length-prefixed unit (a 4-byte
    big-endian length, then that many bytes), the stream is the start code
    followed by the unit, which is also what the rewriting of the
    specification gives for that sample. *)
Theorem extractVideoChunks_single_unit_stream (m : Mp4Reader.t)
    (mdat : MediaDataBox.t) (unit : list byte) :
  Mp4Reader.Mdat m = Some mdat ->
  MediaDataBox.Data mdat = Some (length_prefixed unit) ->
  Z.of_nat (List.length unit) < 2 ^ 32 ->
  extractVideoChunks m = ret (start_code ++ unit) /\
  spec_annexb 1 (length_prefixed unit) = Some (start_code ++ unit).
Proof.
  intros Hm Hd Hlen. unfold length_prefixed in *.
  destruct (be32_value (Z.of_nat (List.length unit)) ltac:(lia))
    as (b0 & b1 & b2 & b3 & Hbe & Hval).
  rewrite Hbe in *. cbn [app] in *. split.
  - rewrite (extractVideoChunks_spec m mdat _ Hm Hd) by (cbn; lia).
    reflexivity.
  - cbn [spec_annexb]. rewrite lor_be_value, Hval, Nat2Z.id.
    rewrite Nat.leb_refl, skipn_all, firstn_all. cbn. now rewrite app_nil_r.
Qed.

Lemma extractVideoChunks_single_unit_stream_witness :
  extractVideoChunks
    (Mp4Reader.mk [] None None
       (Some (MediaDataBox.mk (Box.mk "mdat" 14 0)
                (Some (length_prefixed [xaa; xbb])))) 0)
  = ret (start_code ++ [xaa; xbb]).
Proof.
  refine (proj1 (extractVideoChunks_single_unit_stream
                   (Mp4Reader.mk [] None None
                      (Some (MediaDataBox.mk (Box.mk "mdat" 14 0)
                               (Some (length_prefixed [xaa; xbb])))) 0)
                   (MediaDataBox.mk (Box.mk "mdat" 14 0)
                      (Some (length_prefixed [xaa; xbb])))
                   [xaa; xbb] _ _ _)).
  - reflexivity.
  - reflexivity.
  - cbn. lia.
Defined.

(** ** The selected track *)

Lemma MovieBox_body_video_only (fuel : nat) (m : Mp4Reader.t) (b b' : MovieBox.t)
    (c : Box.t) :
  (forall trak, MovieBox.Trak b = Some trak ->
                result (track_TypeName trak) = Ok "vide"%string) ->
  result (MovieBox_body fuel m b c) = Ok b' ->
  forall trak, MovieBox.Trak b' = Some trak ->
               result (track_TypeName trak) = Ok "vide"%string.
Proof.
  intros Hb. unfold MovieBox_body. destruct b as [bx mvhd trak0].
  cbn [MovieBox.Trak] in Hb.
  destruct (String.eqb (Box.Name c) "mvhd").
  - intros H. apply result_bind_inv in H. destruct H as (x & _ & H).
    cbn in H. inversion H. exact Hb.
  - destruct (String.eqb (Box.Name c) "trak").
    + intros H.
      apply result_bind_inv in H. destruct H as (trak & _ & H).
      apply result_bind_inv in H. destruct H as (ty & Hty & H).
      destruct (String.eqb ty "vide") eqn:Ev.
      * apply String.eqb_eq in Ev. subst ty.
        cbn in H. inversion H. cbn. intros trak' E. inversion E. now subst.
      * cbn in H. inversion H. exact Hb.
    + intros H. cbn in H. inversion H. exact Hb.
Qed.

(** X22: the track [MovieBox.parse] selects, if it selects one, is a video
    track: its media box and handler box are present and the handler type
    is "vide".  No track of another type is ever selected. *)
Theorem MovieBox_parse_video_only (fuel : nat) (m : Mp4Reader.t) (box : Box.t)
    (mb : MovieBox.t) (trak : TrackBox.t) :
  result (MovieBox_parse fuel m box) = Ok mb ->
  MovieBox.Trak mb = Some trak ->
  exists mdia hdlr,
    TrackBox.Mdia trak = Some mdia /\ MediaBox.Hdlr mdia = Some hdlr /\
    HandlerBox.TypeName hdlr = "vide"%string.
Proof.
  intros H Htrak. unfold MovieBox_parse in H.
  apply result_bind_inv in H. destruct H as (boxes & _ & H).
  assert (Hv : result (track_TypeName trak) = Ok "vide"%string).
  { refine (range_boxes_invariant (MovieBox_body fuel m)
              (fun s => forall t, MovieBox.Trak s = Some t ->
                                  result (track_TypeName t) = Ok "vide"%string)
              (fun _ => True) _ boxes (MovieBox.mk box None None) mb
              (Forall_True _) _ H trak Htrak).
    - intros s c s' _ Hs Hb. exact (MovieBox_body_video_only fuel m s s' c Hs Hb).
    - cbn. discriminate. }
  unfold track_TypeName in Hv.
  destruct (TrackBox.Mdia trak) as [mdia|] eqn:Em; [|discriminate].
  destruct (MediaBox.Hdlr mdia) as [hdlr|] eqn:Eh; [|discriminate].
  exists mdia, hdlr. cbn in Hv. inversion Hv. repeat split; assumption.
Qed.

Lemma MovieBox_parse_video_only_witness :
  let m := reader_of (two_small_tracks "soun" "vide") in
  match result (MovieBox_parse 3 m (Box.mk "moov" 106 0)) with
  | Ok mb =>
      match MovieBox.Trak mb with
      | Some trak =>
          exists mdia hdlr,
            TrackBox.Mdia trak = Some mdia /\ MediaBox.Hdlr mdia = Some hdlr /\
            HandlerBox.TypeName hdlr = "vide"%string
      | None => False
      end
  | _ => False
  end.
Proof.
  intros m.
  destruct (result (MovieBox_parse 3 m (Box.mk "moov" 106 0))) as [mb| |] eqn:Eb;
    [|vm_compute in Eb; discriminate Eb|vm_compute in Eb; discriminate Eb].
  destruct (MovieBox.Trak mb) as [trak|] eqn:Et.
  - exact (MovieBox_parse_video_only 3 m (Box.mk "moov" 106 0) mb trak Eb Et).
  - vm_compute in Eb. inversion Eb; subst mb. discriminate Et.
Defined.

(** ** What [main] needs *)

Lemma deref_inv {A B} (p : option A) (f : A -> M B) (b : B) :
  result (bind (deref p) f) = Ok b ->
  exists a, p = Some a /\ result (f a) = Ok b.
Proof.
  destruct p as [a|]; [|discriminate].
  cbn [deref]. rewrite bind_ret_l. intros H. now exists a.
Qed.

(** [Open] and [main] on a regular file are [Open] and [main] with the
    answers of the operating system for one. *)
Lemma Open_os_regular (fuel : nat) (file : list byte) :
  Open_os fuel (Opened file (inr (Z.of_nat (List.length file))))
  = ('(f, err) <- Open fuel file ;; ret (Some f, err)).
Proof. reflexivity. Qed.

Lemma main_written_os_regular (fuel : nat) (file : list byte) :
  main_written_os fuel (Opened file (inr (Z.of_nat (List.length file))))
  = main_written fuel file.
Proof.
  unfold main_written_os. rewrite Open_os_regular. unfold main_written.
  rewrite bind_assoc.
  destruct (Open fuel file) as [[[mp4 err]| |] t]; try reflexivity.
  rewrite !bind_Ok. rewrite bind_ret_l. cbn [deref]. rewrite bind_ret_l.
  destruct err as [err|]; [reflexivity|].
  unfold main_stream.
  do 2 f_equal.
  all: rewrite bind_assoc; destruct (Mp4Reader.Ftyp mp4); cbn [deref];
    [rewrite !bind_ret_l|reflexivity].
  all: rewrite bind_assoc; destruct (Mp4Reader.Moov mp4) as [moov|]; cbn [deref];
    [rewrite !bind_ret_l|reflexivity].
  all: rewrite bind_assoc; destruct (MovieBox.Mvhd moov); cbn [deref];
    [rewrite !bind_ret_l|reflexivity].
  all: rewrite bind_assoc; destruct (MovieBox.Trak moov) as [trak|]; cbn [deref];
    [rewrite !bind_ret_l|reflexivity].
  all: rewrite bind_assoc; destruct (TrackBox.Tkhd trak); cbn [deref];
    [rewrite !bind_ret_l|reflexivity].
  all: rewrite bind_assoc; destruct (TrackBox.Mdia trak) as [mdia|]; cbn [deref];
    [rewrite !bind_ret_l|reflexivity].
  all: rewrite bind_assoc; destruct (MediaBox.Hdlr mdia); cbn [deref];
    [rewrite !bind_ret_l|reflexivity].
  all: reflexivity.
Qed.

(** X23: [main] returns only when [os.Open] succeeded (after a failed
    [os.Open] it dereferences the nil reader).  It returns without writing
    exactly when [Stat] failed, and has then read nothing.  It writes a
    stream only when the file parsed to a reader with a file type box, a
    movie box with a movie header and a selected track that has a track
    header, a media box and a handler box, and a media data box with at
    least 4 payload bytes; the stream is then the start code followed by
    the payload from its fifth byte on. *)
Theorem main_written_needs (fuel : nat) (o : open_answer)
    (out : option (list byte)) :
  result (main_written_os fuel o) = Ok out ->
  exists file stat,
    o = Opened file stat /\
    match stat with
    | inl err => out = None /\ main_written_os fuel o = (Ok None, [])
    | inr size =>
        exists mp4 ftyp moov mvhd trak tkhd mdia hdlr mdat data,
          result (Open_os fuel o) = Ok (Some mp4, None) /\
          Mp4Reader.Ftyp mp4 = Some ftyp /\
          Mp4Reader.Moov mp4 = Some moov /\
          MovieBox.Mvhd moov = Some mvhd /\
          MovieBox.Trak moov = Some trak /\
          TrackBox.Tkhd trak = Some tkhd /\
          TrackBox.Mdia trak = Some mdia /\
          MediaBox.Hdlr mdia = Some hdlr /\
          Mp4Reader.Mdat mp4 = Some mdat /\
          MediaDataBox.Data mdat = Some data /\
          (4 <= List.length data)%nat /\
          out = Some (start_code ++ skipn 4 data)
    end.
Proof.
  intros H. destruct o as [err|file stat]; [cbn in H; discriminate|].
  exists file, stat. split; [reflexivity|]. destruct stat as [err|size].
  - assert (E : main_written_os fuel (Opened file (inl err)) = (Ok None, []))
      by reflexivity.
    split; [|exact E]. rewrite E in H. cbn in H. now inversion H.
  - unfold main_written_os in H.
    apply result_bind_inv in H. destruct H as ([f err] & Hopen & H).
    cbn [Open_os] in Hopen.
    apply result_bind_inv in Hopen. destruct Hopen as ([mp4 e] & Hparse & Hret).
    cbn in Hret. inversion Hret; subst f err. clear Hret.
    assert (He : e = None).
    { unfold Mp4Reader_Parse_os in Hparse. cbn [Mp4Reader.Size] in Hparse.
      change (0 =? 0) with true in Hparse. cbv iota in Hparse.
      now apply Parse_boxes_source in Hparse. }
    subst e.
    apply deref_inv in H. destruct H as (mp4' & Hm & H).
    inversion Hm; subst mp4'. clear Hm.
    apply result_bind_inv in H. destruct H as (stream & Hs & H).
    cbn in H. inversion H; subst out. clear H.
    unfold main_stream in Hs.
    apply deref_inv in Hs. destruct Hs as (ftyp & Hftyp & Hs).
    apply deref_inv in Hs. destruct Hs as (moov & Hmoov & Hs).
    apply deref_inv in Hs. destruct Hs as (mvhd & Hmvhd & Hs).
    apply deref_inv in Hs. destruct Hs as (trak & Htrak & Hs).
    apply deref_inv in Hs. destruct Hs as (tkhd & Htkhd & Hs).
    apply deref_inv in Hs. destruct Hs as (mdia & Hmdia & Hs).
    apply deref_inv in Hs. destruct Hs as (hdlr & Hhdlr & Hs).
    unfold extractVideoChunks in Hs.
    destruct (Mp4Reader.Mdat mp4) as [mdat|] eqn:Hmdat; [|discriminate].
    apply result_bind_inv in Hs. destruct Hs as (rest & Hrest & Hs).
    cbn in Hs. inversion Hs; subst stream. clear Hs.
    unfold slice_from in Hrest.
    destruct (4 <=? slice_len (MediaDataBox.Data mdat)) eqn:E; [|discriminate].
    apply Z.leb_le in E.
    destruct (MediaDataBox.Data mdat) as [data|] eqn:Hdata; [|cbn in E; lia].
    cbn in Hrest, E. inversion Hrest; subst rest.
    exists mp4, ftyp, moov, mvhd, trak, tkhd, mdia, hdlr, mdat, data.
    split; [cbn [Open_os]; rewrite result_bind, Hparse; reflexivity|].
    repeat split; try assumption; try reflexivity. lia.
Qed.

Lemma main_written_needs_witness :
  exists file stat,
    Opened one_unit_movie (inr (Z.of_nat (List.length one_unit_movie)))
    = Opened file stat /\
    match stat with
    | inl err =>
        Some (start_code ++ [xaa; xbb]) = None /\
        main_written_os 5
          (Opened one_unit_movie (inr (Z.of_nat (List.length one_unit_movie))))
        = (Ok None, [])
    | inr size =>
        exists mp4 ftyp moov mvhd trak tkhd mdia hdlr mdat data,
          result (Open_os 5
                    (Opened one_unit_movie
                       (inr (Z.of_nat (List.length one_unit_movie)))))
          = Ok (Some mp4, None) /\
          Mp4Reader.Ftyp mp4 = Some ftyp /\
          Mp4Reader.Moov mp4 = Some moov /\
          MovieBox.Mvhd moov = Some mvhd /\
          MovieBox.Trak moov = Some trak /\
          TrackBox.Tkhd trak = Some tkhd /\
          TrackBox.Mdia trak = Some mdia /\
          MediaBox.Hdlr mdia = Some hdlr /\
          Mp4Reader.Mdat mp4 = Some mdat /\
          MediaDataBox.Data mdat = Some data /\
          (4 <= List.length data)%nat /\
          Some (start_code ++ [xaa; xbb]) = Some (start_code ++ skipn 4 data)
    end.
Proof.
  refine (main_written_needs 5
            (Opened one_unit_movie (inr (Z.of_nat (List.length one_unit_movie))))
            (Some (start_code ++ [xaa; xbb])) _).
  vm_compute. reflexivity.
Defined.

(** ** Files without a whole header *)

(** X24: the empty file parses to a reader with no box and no read; a file
    of 1 to 7 bytes makes [Open] panic with slice bounds out of range after
    the one failed read of a header at offset 0. *)
Theorem Open_short_file (fuel : nat) (file : list byte) :
  (List.length file < 8)%nat ->
  Open (S fuel) file
  = match file with
    | [] => (Ok (reader_of [], None), [])
    | _ => (Panic SliceBoundsOutOfRange, [ReadEv 0 8])
    end.
Proof.
  intros Hlen. unfold Open. rewrite Mp4Reader_Parse_regular. cbv zeta.
  cbn [Mp4Reader.Size Mp4Reader.Reader Mp4Reader.Ftyp Mp4Reader.Moov
       Mp4Reader.Mdat Z.eqb].
  destruct file as [|b file]; [reflexivity|].
  set (f := b :: file) in *.
  set (m1 := Mp4Reader.mk f None None None (Z.of_nat (List.length f))).
  assert (Hpos : 0 < Z.of_nat (List.length f)) by (subst f; cbn; lia).
  unfold readBoxes, add64. rewrite Z.add_0_l.
  rewrite wrap64_id by (unfold int64_range; lia).
  rewrite readBoxes_loop_step by lia.
  destruct (ReadBoxAt_cases m1 0) as [(s & n & _ & _ & _ & Hend)|E].
  - subst m1. cbn [Mp4Reader.Reader] in Hend. lia.
  - rewrite E. reflexivity.
Qed.

Lemma Open_short_file_witness :
  Open 1 [x00; x00; x00] = (Panic SliceBoundsOutOfRange, [ReadEv 0 8]).
Proof.
  refine (Open_short_file 0 [x00; x00; x00] _). cbn. lia.
Defined.

(** ** The older program's table decoders *)

Lemma u32_at_range (l : list byte) (i : nat) : 0 <= u32_at l i < 2 ^ 32.
Proof.
  unfold u32_at, be_value.
  pose proof (byte_val_range (byte_at l i)).
  pose proof (byte_val_range (byte_at l (i + 1))).
  pose proof (byte_val_range (byte_at l (i + 2))).
  pose proof (byte_val_range (byte_at l (i + 3))).
  lia.
Qed.

Lemma print_word_ok (data : slice) (lo : Z) :
  0 <= lo -> lo + 4 <= Z.of_nat (List.length (slice_bytes data)) ->
  Older.print_word data lo (lo + 4) = ret tt.
Proof.
  intros Hlo Hlen. unfold Older.print_word.
  assert (E : (lo + 4 <? lo) = false) by (apply Z.ltb_ge; lia).
  rewrite E. now rewrite sub_u32 by lia.
Qed.

Lemma print_word_fail (data : slice) (lo : Z) :
  0 <= lo <= Z.of_nat (List.length (slice_bytes data)) ->
  Z.of_nat (List.length (slice_bytes data)) < lo + 4 ->
  Z.of_nat (List.length (slice_bytes data)) < 2 ^ 32 ->
  Older.print_word data lo (Older.wrap32 (lo + 4)) = panic SliceBoundsOutOfRange.
Proof.
  intros Hlo Hshort Hlen. unfold Older.print_word, Older.wrap32.
  destruct (Z_lt_ge_dec (lo + 4) (2 ^ 32)) as [Hsmall|Hbig].
  - rewrite Z.mod_small by lia.
    assert (E : (lo + 4 <? lo) = false) by (apply Z.ltb_ge; lia).
    rewrite E. now rewrite sub_slice_short by lia.
  - replace (lo + 4) with ((lo + 4 - 2 ^ 32) + 1 * 2 ^ 32) by lia.
    rewrite Z.mod_add by lia. rewrite Z.mod_small by lia.
    assert (E : (lo + 4 - 2 ^ 32 <? lo) = true) by (apply Z.ltb_lt; lia).
    now rewrite E.
Qed.

Lemma print_words_ok (times : nat) (data : slice) (lo : Z) :
  0 <= lo -> lo + 4 <= Z.of_nat (List.length (slice_bytes data)) ->
  Older.print_words times data lo (lo + 4) = ret tt.
Proof.
  intros Hlo Hlen. induction times as [|times IH]; [reflexivity|].
  cbn [Older.print_words]. now rewrite print_word_ok, bind_ret_l.
Qed.

Lemma entries_loop_spec (times : nat) (c : Z) (data : slice) (k : nat) :
  0 <= c ->
  Z.of_nat (List.length (slice_bytes data)) < 2 ^ 32 ->
  forall i,
    0 <= i -> 4 * (i + c) <= Z.of_nat (List.length (slice_bytes data)) ->
    Older.entries_loop (S times) c data k i
    = if 4 * (i + c) + 4 * Z.of_nat k <=? Z.of_nat (List.length (slice_bytes data))
      then ret tt
      else panic SliceBoundsOutOfRange.
Proof.
  intros Hc Hlen. induction k as [|k IH]; intros i Hi Hinv.
  - cbn [Older.entries_loop].
    assert (E : (4 * (i + c) + 4 * Z.of_nat 0
                 <=? Z.of_nat (List.length (slice_bytes data))) = true)
      by (apply Z.leb_le; lia).
    now rewrite E.
  - cbn [Older.entries_loop]. unfold Older.wrap32. cbv zeta.
    rewrite (Z.mod_small (i + c)) by lia.
    rewrite (Z.mod_small (4 * (i + c))) by lia.
    rewrite (Z.mod_small (i + 1)) by lia.
    change ((4 * (i + c) + 4) mod 2 ^ 32) with (Older.wrap32 (4 * (i + c) + 4)).
    destruct (Z_le_gt_dec (4 * (i + c) + 4)
                (Z.of_nat (List.length (slice_bytes data)))) as [Hok|Hshort].
    + unfold Older.wrap32. rewrite (Z.mod_small (4 * (i + c) + 4)) by lia.
      rewrite print_words_ok, bind_ret_l by lia.
      rewrite IH by lia.
      replace (4 * (i + 1 + c) + 4 * Z.of_nat k)
        with (4 * (i + c) + 4 * Z.of_nat (S k)) by lia.
      reflexivity.
    + cbn [Older.print_words]. rewrite print_word_fail by lia.
      assert (E : (4 * (i + c) + 4 * Z.of_nat (S k)
                   <=? Z.of_nat (List.length (slice_bytes data))) = false)
        by (apply Z.leb_gt; lia).
      now rewrite E.
Qed.

Lemma print_entries_spec {B} (times : nat) (c : Z) (data : slice) (count : Z)
    (f : unit -> M B) :
  0 <= c -> 0 <= count ->
  Z.of_nat (List.length (slice_bytes data)) < 2 ^ 32 ->
  4 * (1 + c) <= Z.of_nat (List.length (slice_bytes data)) ->
  bind (Older.print_entries (S times) c data count) f
  = if 4 * (1 + c) + 4 * count <=? Z.of_nat (List.length (slice_bytes data))
    then f tt
    else panic SliceBoundsOutOfRange.
Proof.
  intros Hc Hcount Hlen Hinv. unfold Older.print_entries.
  rewrite entries_loop_spec by lia. rewrite Z2Nat.id by lia.
  destruct (4 * (1 + c) + 4 * count <=? _) eqn:E; [|reflexivity].
  apply Z.leb_le in E. rewrite bind_ret_l.
  assert (E' : (count =? uint32_max) = false)
    by (apply Z.eqb_neq; unfold uint32_max; lia).
  rewrite E'. apply bind_ret_l.
Qed.

(** X25: the older [SampleSizeBox.parse] slices every entry it counts,
    whatever the sample size: on a payload of at least 12 bytes (and less
    than 2^32) it returns exactly when the payload holds 12 + 4 * SampleCount
    bytes and panics with slice bounds out of range otherwise, so that a
    table with a fixed sample size, which stores no entries, panics as soon
    as its sample count is not 0. *)
Theorem Older_SampleSizeBox_parse_entries (m : Mp4Reader.t) (box : Box.t)
    (data : slice) :
  result (Box_ReadBoxData m box) = Ok data ->
  let l := slice_bytes data in
  12 <= Z.of_nat (List.length l) < 2 ^ 32 ->
  result (Older.SampleSizeBox_parse m box)
  = if 12 + 4 * u32_at l 8 <=? Z.of_nat (List.length l)
    then Ok (SampleSizeBox.mk box (byte_at l 0) (flags_of l)
               (u32_at l 4) (u32_at l 8))
    else Panic SliceBoundsOutOfRange.
Proof.
  intros H l Hlen. unfold Older.SampleSizeBox_parse.
  rewrite (result_after_read _ _ data H). subst l.
  decode. change (Z.to_nat 8) with 8%nat. change (Z.to_nat 4) with 4%nat.
  pose proof (u32_at_range (slice_bytes data) 8) as Hcount.
  rewrite print_entries_spec by lia.
  replace (4 * (1 + 2) + 4 * u32_at (slice_bytes data) 8)
    with (12 + 4 * u32_at (slice_bytes data) 8) by lia.
  destruct (_ <=? _); reflexivity.
Qed.

Lemma Older_SampleSizeBox_parse_entries_witness :
  result (Older.SampleSizeBox_parse
            (reader_of (mkbox "stsz" (zeros 4 ++ be32 10 ++ be32 3)))
            (Box.mk "stsz" 20 0))
  = Panic SliceBoundsOutOfRange.
Proof.
  refine (Older_SampleSizeBox_parse_entries
            (reader_of (mkbox "stsz" (zeros 4 ++ be32 10 ++ be32 3)))
            (Box.mk "stsz" 20 0) (Some (zeros 4 ++ be32 10 ++ be32 3)) _ _).
  - vm_compute. reflexivity.
  - cbn. lia.
Defined.

(** X26: the older [SampleToChunkBox.parse] and [ChunkOffsetBox.parse] slice
    one 4-byte word per counted entry, from offset 8 on: on a payload of at
    least 8 bytes (and less than 2^32) each returns exactly when the payload
    holds 8 + 4 * EntryCount bytes and panics with slice bounds out of range
    otherwise. *)
Theorem Older_entry_count_boxes_entries (m : Mp4Reader.t) (box : Box.t)
    (data : slice) :
  result (Box_ReadBoxData m box) = Ok data ->
  let l := slice_bytes data in
  8 <= Z.of_nat (List.length l) < 2 ^ 32 ->
  result (Older.SampleToChunkBox_parse m box)
  = (if 8 + 4 * u32_at l 4 <=? Z.of_nat (List.length l)
     then Ok (SampleToChunkBox.mk box (byte_at l 0) (flags_of l) (u32_at l 4))
     else Panic SliceBoundsOutOfRange)
  /\ result (Older.ChunkOffsetBox_parse m box)
     = (if 8 + 4 * u32_at l 4 <=? Z.of_nat (List.length l)
        then Ok (ChunkOffsetBox.mk box (byte_at l 0) (flags_of l) (u32_at l 4))
        else Panic SliceBoundsOutOfRange).
Proof.
  intros H l Hlen.
  unfold Older.SampleToChunkBox_parse, Older.ChunkOffsetBox_parse.
  rewrite !(result_after_read _ _ data H). subst l.
  pose proof (u32_at_range (slice_bytes data) 4) as Hcount.
  split; decode; change (Z.to_nat 4) with 4%nat;
    rewrite print_entries_spec by lia;
    replace (4 * (1 + 1) + 4 * u32_at (slice_bytes data) 4)
      with (8 + 4 * u32_at (slice_bytes data) 4) by lia;
    destruct (_ <=? _); reflexivity.
Qed.

Lemma Older_entry_count_boxes_entries_witness :
  result (Older.ChunkOffsetBox_parse
            (reader_of (mkbox "stco" (stco_payload example_offsets)))
            (Box.mk "stco" 24 0))
  = Ok (ChunkOffsetBox.mk (Box.mk "stco" 24 0) x00 [x00; x00; x00] 2).
Proof.
  refine (proj2 (Older_entry_count_boxes_entries
                   (reader_of (mkbox "stco" (stco_payload example_offsets)))
                   (Box.mk "stco" 24 0) (Some (stco_payload example_offsets)) _ _)).
  - vm_compute. reflexivity.
  - cbn. lia.
Defined.

(** ** The older program's output *)

(** On a regular file the older [Parse] returns the error nil. *)
Lemma Older_Parse_error_is_nil (fuel : nat) (m m' : Older.Mp4Reader) (e : error) :
  result (Older.Parse fuel m) = Ok (m', e) -> e = None.
Proof.
  unfold Older.Parse, Older.Parse_os. intros H.
  assert (Hb : forall m1, result (Older.Parse_boxes fuel m1) = Ok (m', e) ->
                          e = None).
  { intros m1 H1. unfold Older.Parse_boxes in H1.
    apply result_bind_inv in H1. destruct H1 as (boxes & _ & H1).
    apply result_bind_inv in H1. destruct H1 as (m2 & _ & H1).
    cbn in H1. inversion H1. reflexivity. }
  destruct (Older.Size m =? 0); eapply Hb; exact H.
Qed.

(** X27: whenever the older [main] writes, it writes exactly 12 bytes, the
    bytes 4 to 15 of the payload of [mdat]; for that the file must parse to
    a reader with a file type box, a movie box with a movie header and a
    first track that has a track header, and a media data box with at least
    16 payload bytes.  On any other file it panics or does not end. *)
Theorem Older_main_writes_12_bytes (fuel : nat) (file out : list byte) :
  result (Older.main_written fuel file) = Ok out ->
  exists mp4 ftyp moov mvhd trak tkhd mdat data,
    result (Older.Open fuel file) = Ok (mp4, None) /\
    Older.Ftyp mp4 = Some ftyp /\
    Older.Moov mp4 = Some moov /\
    MainGo.Mvhd moov = Some mvhd /\
    MainGo.Trak moov = Some trak /\
    TrackBox.Tkhd trak = Some tkhd /\
    Older.Mdat mp4 = Some mdat /\
    MediaDataBox.Data mdat = Some data /\
    (16 <= List.length data)%nat /\
    out = firstn 12 (skipn 4 data) /\
    List.length out = 12%nat.
Proof.
  unfold Older.main_written. intros H.
  apply result_bind_inv in H. destruct H as ([mp4 err] & Hopen & H).
  pose proof (Older_Parse_error_is_nil fuel (Older.mkReader file None None None 0)
                mp4 err Hopen) as ->.
  apply deref_inv in H. destruct H as (ftyp & Hftyp & H).
  apply deref_inv in H. destruct H as (moov & Hmoov & H).
  apply deref_inv in H. destruct H as (mvhd & Hmvhd & H).
  apply deref_inv in H. destruct H as (trak & Htrak & H).
  apply deref_inv in H. destruct H as (tkhd & Htkhd & H).
  apply deref_inv in H. destruct H as (mdat & Hmdat & H).
  apply result_bind_inv in H. destruct H as (s1 & H1 & H).
  apply result_bind_inv in H. destruct H as (s2 & _ & H).
  apply result_bind_inv in H. destruct H as (s3 & _ & H).
  apply result_bind_inv in H. destruct H as (s4 & _ & H).
  apply result_bind_inv in H. destruct H as (s5 & H5 & H).
  cbn in H. inversion H; subst s5. clear H.
  unfold sub_slice in H1, H5.
  destruct (16 <=? slice_len (MediaDataBox.Data mdat)) eqn:E;
    [|discriminate].
  apply Z.leb_le in E.
  destruct (MediaDataBox.Data mdat) as [data|] eqn:Hdata; [|cbn in E; lia].
  cbn [slice_len] in E.
  apply (f_equal (fun r => match r with Ok x => x | _ => [] end)) in H5.
  unfold result, ret in H5. cbv beta iota delta [fst] in H5. subst out.
  change (Z.to_nat (16 - 4)) with 12%nat. change (Z.to_nat 4) with 4%nat.
  exists mp4, ftyp, moov, mvhd, trak, tkhd, mdat, data.
  repeat match goal with |- _ /\ _ => split end;
    try assumption; try reflexivity; try lia.
  rewrite length_firstn, length_skipn. lia.
Qed.

Lemma Older_main_writes_12_bytes_witness :
  exists mp4 ftyp moov mvhd trak tkhd mdat data,
    result (Older.Open 5 example_movie) = Ok (mp4, None) /\
    Older.Ftyp mp4 = Some ftyp /\
    Older.Moov mp4 = Some moov /\
    MainGo.Mvhd moov = Some mvhd /\
    MainGo.Trak moov = Some trak /\
    TrackBox.Tkhd trak = Some tkhd /\
    Older.Mdat mp4 = Some mdat /\
    MediaDataBox.Data mdat = Some data /\
    (16 <= List.length data)%nat /\
    repeat x11 6 ++ bytes_of [0; 0; 0; 16] ++ repeat x22 2
    = firstn 12 (skipn 4 data) /\
    List.length (repeat x11 6 ++ bytes_of [0; 0; 0; 16] ++ repeat x22 2) = 12%nat.
Proof.
  refine (Older_main_writes_12_bytes 5 example_movie
            (repeat x11 6 ++ bytes_of [0; 0; 0; 16] ++ repeat x22 2) _).
  vm_compute. reflexivity.
Defined.

(** ** The header at an offset *)

Lemma firstn_skipn_8 (l : list byte) (lo : nat) :
  (lo + 8 <= List.length l)%nat ->
  firstn 8 (skipn lo l)
  = [byte_at l lo; byte_at l (lo + 1); byte_at l (lo + 2); byte_at l (lo + 3);
     byte_at l (lo + 4); byte_at l (lo + 5); byte_at l (lo + 6);
     byte_at l (lo + 7)].
Proof.
  intros H. unfold byte_at.
  rewrite (skipn_cons_nth x00 l lo) by lia.
  rewrite (skipn_cons_nth x00 l (S lo)) by lia.
  rewrite (skipn_cons_nth x00 l (S (S lo))) by lia.
  rewrite (skipn_cons_nth x00 l (S (S (S lo)))) by lia.
  rewrite (skipn_cons_nth x00 l (S (S (S (S lo))))) by lia.
  rewrite (skipn_cons_nth x00 l (S (S (S (S (S lo)))))) by lia.
  rewrite (skipn_cons_nth x00 l (S (S (S (S (S (S lo))))))) by lia.
  rewrite (skipn_cons_nth x00 l (S (S (S (S (S (S (S lo)))))))) by lia.
  cbn [firstn].
  replace (lo + 1)%nat with (S lo) by lia.
  replace (lo + 2)%nat with (S (S lo)) by lia.
  replace (lo + 3)%nat with (S (S (S lo))) by lia.
  replace (lo + 4)%nat with (S (S (S (S lo)))) by lia.
  replace (lo + 5)%nat with (S (S (S (S (S lo))))) by lia.
  replace (lo + 6)%nat with (S (S (S (S (S (S lo)))))) by lia.
  replace (lo + 7)%nat with (S (S (S (S (S (S (S lo))))))) by lia.
  reflexivity.
Qed.

(** X28: [ReadBoxAt] always performs one read of 8 bytes at the offset.  It
    returns a header exactly when the offset is not negative and 8 bytes of
    the file follow it: the size is the big-endian number of the first four
    and the name is the next four, whatever they are.  In every other case
    it panics on slicing the nil buffer. *)
Theorem ReadBoxAt_header_at (m : Mp4Reader.t) (offset : Z) :
  Mp4Reader_ReadBoxAt m offset
  = (if (0 <=? offset)
        && (offset + 8 <=? Z.of_nat (List.length (Mp4Reader.Reader m)))
     then
       let l := Mp4Reader.Reader m in
       let i := Z.to_nat offset in
       Ok (u32_at l i,
           string_of_list_byte [byte_at l (i + 4); byte_at l (i + 5);
                                byte_at l (i + 6); byte_at l (i + 7)])
     else Panic SliceBoundsOutOfRange,
     [ReadEv offset 8]).
Proof.
  destruct ((0 <=? offset)
            && (offset + 8 <=? Z.of_nat (List.length (Mp4Reader.Reader m))))
    eqn:E.
  - apply andb_prop in E. destruct E as [E1 E2].
    apply Z.leb_le in E1. apply Z.leb_le in E2.
    rewrite ReadBoxAt_spec. unfold ReadAt.
    assert (E3 : (offset <? 0) = false) by (apply Z.ltb_ge; lia).
    rewrite E3. change (Z.to_nat 8) with 8%nat.
    rewrite firstn_skipn_8 by lia.
    cbn [List.length]. change (Z.of_nat 8 =? 8) with true. cbv iota zeta.
    rewrite lor_be_value. reflexivity.
  - destruct (ReadBoxAt_cases m offset) as [(s & n & _ & _ & H0 & H1)|E'];
      [|exact E'].
    apply andb_false_iff in E. destruct E as [E|E]; apply Z.leb_gt in E; lia.
Qed.

(** ** Decoders and the byte source *)




Section SameBytes.
Variables m1 m2 : Mp4Reader.t.
Hypothesis same_bytes : Mp4Reader.Reader m1 = Mp4Reader.Reader m2.















End SameBytes.

(** ** Failing decoders *)






